(** * autodebug-mcp: process-and-log supervisor

    A shallow embedding of the supervisor's process manager
    (StartProcess, processLogs, monitorProcessExit, FindProcessByURL,
    normalizeHost, GetRequestLog, KillProcess, killProcessByPort,
    waitForPortReadyWithExitCheck) and of the tool handlers registered by
    RegisterTools (start_process, request_with_logs, kill_process and the
    memory and knowledge tools), with the properties checked against the
    natural-language specification.

    Conventions.
    - Go [int], [int64] and [time.Duration] values are [Z]; where the
      source multiplies durations the 64-bit wrap-around is written out.
    - A [time.Time] is the number of nanoseconds since the zero instant,
      so that [IsZero] is a comparison with 0.
    - Go strings are byte strings ([string]); [len] is [String.length].
    - An index expression that would panic in Go yields [None]. *)

From Stdlib Require Import ZArith Lia Bool Ascii String DecimalString.
From stdpp Require Import base list strings gmap sorting.

Open Scope string_scope.
Open Scope list_scope.
Open Scope Z_scope.

(** ** Go library functions used by the source *)

Module GoStrings.

Definition nl : string := String (ascii_of_nat 10) EmptyString.
Definition tab : string := String (ascii_of_nat 9) EmptyString.
Definition dquote : string := String (ascii_of_nat 34) EmptyString.

(** strings.HasPrefix *)
Definition HasPrefix (s p : string) : bool := String.prefix p s.

(** strings.Contains *)
Fixpoint Contains (s sub : string) : bool :=
  String.prefix sub s ||
  match s with
  | EmptyString => false
  | String _ s' => Contains s' sub
  end.

(** strings.Join *)
Definition Join (elems : list string) (sep : string) : string :=
  String.concat sep elems.

Definition lower_ascii (c : ascii) : ascii :=
  let n := nat_of_ascii c in
  if (65 <=? n)%nat && (n <=? 90)%nat then ascii_of_nat (n + 32) else c.

Definition upper_ascii (c : ascii) : ascii :=
  let n := nat_of_ascii c in
  if (97 <=? n)%nat && (n <=? 122)%nat then ascii_of_nat (n - 32) else c.

Fixpoint map_string (f : ascii -> ascii) (s : string) : string :=
  match s with
  | EmptyString => EmptyString
  | String c s' => String (f c) (map_string f s')
  end.

(** whether every byte of [s] is below utf8.RuneSelf (0x80) *)
Definition is_ascii (s : string) : bool :=
  forallb (fun c => (nat_of_ascii c <? 128)%nat) (list_ascii_of_string s).

Definition eqb_string (a b : string) : bool := String.eqb a b.

(** strings.HasSuffix *)
Definition HasSuffix (s p : string) : bool :=
  (String.length p <=? String.length s)%nat &&
  eqb_string (String.substring (String.length s - String.length p) (String.length p) s) p.

(** the table asciiSpace of package strings: the white space of one
    byte *)
Definition is_space (c : ascii) : bool :=
  let n := nat_of_ascii c in
  ((9 <=? n)%nat && (n <=? 13)%nat) || (n =? 32)%nat.

(** The other runes of unicode.IsSpace in UTF-8: U+0085 and U+00A0 take
    two bytes; U+1680, U+2000 to U+200A, U+2028, U+2029, U+202F, U+205F
    and U+3000 take three. *)
Definition is_space2 (a b : ascii) : bool :=
  (nat_of_ascii a =? 194)%nat &&
  ((nat_of_ascii b =? 133)%nat || (nat_of_ascii b =? 160)%nat).

Definition is_space3 (a b c : ascii) : bool :=
  let '(a, b, c) := (nat_of_ascii a, nat_of_ascii b, nat_of_ascii c) in
  ((a =? 225) && (b =? 154) && (c =? 128))%nat ||
  ((a =? 226) && (b =? 128) &&
   (((128 <=? c) && (c <=? 138)) || (c =? 168) || (c =? 169) || (c =? 175)))%nat ||
  ((a =? 226) && (b =? 129) && (c =? 159))%nat ||
  ((a =? 227) && (b =? 128) && (c =? 128))%nat.

(** The number of bytes of the white-space rune that [s] starts with, 0
    when it starts with none.  A byte that starts one of these
    encodings is never a continuation byte, so that decoding [s] rune by
    rune, an invalid byte counting for one rune, meets a white-space
    rune exactly where one of the encodings occurs. *)
Definition space_width (s : string) : nat :=
  match s with
  | String a s1 =>
      if is_space a then 1%nat
      else
        match s1 with
        | String b s2 =>
            if is_space2 a b then 2%nat
            else
              match s2 with
              | String c _ => if is_space3 a b c then 3%nat else O
              | EmptyString => O
              end
        | EmptyString => O
        end
  | EmptyString => O
  end.

(** the same for the rune that the bytes end with; [r] holds the bytes
    from the last to the first *)
Definition space_width_last (r : list ascii) : nat :=
  match r with
  | c :: r1 =>
      if is_space c then 1%nat
      else
        match r1 with
        | b :: r2 =>
            if is_space2 b c then 2%nat
            else
              match r2 with
              | a :: _ => if is_space3 a b c then 3%nat else O
              | [] => O
              end
        | [] => O
        end
  | [] => O
  end.

(** the pieces of [s] between the bytes that satisfy [p] *)
Fixpoint split_by (p : ascii -> bool) (s : string) : list string :=
  match s with
  | EmptyString => [EmptyString]
  | String c s' =>
      if p c then EmptyString :: split_by p s'
      else match split_by p s' with
           | h :: t => String c h :: t
           | [] => [String c EmptyString]
           end
  end.

(** strings.Split with a separator of one byte *)
Definition Split (s : string) (sep : ascii) : list string :=
  split_by (Ascii.eqb sep) s.

(** the pieces of [s] between its white-space runes; [skip] bytes of a
    white-space rune are still to be passed *)
Fixpoint split_space (s : string) (skip : nat) : list string :=
  match s with
  | EmptyString => [EmptyString]
  | String c s' =>
      match skip with
      | S skip' => split_space s' skip'
      | O =>
          match space_width s with
          | S skip' => EmptyString :: split_space s' skip'
          | O =>
              match split_space s' O with
              | h :: t => String c h :: t
              | [] => [String c EmptyString]
              end
          end
      end
  end.

(** strings.Fields *)
Definition Fields (s : string) : list string :=
  List.filter (fun f => negb (eqb_string f EmptyString)) (split_space s O).

(** [s] without the white-space runes it starts with; [fuel] bounds
    their number *)
Fixpoint trim_left (fuel : nat) (s : string) : string :=
  match fuel with
  | O => s
  | S fuel' =>
      match space_width s with
      | O => s
      | w => trim_left fuel' (String.substring w (String.length s - w) s)
      end
  end.

(** the same at the end, on the bytes from the last to the first *)
Fixpoint trim_right (fuel : nat) (r : list ascii) : list ascii :=
  match fuel with
  | O => r
  | S fuel' =>
      match space_width_last r with
      | O => r
      | w => trim_right fuel' (drop w r)
      end
  end.

(** strings.TrimSpace *)
Definition TrimSpace (s : string) : string :=
  let s := trim_left (String.length s) s in
  string_of_list_ascii
    (rev (trim_right (String.length s) (rev (list_ascii_of_string s)))).

(** strings.LastIndexByte *)
Fixpoint LastIndexByte (s : string) (c : ascii) : option nat :=
  match s with
  | EmptyString => None
  | String a s' =>
      match LastIndexByte s' c with
      | Some i => Some (S i)
      | None => if Ascii.eqb a c then Some O else None
      end
  end.

(** the slices s[:i] and s[i:] *)
Definition slice_to (s : string) (i : nat) : string := String.substring 0 i s.
Definition slice_from (s : string) (i : nat) : string :=
  String.substring i (String.length s - i) s.

(** strconv.Itoa, and the verb %d of fmt *)
Definition Itoa (z : Z) : string := NilZero.string_of_int (Z.to_int z).

Definition digit_value (c : ascii) : option Z :=
  let n := nat_of_ascii c in
  if (48 <=? n)%nat && (n <=? 57)%nat then Some (Z.of_nat n - 48) else None.

Fixpoint parse_digits (s : string) (acc : Z) : option Z :=
  match s with
  | EmptyString => Some acc
  | String c s' =>
      match digit_value c with
      | Some d => parse_digits s' (acc * 10 + d)
      | None => None
      end
  end.

(** strconv.Atoi: the value and whether err is nil.  A syntax error
    gives 0; a value out of the range of int gives the nearest bound. *)
Definition Atoi (s : string) : Z * bool :=
  let '(neg, body) :=
    match s with
    | String "-" rest => (true, rest)
    | String "+" rest => (false, rest)
    | _ => (false, s)
    end in
  match body with
  | EmptyString => (0, false)
  | _ =>
      match parse_digits body 0 with
      | None => (0, false)
      | Some n =>
          let v := if neg : bool then - n else n in
          if v <? - 2 ^ 63 then (- 2 ^ 63, false)
          else if 2 ^ 63 - 1 <? v then (2 ^ 63 - 1, false)
          else (v, true)
      end
  end.

(** number of occurrences of the newline byte *)
Fixpoint count_newlines (s : string) : nat :=
  match s with
  | EmptyString => O
  | String c s' =>
      ((if Ascii.eqb c (ascii_of_nat 10) then 1 else 0) + count_newlines s')%nat
  end.

(** number of lines of a text whose lines are separated by newlines *)
Definition count_lines (s : string) : nat :=
  match s with
  | EmptyString => O
  | _ => S (count_newlines s)
  end.

End GoStrings.
Export GoStrings.

(** ** time.Time and time.Duration *)

Module GoTime.

Definition Time := Z.
Definition Duration := Z.

Definition Millisecond : Duration := 1000000.
Definition Second : Duration := 1000000000.

Definition min_int64 : Z := - 2 ^ 63.
Definition max_int64 : Z := 2 ^ 63 - 1.

(** two's complement wrap-around of a 64-bit result *)
Definition wrap64 (z : Z) : Z := (z + 2 ^ 63) mod 2 ^ 64 - 2 ^ 63.

(** [a * b] on time.Duration (int64) *)
Definition Duration_mul (a b : Duration) : Duration := wrap64 (a * b).

Definition Add (t : Time) (d : Duration) : Time := t + d.
Definition After (t u : Time) : bool := u <? t.
Definition Before (t u : Time) : bool := t <? u.
Definition IsZero (t : Time) : bool := t =? 0.

End GoTime.
Export GoTime.

(** ** ProcessInfo and the log ring *)

(** slice indexing; [None] where Go panics with index out of range *)
Definition index {A} (l : list A) (i : Z) : option A :=
  if 0 <=? i then l !! Z.to_nat i else None.

Record ProcessInfo := mkProcessInfo {
  Name : string;
  Pid : Z;                      (* Cmd.Process.Pid *)
  CmdDir : string;              (* Cmd.Dir *)
  StartTime : Time;
  HealthCheckURL : string;
  HealthCheckPort : Z;
  LogBuffer : string;
  logLines : list string;
  logTimes : list Time;
  maxLogLines : Z;
  logIndex : Z
}.

Definition set_ring (info : ProcessInfo) (lines : list string) (times : list Time)
    (idx : Z) (buf : string) : ProcessInfo :=
  {| Name := Name info; Pid := Pid info; CmdDir := CmdDir info;
     StartTime := StartTime info;
     HealthCheckURL := HealthCheckURL info;
     HealthCheckPort := HealthCheckPort info;
     LogBuffer := buf;
     logLines := lines; logTimes := times;
     maxLogLines := maxLogLines info; logIndex := idx |}.

(** The ProcessInfo literal built by StartProcess: a ring of 1000 empty
    slots whose timestamps are the zero Time. *)
Definition newProcessInfo (name : string) (pid : Z) (dir : string) (now : Time)
    (healthCheckURL : string) (port : Z) : ProcessInfo :=
  let maxLogLines := 1000 in
  {| Name := name; Pid := pid; CmdDir := dir; StartTime := now;
     HealthCheckURL := healthCheckURL; HealthCheckPort := port;
     LogBuffer := "";
     logLines := replicate (Z.to_nat maxLogLines) "";
     logTimes := replicate (Z.to_nat maxLogLines) 0;
     maxLogLines := maxLogLines; logIndex := 0 |}.

(** One iteration of processLogs: the line received from logChan is
    appended to LogBuffer and written to the ring at logIndex, stamped
    with time.Now(). *)
Definition processLogs_step (info : ProcessInfo) (line : string) (now : Time)
    : option ProcessInfo :=
  match index (logLines info) (logIndex info), index (logTimes info) (logIndex info) with
  | Some _, Some _ =>
      if maxLogLines info =? 0 then None
      else Some (set_ring info
                   (<[Z.to_nat (logIndex info) := line]> (logLines info))
                   (<[Z.to_nat (logIndex info) := now]> (logTimes info))
                   (Z.rem (logIndex info + 1) (maxLogLines info))
                   (LogBuffer info +:+ line +:+ nl))
  | _, _ => None
  end.

(** processLogs over the sequence of lines received from logChan, each
    paired with the reading of time.Now() taken when it is written. *)
Fixpoint processLogs (info : ProcessInfo) (ws : list (string * Time))
    : option ProcessInfo :=
  match ws with
  | [] => Some info
  | (line, now) :: ws' =>
      match processLogs_step info line now with
      | Some info' => processLogs info' ws'
      | None => None
      end
  end.

(** The loop of GetRequestLog; [n] is the number of iterations left and
    [i] the loop variable. *)
Fixpoint GetRequestLog_loop (pi : ProcessInfo) (startTime endTime : Time)
    (n : nat) (i : Z) (logs : list string) : option (list string) :=
  match n with
  | O => Some logs
  | S n' =>
      let idx := Z.rem (logIndex pi - 1 - i + maxLogLines pi) (maxLogLines pi) in
      match index (logTimes pi) idx with
      | None => None
      | Some logTime =>
          if IsZero logTime then
            GetRequestLog_loop pi startTime endTime n' (i + 1) logs
          else
            let appended :=
              if After logTime (Add startTime (-1 * Second)) && Before logTime endTime
              then match index (logLines pi) idx with
                   | Some line => Some (line :: logs)
                   | None => None
                   end
              else Some logs in
            match appended with
            | None => None
            | Some logs' =>
                if Before logTime (Add startTime (-2 * Second)) then Some logs'
                else GetRequestLog_loop pi startTime endTime n' (i + 1) logs'
            end
      end
  end.

(** The slice [logs] at the end of the loop; [now] is the reading of
    time.Now() taken on entry. *)
Definition GetRequestLog_lines (pi : ProcessInfo) (startTime now : Time)
    : option (list string) :=
  let endTime := Add now (500 * Millisecond) in
  GetRequestLog_loop pi startTime endTime (Z.to_nat (maxLogLines pi)) 0 [].

Definition GetRequestLog (pi : ProcessInfo) (startTime now : Time) : option string :=
  match GetRequestLog_lines pi startTime now with
  | Some logs => Some (Join logs nl)
  | None => None
  end.

(** *** Vocabulary for the ring properties *)

Definition RingOK (pi : ProcessInfo) : Prop :=
  length (logLines pi) = Z.to_nat (maxLogLines pi) /\
  length (logTimes pi) = Z.to_nat (maxLogLines pi) /\
  0 <= logIndex pi < maxLogLines pi.

(** the slots of the ring as (line, timestamp) pairs, in slot order *)
Definition entries (pi : ProcessInfo) : list (string * Time) :=
  zip (logLines pi) (logTimes pi).

(** the slots in the order in which they were last written: the slot at
    logIndex (the next to be overwritten) first *)
Definition chron (pi : ProcessInfo) : list (string * Time) :=
  drop (Z.to_nat (logIndex pi)) (entries pi) ++
  take (Z.to_nat (logIndex pi)) (entries pi).

(** the slots in the order in which GetRequestLog visits them *)
Definition scan_order (pi : ProcessInfo) : list (string * Time) :=
  reverse (chron pi).

(** the body of the loop of GetRequestLog over a list of slots *)
Fixpoint scan_entries (startTime endTime : Time) (es : list (string * Time))
    (logs : list string) : list string :=
  match es with
  | [] => logs
  | (line, logTime) :: es' =>
      if IsZero logTime then scan_entries startTime endTime es' logs
      else
        let logs' :=
          if After logTime (Add startTime (-1 * Second)) && Before logTime endTime
          then line :: logs else logs in
        if Before logTime (Add startTime (-2 * Second)) then logs'
        else scan_entries startTime endTime es' logs'
  end.

(** the window test of the source on a written slot *)
Definition in_window (startTime now : Time) (e : string * Time) : bool :=
  negb (IsZero e.2) &&
  (After e.2 (Add startTime (-1 * Second)) &&
   Before e.2 (Add now (500 * Millisecond))).

(** the window as the specification words it:
    t_start - 1 s <= t < now + 500 ms, on an initialized slot *)
Definition spec_in_window (startTime now : Time) (e : string * Time) : bool :=
  negb (IsZero e.2) &&
  ((startTime - 1 * Second <=? e.2) && (e.2 <? now + 500 * Millisecond)).

(** the writes still held by a ring of capacity [cap] *)
Definition retained (cap : Z) (ws : list (string * Time)) : list (string * Time) :=
  drop (length ws - Z.to_nat cap) ws.

(** readings of time.Now() by the single writer: after the zero instant
    and never decreasing *)
Definition writes_ok (ws : list (string * Time)) : Prop :=
  StronglySorted (fun a b : string * Time => a.2 <= b.2) ws /\
  Forall (fun w : string * Time => 0 < w.2) ws.

Definition no_newline (s : string) : Prop := count_newlines s = O.

(** a ring none of whose slots has been written *)
Definition blank (pi : ProcessInfo) : Prop :=
  RingOK pi /\ Forall (fun t => t = 0) (logTimes pi).

(** ** Capturing the output of the child *)

(** strings.TrimSuffix *)
Definition TrimSuffix (s suffix : string) : string :=
  if HasSuffix s suffix
  then slice_to s (String.length s - String.length suffix)
  else s.

(** bufio.Reader.ReadString on what is left of the pipe once the child
    has closed it: the bytes up to and including the first [delim] and
    the rest, or [None] when it returns io.EOF (with [delim] missing) *)
Fixpoint ReadString (pipe : string) (delim : ascii) : option (string * string) :=
  match pipe with
  | EmptyString => None
  | String c pipe' =>
      if Ascii.eqb c delim then Some (String c EmptyString, pipe')
      else match ReadString pipe' delim with
           | Some (line, rest) => Some (String c line, rest)
           | None => None
           end
  end.

(** The loop of collectStdout and of collectStderr over the bytes of the
    pipe: the lines it offers to logChan, in order.  [closed n] is the
    value of info.logChanClosed read in iteration [n]; [fuel] bounds the
    number of reads. *)
Fixpoint collect (closed : nat -> bool) (fuel n : nat) (pipe : string) : list string :=
  match fuel with
  | O => []
  | S fuel' =>
      match ReadString pipe (ascii_of_nat 10) with
      | None => []                                  (* err != nil: break *)
      | Some (line, rest) =>
          let line := TrimSuffix line nl in
          let line := TrimSuffix line (String (ascii_of_nat 13) EmptyString) in
          if negb (eqb_string line "") then
            if closed n then []                     (* closed: break *)
            else line :: collect closed fuel' (S n) rest
          else collect closed fuel' (S n) rest
      end
  end.

(** what a child prints when it writes each line followed by a newline *)
Definition printed (lines : list string) : string :=
  String.concat "" (map (fun line => line +:+ nl) lines).

Definition cr : string := String (ascii_of_nat 13) EmptyString.

(** logChan: make(chan string, 1000) *)
Definition logChan_capacity : nat := 1000.

Inductive ChanOp :=
| Offer (line : string)      (* select { case info.logChan <- line: default: } *)
| Receive.                   (* one iteration of for line := range info.logChan *)

(** the lines buffered in logChan, those that processLogs has received
    and the number of lines dropped *)
Record LogChan := mkLogChan {
  buffered : list string;
  received : list string;
  dropped : nat
}.

Definition chan_op (ch : LogChan) (op : ChanOp) : LogChan :=
  match op with
  | Offer line =>
      if (length (buffered ch) <? logChan_capacity)%nat
      then {| buffered := buffered ch ++ [line]; received := received ch;
              dropped := dropped ch |}
      else {| buffered := buffered ch; received := received ch;
              dropped := S (dropped ch) |}
  | Receive =>
      match buffered ch with
      | line :: rest =>
          {| buffered := rest; received := received ch ++ [line];
             dropped := dropped ch |}
      | [] => ch                                    (* the receiver waits *)
      end
  end.

Definition chan_run (ops : list ChanOp) : LogChan :=
  fold_left chan_op ops {| buffered := []; received := []; dropped := O |}.

(** the lines offered by a sequence of operations *)
Definition offered (ops : list ChanOp) : list string :=
  omap (fun op => match op with Offer line => Some line | Receive => None end) ops.

(** ** The tool semaphore

    [toolSemaphore] is a channel of capacity 1 into which [init] puts one
    token.  Every handler registered by RegisterTools begins with
    [acquireToolSemaphore()] (a receive) followed by
    [defer releaseToolSemaphore()] (a send that runs when the handler
    returns, on every return path). *)

Module ToolSemaphore.

Inductive Tool :=
| Tool_start_process
| Tool_request_with_logs
| Tool_kill_process
| Tool_save_memory
| Tool_read_memory
| Tool_save_knowledge
| Tool_search_knowledge.

Inductive Instr :=
| Acquire      (* <-toolSemaphore *)
| Body         (* the statements of the handler after the defer *)
| Release.     (* toolSemaphore <- struct{}{}, deferred *)

(** the statements of each handler in the order in which they run *)
Definition handler (t : Tool) : list Instr :=
  match t with
  | Tool_start_process => [Acquire; Body; Release]
  | Tool_request_with_logs => [Acquire; Body; Release]
  | Tool_kill_process => [Acquire; Body; Release]
  | Tool_save_memory => [Acquire; Body; Release]
  | Tool_read_memory => [Acquire; Body; Release]
  | Tool_save_knowledge => [Acquire; Body; Release]
  | Tool_search_knowledge => [Acquire; Body; Release]
  end.

(** the capacity of the channel: make(chan struct{}, 1) *)
Definition capacity : nat := 1.

Record State := mkState {
  toolSemaphore : nat;                  (* tokens buffered in the channel *)
  calls : list (Tool * list Instr)      (* tool calls and what each has left to run *)
}.

(** after [init]: one token, no call in flight *)
Definition initial : State := {| toolSemaphore := 1; calls := [] |}.

Inductive step : State -> State -> Prop :=
| step_call (s : State) (t : Tool) :
    (* a tools/call request arrives and its handler is started *)
    step s {| toolSemaphore := toolSemaphore s;
              calls := calls s ++ [(t, handler t)] |}
| step_acquire (s : State) (i : nat) (t : Tool) (rest : list Instr) :
    calls s !! i = Some (t, Acquire :: rest) ->
    (* a receive needs a buffered token *)
    (0 < toolSemaphore s)%nat ->
    step s {| toolSemaphore := (toolSemaphore s - 1)%nat;
              calls := <[i := (t, rest)]> (calls s) |}
| step_body (s : State) (i : nat) (t : Tool) (rest : list Instr) :
    (* the body makes progress and is still running *)
    calls s !! i = Some (t, Body :: rest) ->
    step s s
| step_return (s : State) (i : nat) (t : Tool) (rest : list Instr) :
    (* the body returns; the deferred release is next *)
    calls s !! i = Some (t, Body :: rest) ->
    step s {| toolSemaphore := toolSemaphore s;
              calls := <[i := (t, rest)]> (calls s) |}
| step_release (s : State) (i : nat) (t : Tool) (rest : list Instr) :
    calls s !! i = Some (t, Release :: rest) ->
    (* a send needs a free slot *)
    (toolSemaphore s < capacity)%nat ->
    step s {| toolSemaphore := (toolSemaphore s + 1)%nat;
              calls := <[i := (t, rest)]> (calls s) |}.

Definition reachable (s : State) : Prop := rtc step initial s.

(** a call is inside its handler body when it has acquired the token and
    has not yet returned *)
Definition in_body (c : Tool * list Instr) : bool :=
  match c.2 with
  | Body :: _ => true
  | _ => false
  end.

(** a call holds the token from its acquire to its release *)
Definition holds_token (c : Tool * list Instr) : nat :=
  match c.2 with
  | Body :: _ => 1
  | Release :: _ => 1
  | _ => 0
  end.

Definition tokens_held (cs : list (Tool * list Instr)) : nat :=
  foldr (fun c n => (holds_token c + n)%nat) O cs.

Definition bodies_running (s : State) : nat :=
  length (List.filter in_body (calls s)).

(** every remaining program is a tail of [Acquire; Body; Release] *)
Definition well_formed (c : Tool * list Instr) : Prop :=
  c.2 `suffix_of` [Acquire; Body; Release].

(** start_process is inside its body while request_with_logs waits *)
Definition demo_state : State :=
  {| toolSemaphore := 0;
     calls := [(Tool_start_process, [Body; Release]);
               (Tool_request_with_logs, [Acquire; Body; Release])] |}.

End ToolSemaphore.

(** ** The tasks that act on one child

    The statements of StartProcess, monitorProcessExit, KillProcess and
    of the goroutines they start, reduced to the operations on the child
    and on its channels, in program order.  [TStartProcess true] is a
    call whose [cmd.Start()] succeeds, [TStartProcess false] one whose
    [cmd.Start()] fails; [THomonym] is the prologue of a later
    StartProcess under the same name, which waits on the old child's
    waitDone. *)

Module Tasks.

Inductive Task :=
| TStartProcess (started : bool)
| TcollectStdout
| TcollectStderr
| TprocessLogs
| TmonitorProcessExit
| TlogWgWait                  (* go func() { info.logWg.Wait(); close(done) }() *)
| TKillProcess (call : nat)
| THomonym (call : nat).

Inductive Op :=
| OpCmdStart (ok : bool)      (* cmd.Start() *)
| OpCmdWait                   (* info.Cmd.Wait() *)
| OpGo (t : Task)             (* go statement *)
| OpStore                     (* pm.processes.Store(name, processInfo) *)
| OpLoad                      (* pm.processes.Load(name) *)
| OpDelete                    (* pm.processes.Delete(name) *)
| OpCancel                    (* info.Cancel() / cancel() *)
| OpTerminate                 (* taskkill or Cmd.Process.Kill() *)
| OpCloseWaitDone             (* waitOnce.Do(close(waitDone)) *)
| OpAwaitWaitDone             (* select on <-waitDone and time.After *)
| OpClosePipes                (* StdoutPipe.Close(); StderrPipe.Close() *)
| OpReadPipe                  (* ReadString until EOF, offering lines to logChan *)
| OpDrainLogChan              (* for line := range info.logChan *)
| OpLogWgDone                 (* defer info.logWg.Done() *)
| OpLogWgWait                 (* info.logWg.Wait(); close(done) *)
| OpAwaitLogTasks             (* select on <-done and time.After *)
| OpCloseLogChan              (* close(info.logChan) under logChanClosed *)
| OpSendExit.                 (* select on info.ExitChan <- err and default *)

Definition program (t : Task) : list Op :=
  match t with
  | TStartProcess true =>
      [OpCmdStart true; OpStore;
       OpGo TcollectStdout; OpGo TcollectStderr;
       OpGo TprocessLogs; OpGo TmonitorProcessExit]
  | TStartProcess false =>
      [OpCmdStart false; OpCancel; OpClosePipes; OpCloseLogChan]
  | TcollectStdout => [OpReadPipe; OpLogWgDone]
  | TcollectStderr => [OpReadPipe; OpLogWgDone]
  | TprocessLogs => [OpDrainLogChan]
  | TmonitorProcessExit =>
      [OpCmdWait; OpCloseWaitDone; OpClosePipes;
       OpGo TlogWgWait; OpAwaitLogTasks; OpCloseLogChan; OpSendExit]
  | TlogWgWait => [OpLogWgWait]
  | TKillProcess _ =>
      [OpLoad; OpCancel; OpTerminate; OpAwaitWaitDone; OpClosePipes;
       OpGo TlogWgWait; OpAwaitLogTasks; OpCloseLogChan; OpDelete]
  | THomonym _ => [OpLoad; OpAwaitWaitDone; OpDelete]
  end.

Record State := mkState {
  threads : list (Task * list Op);     (* running tasks and what each has left *)
  trace : list (Task * Op)             (* operations performed so far, oldest first *)
}.

(** one operation of one task; [go] adds the new task *)
Inductive step : State -> State -> Prop :=
| step_op (s : State) (i : nat) (t : Task) (op : Op) (rest : list Op) :
    threads s !! i = Some (t, op :: rest) ->
    step s {| threads :=
                <[i := (t, rest)]> (threads s) ++
                match op with
                | OpGo t' => [(t', program t')]
                | _ => []
                end;
              trace := trace s ++ [(t, op)] |}.

(** the tasks that are not started by another one: the StartProcess call
    that creates the child, and any calls of KillProcess and later
    StartProcess calls under the same name *)
Definition is_root (t : Task) : bool :=
  match t with
  | TKillProcess _ | THomonym _ => true
  | _ => false
  end.

Definition initial (started : bool) (others : list Task) : State :=
  {| threads := (TStartProcess started, program (TStartProcess started))
                :: map (fun t => (t, program t)) others;
     trace := [] |}.

Definition is_wait (e : Task * Op) : bool :=
  match e.2 with
  | OpCmdWait => true
  | _ => false
  end.

(** how often Cmd.Wait has been invoked *)
Definition waits (s : State) : nat := length (List.filter is_wait (trace s)).

Definition finished (s : State) : Prop :=
  Forall (fun th : Task * list Op => th.2 = []) (threads s).

(** the invocations of Cmd.Wait that running a task from its first
    statement leads to, the tasks it starts included *)
Definition task_waits (t : Task) : nat :=
  match t with
  | TStartProcess true => 1
  | TmonitorProcessExit => 1
  | _ => 0
  end.

(** the invocations of Cmd.Wait that a list of statements still leads to *)
Fixpoint pending (ops : list Op) : nat :=
  match ops with
  | [] => O
  | OpCmdWait :: rest => S (pending rest)
  | OpGo t :: rest => (task_waits t + pending rest)%nat
  | _ :: rest => pending rest
  end.

Definition total_pending (ths : list (Task * list Op)) : nat :=
  foldr (fun th n => (pending th.2 + n)%nat) O ths.

(** what holds in every state: the invocations made and those still to
    come add up to one for a started child; every task runs a tail of
    its program; only the exit watcher has invoked Cmd.Wait *)
Definition single_waiter_inv (started : bool) (s : State) : Prop :=
  (waits s + total_pending (threads s) = task_waits (TStartProcess started))%nat /\
  Forall (fun th : Task * list Op => th.2 `suffix_of` program th.1) (threads s) /\
  (forall t, In (t, OpCmdWait) (trace s) -> t = TmonitorProcessExit).

(** the scheduler runs the next operation of task [i] *)
Definition exec (s : State) (i : nat) : option State :=
  match threads s !! i with
  | Some (t, op :: rest) =>
      Some {| threads :=
                <[i := (t, rest)]> (threads s) ++
                match op with
                | OpGo t' => [(t', program t')]
                | _ => []
                end;
              trace := trace s ++ [(t, op)] |}
  | _ => None
  end.

Fixpoint run (s : State) (sched : list nat) : option State :=
  match sched with
  | [] => Some s
  | i :: sched' =>
      match exec s i with
      | Some s' => run s' sched'
      | None => None
      end
  end.

(** one call of kill_process and one later start_process of the same
    name, next to the StartProcess call that creates the child *)
Definition demo_others : list Task := [TKillProcess 0; THomonym 1].

(** StartProcess runs to its end, then the exit watcher, the log tasks,
    KillProcess and the later StartProcess *)
Definition demo_schedule : list nat :=
  replicate 6 0%nat ++ replicate 7 6%nat ++ [7%nat] ++
  replicate 2 3%nat ++ replicate 2 4%nat ++ [5%nat] ++
  replicate 9 1%nat ++ [8%nat] ++ replicate 3 2%nat.

End Tasks.

(** ** net/url *)

Module url.

(** url.URL; [User] is the userinfo, absent or a name with an optional
    password *)
Record URL := mkURL {
  Scheme : string;
  Opaque : string;
  User : option (string * option string);
  Host : string;
  Path : string;
  RawPath : string;
  OmitHost : bool;
  ForceQuery : bool;
  RawQuery : string;
  Fragment : string;
  RawFragment : string
}.

Definition set_Scheme (u : URL) (scheme : string) : URL :=
  mkURL scheme (Opaque u) (User u) (Host u) (Path u) (RawPath u) (OmitHost u)
        (ForceQuery u) (RawQuery u) (Fragment u) (RawFragment u).

Definition set_Host (u : URL) (host : string) : URL :=
  mkURL (Scheme u) (Opaque u) (User u) host (Path u) (RawPath u) (OmitHost u)
        (ForceQuery u) (RawQuery u) (Fragment u) (RawFragment u).

Fixpoint all_digits (s : string) : bool :=
  match s with
  | EmptyString => true
  | String c s' =>
      match digit_value c with
      | Some _ => all_digits s'
      | None => false
      end
  end.

(** validOptionalPort: empty, or a colon followed by digits *)
Definition validOptionalPort (port : string) : bool :=
  match port with
  | EmptyString => true
  | String ":" rest => all_digits rest
  | _ => false
  end.

(** splitHostPort of net/url: the port is what follows the last colon
    when that is made of digits; brackets around the host are removed *)
Definition splitHostPort (hostPort : string) : string * string :=
  let '(host, port) :=
    match LastIndexByte hostPort ":" with
    | Some colon =>
        if validOptionalPort (slice_from hostPort colon)
        then (slice_to hostPort colon, slice_from hostPort (S colon))
        else (hostPort, EmptyString)
    | None => (hostPort, EmptyString)
    end in
  let host' :=
    if HasPrefix host "[" && HasSuffix host "]"
    then String.substring 1 (String.length host - 2) host
    else host in
  (host', port).

Definition Hostname (u : URL) : string := (splitHostPort (Host u)).1.
Definition Port (u : URL) : string := (splitHostPort (Host u)).2.

End url.

(** The functions of the Go library that the source calls and that are
    taken as given: [None] stands for a non-nil error. *)
Record GoLib := mkGoLib {
  url_Parse : string -> string + url.URL;             (* url.Parse: the error text or the URL *)
  URL_String : url.URL -> string;                     (* the String method of URL *)
  net_SplitHostPort : string -> option (string * string);  (* net.SplitHostPort *)
  http_NewRequest : string -> string -> option string;     (* the error of http.NewRequestWithContext *)
  filepath_IsAbs : string -> bool;
  filepath_Join : string -> string -> string;
  Duration_String : Duration -> string;               (* the verb %v on a time.Duration *)
  Time_Format : Time -> string;                       (* Format(time.RFC3339) *)
  unicode_ToLower : string -> string;                 (* strings.Map(unicode.ToLower, s) *)
  unicode_ToUpper : string -> string                  (* strings.Map(unicode.ToUpper, s) *)
}.

(** strings.ToLower and strings.ToUpper: on a string of ASCII bytes the
    letters are mapped byte by byte; any other string goes through the
    Unicode mapping of the library. *)
Definition ToLower (lib : GoLib) (s : string) : string :=
  if is_ascii s then map_string lower_ascii s else unicode_ToLower lib s.

Definition ToUpper (lib : GoLib) (s : string) : string :=
  if is_ascii s then map_string upper_ascii s else unicode_ToUpper lib s.

(** ** The process registry and the operating system *)

(** What the supervisor does to the outside, in order. *)
Inductive Event :=
| EvCancel (pid : Z)                                (* info.Cancel() *)
| EvProcessKill (pid : Z)                           (* info.Cmd.Process.Kill() *)
| EvExec (name : string) (args : list string)       (* an external command is run *)
| EvDial (address : string)                         (* net.DialTimeout("tcp", address, 100ms) *)
| EvStart (command : string) (args : list string) (dir : string)
    (env : list (string * string))                  (* cmd.Start(), with the overrides of the environment *)
| EvAwaitWaitDone (pid : Z) (limit : Duration)      (* select on waitDone and time.After *)
| EvSleep (d : Duration)                            (* time.Sleep *)
| EvHTTP (method fullURL : string) (headers : list (string * string)) (body : string)
| EvWriteFile (method fullURL : string) (statusCode : Z) (responseBody logs : string).
                                                    (* the response log written by writeResponseToFile *)

(** the outcome of httpClient.Do followed by reading the body *)
Inductive HTTPOutcome :=
| HTTPError (err : string)
| HTTPResponse (StatusCode : Z) (body : string).

(** the cases of the select statement of the readiness wait *)
Inductive SelectCase :=
| CaseDone                       (* <-ctx.Done() *)
| CaseTick                       (* <-ticker.C *)
| CaseExit.                      (* exitErr := <-exitChan *)

(** What happens around one readiness wait.  Durations are measured from
    the creation of the context and of the ticker. *)
Record WaitEnv := mkWaitEnv {
  first_select : Duration;                    (* when the first select is reached *)
  exit_at : option (Duration * option string);(* when monitorProcessExit delivers on ExitChan, and what *)
  probe_ok : nat -> bool;                     (* whether the n-th probe finds the service ready *)
  probe_time : nat -> Duration;               (* how long the n-th probe takes *)
  choice : nat -> nat;                        (* the pseudo-random pick of the n-th select *)
  ctx_cancelled : option Duration             (* when the ctx of the handler is cancelled *)
}.

(** The answers of the operating system and of the network.  They may
    depend on what has been done so far. *)
Record OS := mkOS {
  Getenv : string -> string;
  Getwd : string;
  dial_ok : list Event -> string -> bool;
  run_command : list Event -> string -> list string -> option string;
  StdoutPipe_error : list Event -> option string;   (* the error of cmd.StdoutPipe() *)
  StderrPipe_error : list Event -> option string;   (* the error of cmd.StderrPipe() *)
  start_command : list Event -> string -> list string -> string -> string + Z;
  time_Now : list Event -> Time;
  http_Do : list Event -> string -> string -> list (string * string) -> string
            -> HTTPOutcome * Duration;
  response_log_path : list Event -> string;   (* where writeResponseToFile wrote, or empty *)
  readiness : list Event -> WaitEnv;
  (** the fields of a shared ProcessInfo as the log tasks have left them *)
  observe : list Event -> ProcessInfo -> ProcessInfo
}.

(** pm.processes, in the order in which Range visits it *)
Record World := mkWorld {
  processes : list (string * ProcessInfo);
  events : list Event
}.

Definition emit (w : World) (e : Event) : World :=
  {| processes := processes w; events := events w ++ [e] |}.

Fixpoint Load (procs : list (string * ProcessInfo)) (name : string) : option ProcessInfo :=
  match procs with
  | [] => None
  | (k, info) :: rest => if eqb_string k name then Some info else Load rest name
  end.

Definition Delete (procs : list (string * ProcessInfo)) (name : string)
    : list (string * ProcessInfo) :=
  List.filter (fun kv => negb (eqb_string kv.1 name)) procs.

Fixpoint Store (procs : list (string * ProcessInfo)) (name : string) (info : ProcessInfo)
    : list (string * ProcessInfo) :=
  match procs with
  | [] => [(name, info)]
  | (k, v) :: rest =>
      if eqb_string k name then (k, info) :: rest
      else (k, v) :: Store rest name info
  end.

(** GetProcess *)
Definition GetProcess (w : World) (name : string) : option ProcessInfo :=
  Load (processes w) name.

(** ** Auto-association *)

(** normalizeHost *)
Definition normalizeHost (lib : GoLib) (host : string) : string :=
  if eqb_string host "" then ""
  else
    let host := ToLower lib host in
    if eqb_string host "localhost" || eqb_string host "127.0.0.1" ||
       eqb_string host "::1" || eqb_string host "0.0.0.0"
    then "localhost"
    else host.

(** the port of the request: explicit, else the default of the scheme *)
Definition request_port (u : url.URL) : option string :=
  if eqb_string (url.Port u) "" then
    if eqb_string (url.Scheme u) "http" then Some "80"
    else if eqb_string (url.Scheme u) "https" then Some "443"
    else None
  else Some (url.Port u).

(** the first test of the Range callback: compare with HealthCheckURL *)
Definition match_HealthCheckURL (lib : GoLib) (normalizedRequestHost requestPort : string)
    (info : ProcessInfo) : bool :=
  if eqb_string (HealthCheckURL info) "" then false
  else
    match url_Parse lib (HealthCheckURL info) with
    | inl _ => false
    | inr healthURL =>
        let normalizedHealthHost := normalizeHost lib (url.Hostname healthURL) in
        let healthPort := url.Port healthURL in
        let healthPort :=
          if eqb_string healthPort "" then
            if eqb_string (url.Scheme healthURL) "http" then "80"
            else if eqb_string (url.Scheme healthURL) "https" then "443"
            else healthPort
          else healthPort in
        eqb_string normalizedRequestHost normalizedHealthHost &&
        eqb_string requestPort healthPort
    end.

(** the second test of the Range callback: compare with HealthCheckPort *)
Definition match_HealthCheckPort (requestPort : string) (info : ProcessInfo) : bool :=
  if 0 <? HealthCheckPort info then
    let requestPortInt := (Atoi requestPort).1 in
    requestPortInt =? HealthCheckPort info
  else false.

(** pm.processes.Range with the callback of FindProcessByURL *)
Fixpoint Range_match (lib : GoLib) (normalizedRequestHost requestPort : string)
    (procs : list (string * ProcessInfo)) : option ProcessInfo :=
  match procs with
  | [] => None
  | (_, info) :: rest =>
      if match_HealthCheckURL lib normalizedRequestHost requestPort info then Some info
      else if match_HealthCheckPort requestPort info then Some info
      else Range_match lib normalizedRequestHost requestPort rest
  end.

(** FindProcessByURL; [None] is the nil result *)
Definition FindProcessByURL (lib : GoLib) (w : World) (requestURL : string)
    : option ProcessInfo :=
  match url_Parse lib requestURL with
  | inl _ => None
  | inr parsedURL =>
      let requestHost := url.Hostname parsedURL in
      let normalizedRequestHost := normalizeHost lib requestHost in
      match request_port parsedURL with
      | None => None
      | Some requestPort =>
          Range_match lib normalizedRequestHost requestPort (processes w)
      end
  end.

(** extractPortFromURL; [None] is a non-nil error *)
Definition extractPortFromURL (lib : GoLib) (healthCheckURL : string) : option Z :=
  match url_Parse lib healthCheckURL with
  | inl _ => None
  | inr parsedURL =>
      let host := url.Host parsedURL in
      if Contains host ":" then
        match net_SplitHostPort lib host with
        | None => None
        | Some (_, portStr) =>
            let '(port, ok) := Atoi portStr in
            if ok then Some port else None
        end
      else if eqb_string (url.Scheme parsedURL) "http" then Some 80
      else if eqb_string (url.Scheme parsedURL) "https" then Some 443
      else None
  end.

(** ** Tool results *)

Inductive Value :=
| VInt (n : Z)
| VString (s : string).

(** mcp.CallToolResult with one TextContent per element of [Content] *)
Record CallToolResult := mkCallToolResult {
  Content : list string;
  IsError : bool;
  StructuredContent : option (gmap string Value)
}.

Definition text_result (text : string) (isError : bool) : CallToolResult :=
  {| Content := [text]; IsError := isError; StructuredContent := None |}.

(** truncateString *)
Definition truncateString (s : string) (maxLen : nat) : string :=
  if (String.length s <=? maxLen)%nat then s
  else slice_to s maxLen +:+ "...".

(** ** request_with_logs *)

Module requestWithLogsArgs.
Record t := mk {
  ProcessName : string;
  URL : string;
  Method : string;
  Headers : list (string * string);
  Body : string
}.
End requestWithLogsArgs.

(** the test made on URLs throughout the handler *)
Definition is_absolute (u : string) : bool :=
  HasPrefix u "http://" || HasPrefix u "https://".

(** The first part of the handler: the child the request is associated
    with, by name or by FindProcessByURL; [inl] is an early return. *)
Definition associate (lib : GoLib) (w : World) (args : requestWithLogsArgs.t)
    : CallToolResult + option ProcessInfo :=
  if negb (eqb_string (requestWithLogsArgs.ProcessName args) "") then
    match GetProcess w (requestWithLogsArgs.ProcessName args) with
    | Some processInfo => inr (Some processInfo)
    | None =>
        inl (text_result ("进程不存在: " +:+ requestWithLogsArgs.ProcessName args) true)
    end
  else
    let fullURL := requestWithLogsArgs.URL args in
    if is_absolute fullURL then inr (FindProcessByURL lib w fullURL)
    else inr None.

(** The second part: the final URL; [inl] is an early return. *)
Definition build_fullURL (lib : GoLib) (processInfo : option ProcessInfo)
    (URL : string) : CallToolResult + string :=
  match processInfo with
  | None => inr URL
  | Some info =>
      if eqb_string (HealthCheckURL info) "" then inr URL
      else
        match url_Parse lib (HealthCheckURL info) with
        | inl err => inl (text_result ("解析健康检查URL失败: " +:+ err) true)
        | inr parsedHealthURL =>
            if is_absolute URL then
              match url_Parse lib URL with
              | inl err => inl (text_result ("解析URL失败: " +:+ err) true)
              | inr parsedURL =>
                  let parsedURL := url.set_Scheme parsedURL (url.Scheme parsedHealthURL) in
                  let parsedURL := url.set_Host parsedURL (url.Host parsedHealthURL) in
                  inr (URL_String lib parsedURL)
              end
            else
              let baseURL :=
                url.Scheme parsedHealthURL +:+ "://" +:+ url.Host parsedHealthURL in
              let path := if HasPrefix URL "/" then URL else "/" +:+ URL in
              inr (baseURL +:+ path)
        end
  end.

(** the canonical form of a header key is Content-Type *)
Definition is_Content_Type (key : string) : bool :=
  eqb_string (map_string lower_ascii key) "content-type".

Definition has_Content_Type (headers : list (string * string)) : bool :=
  existsb (fun kv => is_Content_Type kv.1 && negb (eqb_string kv.2 "")) headers.

(** the headers of the request after the loop over args.Headers and the
    default for Content-Type *)
Definition request_headers (headers : list (string * string)) (body : string)
    : list (string * string) :=
  if negb (eqb_string body "") && negb (has_Content_Type headers)
  then List.filter (fun kv => negb (is_Content_Type kv.1)) headers
       ++ [("Content-Type", "application/json")]
  else headers.

(** what the handler has ready when it calls httpClient.Do *)
Record Request := mkRequest {
  req_processInfo : option ProcessInfo;
  req_fullURL : string;
  req_method : string;
  req_headers : list (string * string);
  req_body : string;
  requestStartTime : Time
}.

Definition prepare (lib : GoLib) (os : OS) (args : requestWithLogsArgs.t) (w : World)
    : CallToolResult + Request :=
  match associate lib w args with
  | inl r => inl r
  | inr processInfo =>
      match build_fullURL lib processInfo (requestWithLogsArgs.URL args) with
      | inl r => inl r
      | inr fullURL =>
          let requestStartTime :=
            match processInfo with
            | Some _ => time_Now os (events w)      (* StartRequestLog *)
            | None => 0
            end in
          let method := ToUpper lib (requestWithLogsArgs.Method args) in
          let method := if eqb_string method "" then "GET" else method in
          match http_NewRequest lib method fullURL with
          | Some err => inl (text_result ("创建请求失败: " +:+ err) true)
          | None =>
              inr {| req_processInfo := processInfo;
                     req_fullURL := fullURL;
                     req_method := method;
                     req_headers := request_headers (requestWithLogsArgs.Headers args)
                                      (requestWithLogsArgs.Body args);
                     req_body := requestWithLogsArgs.Body args;
                     requestStartTime := requestStartTime |}
          end
      end
  end.

(** The part of the handler after httpClient.Do; [None] is a panic. *)
Definition respond (lib : GoLib) (os : OS) (req : Request)
    (outcome : HTTPOutcome) (duration : Duration) (w : World)
    : option (CallToolResult * World) :=
  let '(responseBody, statusCode) :=
    match outcome with
    | HTTPError err => ("请求失败: " +:+ err, 0)
    | HTTPResponse code body => (body, code)
    end in
  requestLogs ←
    match req_processInfo req with
    | Some processInfo =>
        logs ← GetRequestLog (observe os (events w) processInfo)
                 (requestStartTime req) (time_Now os (events w));
        Some (if eqb_string logs "" then "(请求期间无进程日志输出)" else logs)
    | None => Some "(未关联进程)"
    end;
  let logFilePath := response_log_path os (events w) in
  let w' := emit w (EvWriteFile (req_method req) (req_fullURL req) statusCode
                      responseBody requestLogs) in
  let totalContentLen := (String.length responseBody + String.length requestLogs)%nat in
  let maxInlineLen := 4000%nat in
  let structuredResp : gmap string Value :=
    <["duration_ms" := VInt (Z.quot duration 1000000)]>
      (<["status_code" := VInt statusCode]> ∅) in
  let structuredResp :=
    if negb (eqb_string logFilePath "")
    then <["log_file" := VString logFilePath]> structuredResp
    else structuredResp in
  let head_text :=
    "请求完成" +:+ nl +:+ "方法: " +:+ req_method req +:+ nl +:+
    "URL: " +:+ req_fullURL req +:+ nl +:+
    "状态码: " +:+ Itoa statusCode +:+ nl +:+
    "耗时: " +:+ Duration_String lib duration +:+ nl +:+ nl in
  let has_process := match req_processInfo req with Some _ => true | None => false end in
  if (maxInlineLen <? totalContentLen)%nat && negb (eqb_string logFilePath "") then
    let responseSummary :=
      if (500 <? String.length responseBody)%nat
      then slice_to responseBody 500 +:+ nl +:+ "...(已截取)..."
      else responseBody in
    let responseText :=
      head_text +:+ "⚠️ 内容过长，完整响应和日志已保存到:" +:+ nl +:+ logFilePath +:+ nl +:+ nl +:+
      "响应摘要:" +:+ nl +:+ responseSummary in
    let structuredResp :=
      <["response_summary" := VString (truncateString responseBody 500)]> structuredResp in
    let structuredResp :=
      if has_process && negb (eqb_string requestLogs "")
      then <["logs_summary" := VString (truncateString requestLogs 500)]> structuredResp
      else structuredResp in
    Some ({| Content := [responseText]; IsError := false;
             StructuredContent := Some structuredResp |}, w')
  else
    let responseText := head_text +:+ "响应:" +:+ nl +:+ responseBody in
    let responseText :=
      if has_process && negb (eqb_string requestLogs "")
      then responseText +:+ nl +:+ nl +:+ "请求期间进程日志:" +:+ nl +:+ requestLogs
      else responseText in
    let structuredResp := <["response" := VString responseBody]> structuredResp in
    let structuredResp :=
      if has_process then <["logs" := VString requestLogs]> structuredResp
      else structuredResp in
    Some ({| Content := [responseText]; IsError := false;
             StructuredContent := Some structuredResp |}, w').

(** The handler of request_with_logs between acquireToolSemaphore and
    the deferred release. *)
Definition request_with_logs (lib : GoLib) (os : OS) (args : requestWithLogsArgs.t)
    (w : World) : option (CallToolResult * World) :=
  match prepare lib os args w with
  | inl r => Some (r, w)
  | inr req =>
      let w1 := emit w (EvHTTP (req_method req) (req_fullURL req)
                          (req_headers req) (req_body req)) in
      let '(outcome, duration) :=
        http_Do os (events w) (req_method req) (req_fullURL req)
          (req_headers req) (req_body req) in
      respond lib os req outcome duration w1
  end.

(** the URL of the request that the handler sends, if it sends one *)
Definition outbound_URL (lib : GoLib) (os : OS) (args : requestWithLogsArgs.t)
    (w : World) : option string :=
  match prepare lib os args w with
  | inl _ => None
  | inr req => Some (req_fullURL req)
  end.

(** ** Killing *)

(** the test on which the source chooses its kill strategy *)
Definition is_windows (lib : GoLib) (os : OS) : bool :=
  Contains (ToLower lib (Getenv os "OS")) "windows".

(** isPortInUse *)
Definition isPortInUse (os : OS) (port : Z) (w : World) : bool * World :=
  let address := "127.0.0.1:" +:+ Itoa port in
  (dial_ok os (events w) address, emit w (EvDial address)).

(** the PID that one line of the output of netstat contributes *)
Definition netstat_pid (line : string) (port : Z) : option Z :=
  if negb (Contains line "LISTENING") && negb (Contains line "LISTEN") then None
  else if Contains line (":" +:+ Itoa port) then
    let fields := Fields line in
    if (5 <=? length fields)%nat then
      match last fields with
      | Some pidField =>
          match Split pidField "/" with
          | pidStr :: _ =>
              let '(pid, ok) := Atoi (TrimSpace pidStr) in
              if ok && (0 <? pid) then Some pid else None
          | [] => None
          end
      | None => None
      end
    else None
  else None.

(** the loop over the lines, with seenPIDs *)
Fixpoint netstat_pids (lines : list string) (port : Z) (pids : list Z) : list Z :=
  match lines with
  | [] => pids
  | line :: rest =>
      match netstat_pid line port with
      | Some pid =>
          if existsb (Z.eqb pid) pids then netstat_pids rest port pids
          else netstat_pids rest port (pids ++ [pid])
      | None => netstat_pids rest port pids
      end
  end.

(** killProcessByPort; the first component is the error, [None] for nil *)
Definition killProcessByPort (lib : GoLib) (os : OS) (port : Z) (w : World)
    : option string * World :=
  let '(inUse, w) := isPortInUse os port w in
  if negb inUse then (Some ("端口 " +:+ Itoa port +:+ " 未被占用"), w)
  else
    let netstat_args := if is_windows lib os then ["-ano"] else ["-tulnp"] in
    let output := run_command os (events w) "netstat" netstat_args in
    let w := emit w (EvExec "netstat" netstat_args) in
    match output with
    | None => (Some "执行netstat失败", w)
    | Some output =>
        let pids := netstat_pids (Split output (ascii_of_nat 10)) port [] in
        match pids with
        | [] => (Some ("未找到占用端口 " +:+ Itoa port +:+ " 的进程"), w)
        | _ =>
            let w :=
              fold_left
                (fun w pid =>
                   if is_windows lib os
                   then emit w (EvExec "taskkill" ["/F"; "/PID"; Itoa pid])
                   else emit w (EvExec "kill" ["-9"; Itoa pid]))
                pids w in
            (None, emit w (EvSleep (500 * Millisecond)))
        end
    end.

(** KillProcessByHealthCheckURL *)
Definition KillProcessByHealthCheckURL (lib : GoLib) (os : OS) (healthCheckURL : string)
    (w : World) : option string * World :=
  match extractPortFromURL lib healthCheckURL with
  | None => (Some "extractPortFromURL", w)
  | Some port =>
      let '(inUse, w) := isPortInUse os port w in
      if negb inUse then (None, w)
      else killProcessByPort lib os port w
  end.

(** KillProcess; a registered child always has a Cmd.Process.  The
    closing of the pipes and of logChan leaves no trace outside. *)
Definition KillProcess (lib : GoLib) (os : OS) (name : string) (w : World)
    : option string * World :=
  match Load (processes w) name with
  | None => (Some ("进程不存在: " +:+ name), w)
  | Some info =>
      let pid := Pid info in
      let w := emit w (EvCancel pid) in
      let w :=
        if is_windows lib os then
          let taskkill_args := ["/F"; "/T"; "/PID"; Itoa pid] in
          let output := run_command os (events w) "taskkill" taskkill_args in
          let w := emit w (EvExec "taskkill" taskkill_args) in
          match output with
          | Some _ => w
          | None =>
              if 0 <? HealthCheckPort info
              then (killProcessByPort lib os (HealthCheckPort info) w).2
              else w
          end
        else emit w (EvProcessKill pid) in
      let w := emit w (EvAwaitWaitDone pid (3 * Second)) in
      (None, {| processes := Delete (processes w) name; events := events w |})
  end.

(** ** Starting *)

(** the working directory that StartProcess gives to the command *)
Definition resolve_dir (lib : GoLib) (os : OS) (command : string) (args : list string)
    (workDir : string) : string :=
  if negb (eqb_string workDir "") then
    if filepath_IsAbs lib workDir then workDir
    else filepath_Join lib (Getwd os) workDir
  else
    match args with
    | arg0 :: extractedDir :: _ =>
        if eqb_string command "go" && eqb_string arg0 "-C" then
          if filepath_IsAbs lib extractedDir then extractedDir
          else filepath_Join lib (Getwd os) extractedDir
        else Getwd os
    | _ => Getwd os
    end.

(** the error of StartProcess when cmd.Start fails *)
Definition start_error (err command : string) : string :=
  if Contains err "executable file not found" then
    "启动进程失败: " +:+ err +:+ nl +:+ nl +:+
    "提示：找不到可执行文件 '" +:+ command +:+ "'" +:+ nl +:+
    "请确保：" +:+ nl +:+
    "1. 该命令已安装并在 PATH 中" +:+ nl +:+
    "2. 或使用完整路径（如 'C:\Go\bin\go.exe'）" +:+ nl +:+ nl +:+
    "常见示例：" +:+ nl +:+
    "- Go: command='go', args=['run', '.']" +:+ nl +:+
    "- Python: command='python', args=['app.py']" +:+ nl +:+
    "- Node: command='node', args=['app.js']"
  else "启动进程失败: " +:+ err.

(** StartProcess: [inl] is the error, [inr] the registered ProcessInfo. *)
Definition StartProcess (lib : GoLib) (os : OS) (name command : string)
    (args : list string) (env : list (string * string))
    (workDir healthCheckURL : string) (w : World) : (string + ProcessInfo) * World :=
  let w :=
    match GetProcess w name with
    | Some oldInfo =>
        let w := emit w (EvAwaitWaitDone (Pid oldInfo) (2 * Second)) in
        {| processes := Delete (processes w) name; events := events w |}
    | None => w
    end in
  let port :=
    match extractPortFromURL lib healthCheckURL with
    | Some port => port
    | None => 0
    end in
  let dir := resolve_dir lib os command args workDir in
  match StdoutPipe_error os (events w) with
  | Some err => (inl ("创建 stdout 管道失败: " +:+ err), w)
  | None =>
      match StderrPipe_error os (events w) with
      | Some err => (inl ("创建 stderr 管道失败: " +:+ err), w)
      | None =>
          let started := start_command os (events w) command args dir in
          let now := time_Now os (events w) in
          let w := emit w (EvStart command args dir env) in
          match started with
          | inl err => (inl (start_error err command), w)
          | inr pid =>
              let processInfo := newProcessInfo name pid dir now healthCheckURL port in
              (inr processInfo,
               {| processes := Store (processes w) name processInfo;
                  events := events w |})
          end
      end
  end.

(** ** Waiting for readiness *)

(** the cases of the select that can proceed at time [t], in the order
    of the source; [ticks] ticks have been received so far *)
Definition ready_cases (timeout : Duration) (env : WaitEnv) (ticks : nat)
    (t : Duration) : list SelectCase :=
  (if timeout <=? t then [CaseDone] else []) ++
  (if 500 * Millisecond * (Z.of_nat ticks + 1) <=? t then [CaseTick] else []) ++
  match exit_at env with
  | Some (e, _) => if e <=? t then [CaseExit] else []
  | None => []
  end.

(** when a select entered at [entered] proceeds: at once if a case is
    ready, else as soon as one becomes ready *)
Definition wake_time (timeout : Duration) (env : WaitEnv) (ticks : nat)
    (entered : Duration) : Duration :=
  match ready_cases timeout env ticks entered with
  | _ :: _ => entered
  | [] =>
      let t := Z.min timeout (500 * Millisecond * (Z.of_nat ticks + 1)) in
      match exit_at env with
      | Some (e, _) => Z.min t e
      | None => t
      end
  end.

(** The loop of waitForPortReadyWithExitCheck and of
    waitForHTTPReadyWithExitCheck, which differ in the probe and in the
    text of the timeout error.  The result is the error ([None] for nil)
    and the time at which the function returns; [fuel] bounds the number
    of iterations. *)
Fixpoint wait_loop (timeout_text : string) (timeout : Duration) (env : WaitEnv)
    (fuel selects ticks : nat) (entered : Duration)
    : option (option string * Duration) :=
  match fuel with
  | O => None
  | S fuel' =>
      let t := wake_time timeout env ticks entered in
      let ready := ready_cases timeout env ticks t in
      match ready !! (choice env selects mod length ready)%nat with
      | None => None
      | Some CaseDone => Some (Some timeout_text, t)
      | Some CaseTick =>
          if probe_ok env ticks then Some (None, t + probe_time env ticks)
          else wait_loop timeout_text timeout env fuel' (S selects) (S ticks)
                 (t + probe_time env ticks)
      | Some CaseExit =>
          Some (Some match exit_at env with
                     | Some (_, Some exitErr) => "进程异常退出: " +:+ exitErr
                     | _ => "进程已退出"
                     end, t)
      end
  end.

Definition waitForPortReadyWithExitCheck (timeout : Duration) (env : WaitEnv)
    (fuel : nat) : option (option string * Duration) :=
  wait_loop "等待端口就绪超时" timeout env fuel O O (first_select env).

(** when the context made by context.WithTimeout(ctx, timeout) is done:
    at its own deadline, or when [ctx] is cancelled if that comes first *)
Definition ctx_done (timeout : Duration) (env : WaitEnv) : Duration :=
  match ctx_cancelled env with
  | Some cancelled => Z.min timeout cancelled
  | None => timeout
  end.

Definition waitForHTTPReadyWithExitCheck (timeout : Duration) (env : WaitEnv)
    (fuel : nat) : option (option string * Duration) :=
  wait_loop "等待 HTTP 服务就绪超时" (ctx_done timeout env) env fuel O O (first_select env).

(** waitForPortReady and waitForHTTPReady: the same loops without the
    case on exitChan *)
Definition without_exit (env : WaitEnv) : WaitEnv :=
  {| first_select := first_select env;
     exit_at := None;
     probe_ok := probe_ok env;
     probe_time := probe_time env;
     choice := choice env;
     ctx_cancelled := ctx_cancelled env |}.

Definition waitForPortReady (timeout : Duration) (env : WaitEnv) (fuel : nat)
    : option (option string * Duration) :=
  wait_loop "等待端口就绪超时" timeout (without_exit env) fuel O O (first_select env).

Definition waitForHTTPReady (timeout : Duration) (env : WaitEnv) (fuel : nat)
    : option (option string * Duration) :=
  wait_loop "等待 HTTP 服务就绪超时" (ctx_done timeout env) (without_exit env) fuel O O
    (first_select env).

(** the error that the loop returns when the child has exited *)
Definition exit_text (exitErr : option string) : string :=
  match exitErr with
  | Some exitErr => "进程异常退出: " +:+ exitErr
  | None => "进程已退出"
  end.

(** ** start_process *)

Module startProcessArgs.
Record t := mk {
  Name : string;
  Command : string;
  Args : list string;
  WorkDir : string;
  Env : list (string * string);
  HealthCheckURL : string;
  TimeoutSeconds : Z;
  HealthCheckMethod : string
}.
End startProcessArgs.

(** time.Duration(args.TimeoutSeconds) * time.Second *)
Definition requested_timeout (TimeoutSeconds : Z) : Duration :=
  Duration_mul TimeoutSeconds Second.

(** whether the branch [if timeout == 0] is taken *)
Definition default_applies (TimeoutSeconds : Z) : bool :=
  requested_timeout TimeoutSeconds =? 0.

Definition effective_timeout (TimeoutSeconds : Z) : Duration :=
  if default_applies TimeoutSeconds then 60 * Second
  else requested_timeout TimeoutSeconds.

(** the text returned when command contains a space *)
Definition command_shape_message (command : string) : string :=
  "命令参数错误：command '" +:+ command +:+ "' 包含空格" +:+ nl +:+ nl +:+
  "正确用法：" +:+ nl +:+
  "- command: 可执行文件名（如 'go', 'python', 'npm'）" +:+ nl +:+
  "- args: 参数列表（如 ['run', '.']）" +:+ nl +:+ nl +:+
  "示例：启动 Go 项目" +:+ nl +:+
  "  command: " +:+ dquote +:+ "go" +:+ dquote +:+ nl +:+
  "  args: [" +:+ dquote +:+ "run" +:+ dquote +:+ ", " +:+ dquote +:+ "." +:+ dquote +:+ "]" +:+ nl +:+ nl +:+
  "示例：启动 Python 项目" +:+ nl +:+
  "  command: " +:+ dquote +:+ "python" +:+ dquote +:+ nl +:+
  "  args: [" +:+ dquote +:+ "-m" +:+ dquote +:+ ", " +:+ dquote +:+ "http.server" +:+ dquote +:+ ", " +:+
  dquote +:+ "8080" +:+ dquote +:+ "]".

(** the world when the handler calls StartProcess: a child of the same
    name has been killed and the port of the health check reclaimed *)
Definition cleanup (lib : GoLib) (os : OS) (args : startProcessArgs.t) (w : World)
    : World :=
  let w :=
    match GetProcess w (startProcessArgs.Name args) with
    | Some _ =>
        emit (KillProcess lib os (startProcessArgs.Name args) w).2 (EvSleep (1 * Second))
    | None => w
    end in
  (KillProcessByHealthCheckURL lib os (startProcessArgs.HealthCheckURL args) w).2.

(** the health check of the handler on the started child *)
Definition health_check (os : OS) (fuel : nat) (timeout : Duration)
    (processInfo : ProcessInfo) (w : World) : option (option string * Duration) :=
  if 0 <? HealthCheckPort processInfo
  then waitForPortReadyWithExitCheck timeout (readiness os (events w)) fuel
  else waitForHTTPReadyWithExitCheck timeout (readiness os (events w)) fuel.

(** The handler of start_process between acquireToolSemaphore and the
    deferred release; [None] when [fuel] iterations of the readiness
    loop are not enough. *)
Definition start_process (lib : GoLib) (os : OS) (fuel : nat)
    (args : startProcessArgs.t) (w : World) : option (CallToolResult * World) :=
  let timeout := effective_timeout (startProcessArgs.TimeoutSeconds args) in
  if Contains (startProcessArgs.Command args) " " then
    Some (text_result (command_shape_message (startProcessArgs.Command args)) true, w)
  else
    let w := cleanup lib os args w in
    match StartProcess lib os (startProcessArgs.Name args)
            (startProcessArgs.Command args) (startProcessArgs.Args args)
            (startProcessArgs.Env args) (startProcessArgs.WorkDir args)
            (startProcessArgs.HealthCheckURL args) w with
    | (inl err, w) => Some (text_result ("启动进程失败: " +:+ err) true, w)
    | (inr processInfo, w) =>
        match health_check os fuel timeout processInfo w with
        | None => None
        | Some (Some healthCheckErr, _) =>
            let w' := (KillProcess lib os (startProcessArgs.Name args) w).2 in
            Some (text_result
                    ("进程启动失败" +:+ nl +:+
                     "PID: " +:+ Itoa (Pid processInfo) +:+ nl +:+
                     "健康检查URL: " +:+ startProcessArgs.HealthCheckURL args +:+ nl +:+
                     "错误: " +:+ healthCheckErr +:+ nl +:+ nl +:+
                     "已收集日志:" +:+ nl +:+
                     LogBuffer (observe os (events w') processInfo)) true, w')
        | Some (None, _) =>
            Some (text_result
                    ("进程已成功启动" +:+ nl +:+
                     "PID: " +:+ Itoa (Pid processInfo) +:+ nl +:+
                     "启动时间: " +:+ Time_Format lib (StartTime processInfo) +:+ nl +:+
                     "工作目录: " +:+ CmdDir processInfo +:+ nl +:+
                     "健康检查: " +:+ startProcessArgs.HealthCheckURL args +:+ nl +:+ nl +:+
                     "启动日志:" +:+ nl +:+
                     LogBuffer (observe os (events w) processInfo)) false, w)
        end
    end.

(** whitespace as the specification has it: some byte of the command is
    a space, a tab, a newline or another blank *)
Definition has_whitespace (s : string) : bool :=
  existsb is_space (list_ascii_of_string s).

(** ** kill_process *)

Module killProcessArgs.
Record t := mk {
  Name : string;
  Port : Z
}.
End killProcessArgs.

(** The handler of kill_process between acquireToolSemaphore and the
    deferred release. *)
Definition kill_process (lib : GoLib) (os : OS) (args : killProcessArgs.t) (w : World)
    : CallToolResult * World :=
  if eqb_string (killProcessArgs.Name args) "" && (killProcessArgs.Port args =? 0) then
    (text_result "参数错误：必须提供 name 或 port 参数中的至少一个" true, w)
  else if negb (eqb_string (killProcessArgs.Name args) "") then
    match GetProcess w (killProcessArgs.Name args) with
    | Some info =>
        match KillProcess lib os (killProcessArgs.Name args) w with
        | (Some err, w) => (text_result ("终止进程失败: " +:+ err) true, w)
        | (None, w) =>
            (text_result ("成功终止进程" +:+ nl +:+
                          "进程名称: " +:+ killProcessArgs.Name args +:+ nl +:+
                          "PID: " +:+ Itoa (Pid info)) false, w)
        end
    | None =>
        (text_result ("未找到进程 '" +:+ killProcessArgs.Name args +:+ "'" +:+ nl +:+
                      "提示：本 mcp 未启动过此进程。如果该进程正在运行，请使用 port 参数来终止它。")
           true, w)
    end
  else if 0 <? killProcessArgs.Port args then
    match killProcessByPort lib os (killProcessArgs.Port args) w with
    | (Some err, w) =>
        (text_result ("终止端口 " +:+ Itoa (killProcessArgs.Port args) +:+
                      " 的进程失败: " +:+ err) true, w)
    | (None, w) =>
        (text_result ("成功终止占用端口 " +:+ Itoa (killProcessArgs.Port args) +:+
                      " 的进程") false, w)
    end
  else (text_result "未知错误" true, w).

(** ** save_memory and read_memory *)

(** What the system answers to the tools that keep files on the disk.
    The regular files of the disk are a map from paths to contents. *)
Record Disk := mkDisk {
  os_Executable : string + string;            (* os.Executable: the error or the path *)
  filepath_Dir : string -> string;
  MkdirAll_error : string -> option string;   (* the error of os.MkdirAll, [None] for nil *)
  WriteFile_error : string -> option string;  (* the error of os.WriteFile on a path *)
  failed_write : gmap string string -> string -> string -> gmap string string;
                                              (* the files after a write that failed *)
  ReadFile_error : string -> option string;   (* the error of os.ReadFile on a file that exists *)
  uuid_New : string;                          (* uuid.New().String() *)
  now_RFC3339 : string;                       (* time.Now().Format(time.RFC3339) *)
  later_RFC3339 : string;                     (* the same on a later call in the same handler *)
  Stat_exists : string -> bool;               (* whether os.Stat finds the directory *)
  ReadDir : string -> string + list (string * bool)
                                              (* os.ReadDir: the error, or the names in
                                                 order, each with IsDir *)
}.

(** os.WriteFile *)
Definition WriteFile (disk : Disk) (files : gmap string string) (path content : string)
    : option string * gmap string string :=
  match WriteFile_error disk path with
  | Some err => (Some err, failed_write disk files path content)
  | None => (None, <[path := content]> files)
  end.

Module saveMemoryArgs.
Record t := mk {
  SystemPrompt : string;
  Content : string;
  MemoryID : string
}.
End saveMemoryArgs.

Module readMemoryArgs.
Record t := mk {
  MemoryID : string
}.
End readMemoryArgs.

(** the text that save_memory writes: what comes before the system
    prompt, between the prompt and the content, and after the content *)
Definition memory_head (disk : Disk) (memoryID : string) (isUpdate : bool) : string :=
  "# 记忆文件" +:+ nl +:+ nl +:+
  "**记忆ID**: `" +:+ memoryID +:+ "`" +:+ nl +:+ nl +:+
  "**保存时间**: " +:+ now_RFC3339 disk +:+ nl +:+ nl +:+
  (if isUpdate then "**操作**: 更新现有记忆" +:+ nl +:+ nl
   else "**操作**: 创建新记忆" +:+ nl +:+ nl) +:+
  "---" +:+ nl +:+ nl +:+
  "## 系统提示词" +:+ nl +:+ nl +:+
  "```markdown" +:+ nl.

Definition memory_middle : string :=
  nl +:+ "```" +:+ nl +:+ nl +:+
  "---" +:+ nl +:+ nl +:+
  "## 任务记忆" +:+ nl +:+ nl.

Definition memory_foot (filePath : string) : string :=
  nl +:+ nl +:+ "---" +:+ nl +:+ nl +:+
  "**⚠️ 重要**: 如果上下文被截断，请读取此文件恢复状态: `" +:+ filePath +:+ "`" +:+ nl.

Definition memory_text (disk : Disk) (memoryID filePath : string) (isUpdate : bool)
    (args : saveMemoryArgs.t) : string :=
  memory_head disk memoryID isUpdate +:+
  saveMemoryArgs.SystemPrompt args +:+
  memory_middle +:+
  saveMemoryArgs.Content args +:+
  memory_foot filePath.

(** the ID under which save_memory saves, and the path of its file *)
Definition memory_id (disk : Disk) (args : saveMemoryArgs.t) : string :=
  if negb (eqb_string (saveMemoryArgs.MemoryID args) "")
  then saveMemoryArgs.MemoryID args
  else uuid_New disk.

Definition memory_path (lib : GoLib) (disk : Disk) (execPath memoryID : string) : string :=
  let execDir := filepath_Dir disk execPath in
  let memsDir := filepath_Join lib execDir "mems" in
  filepath_Join lib memsDir (memoryID +:+ ".md").

(** The handler of save_memory between acquireToolSemaphore and the
    deferred release. *)
Definition save_memory (lib : GoLib) (disk : Disk) (args : saveMemoryArgs.t)
    (files : gmap string string) : CallToolResult * gmap string string :=
  if eqb_string (saveMemoryArgs.SystemPrompt args) "" then
    (text_result "参数错误：system_prompt 不能为空，请提供你的完整系统提示词" true, files)
  else if eqb_string (saveMemoryArgs.Content args) "" then
    (text_result "参数错误：content 不能为空" true, files)
  else
    match os_Executable disk with
    | inl err => (text_result ("保存记忆失败: " +:+ err) true, files)
    | inr execPath =>
        let execDir := filepath_Dir disk execPath in
        let memsDir := filepath_Join lib execDir "mems" in
        match MkdirAll_error disk memsDir with
        | Some err => (text_result ("保存记忆失败: " +:+ err) true, files)
        | None =>
            let isUpdate := negb (eqb_string (saveMemoryArgs.MemoryID args) "") in
            let memoryID :=
              if isUpdate then saveMemoryArgs.MemoryID args else uuid_New disk in
            let filePath := filepath_Join lib memsDir (memoryID +:+ ".md") in
            let content := memory_text disk memoryID filePath isUpdate args in
            match WriteFile disk files filePath content with
            | (Some err, files) => (text_result ("保存记忆失败: " +:+ err) true, files)
            | (None, files) =>
                let actionText := if isUpdate then "✅ 记忆已更新" else "✅ 记忆已保存" in
                (text_result
                   (actionText +:+ nl +:+ nl +:+
                    "**记忆ID**: `" +:+ memoryID +:+ "`" +:+ nl +:+
                    "**文件路径**: `" +:+ filePath +:+ "`" +:+ nl +:+
                    "**记忆内容长度**: " +:+
                    Itoa (Z.of_nat (String.length (saveMemoryArgs.Content args))) +:+
                    " 字符" +:+ nl +:+
                    "**系统提示词长度**: " +:+
                    Itoa (Z.of_nat (String.length (saveMemoryArgs.SystemPrompt args))) +:+
                    " 字符" +:+ nl +:+ nl +:+
                    "⚠️ **请记住此记忆ID**，如果上下文被截断，使用 Read 工具读取此文件即可恢复完整状态。" +:+
                    nl +:+ nl +:+
                    "💡 **提示**: Agent可以在后续调用中传入此memory_id来更新记忆。")
                   false, files)
            end
        end
    end.

(** The handler of read_memory between acquireToolSemaphore and the
    deferred release; it writes nothing. *)
Definition read_memory (lib : GoLib) (disk : Disk) (args : readMemoryArgs.t)
    (files : gmap string string) : CallToolResult :=
  if eqb_string (readMemoryArgs.MemoryID args) "" then
    text_result "参数错误：必须提供memory_id参数" true
  else
    let memoryID := readMemoryArgs.MemoryID args in
    match os_Executable disk with
    | inl err => text_result ("读取记忆失败: " +:+ err) true
    | inr execPath =>
        let execDir := filepath_Dir disk execPath in
        let memsDir := filepath_Join lib execDir "mems" in
        let filePath := filepath_Join lib memsDir (memoryID +:+ ".md") in
        match files !! filePath with
        | None => text_result ("记忆文件不存在: " +:+ filePath) true
        | Some content =>
            match ReadFile_error disk filePath with
            | Some err => text_result ("读取记忆失败: " +:+ err) true
            | None =>
                text_result
                  ("✅ 记忆读取成功" +:+ nl +:+ nl +:+
                   "**记忆ID**: `" +:+ memoryID +:+ "`" +:+ nl +:+
                   "**文件路径**: `" +:+ filePath +:+ "`" +:+ nl +:+
                   "**文件大小**: " +:+ Itoa (Z.of_nat (String.length content)) +:+
                   " 字符" +:+ nl +:+ nl +:+ "---" +:+ nl +:+ nl +:+ content)
                  false
            end
        end
    end.

(** ** save_knowledge and search_knowledge *)

(** strings.Index; [None] is -1 *)
Definition Index (s substr : string) : option nat := String.index 0 substr s.

(** strings.TrimPrefix *)
Definition TrimPrefix (s prefix : string) : string :=
  if HasPrefix s prefix then slice_from s (String.length prefix) else s.

(** The idiom by which both handlers read a field of a knowledge file:
    the bytes between the first [marker] and the first [stop] after it,
    [None] when one of them is missing. *)
Definition between (contentStr marker stop : string) : option string :=
  match Index contentStr marker with
  | Some idx =>
      let start := (idx + String.length marker)%nat in
      match Index (slice_from contentStr start) stop with
      | Some end_ => Some (String.substring start end_ contentStr)
      | None => None
      end
  | None => None
  end.

Module saveKnowledgeArgs.
Record t := mk {
  Title : string;
  Content : string;
  Tags : list string;
  Category : string;
  KnowledgeID : string;
  WorkDir : string
}.
End saveKnowledgeArgs.

Module searchKnowledgeArgs.
Record t := mk {
  Query : string;
  Tags : list string;
  Category : string;
  Limit : Z;
  WorkDir : string
}.
End searchKnowledgeArgs.

(** the text that save_knowledge writes; [updated] is the time of the
    update, when it is one *)
Definition knowledge_text (title knowledgeID createdTime : string)
    (updated : option string) (category tagsStr content : string) : string :=
  "# " +:+ title +:+ nl +:+ nl +:+
  "**知识ID**: `" +:+ knowledgeID +:+ "`" +:+ nl +:+ nl +:+
  "**创建时间**: " +:+ createdTime +:+ nl +:+ nl +:+
  match updated with
  | Some t => "**更新时间**: " +:+ t +:+ nl +:+ nl
  | None => ""
  end +:+
  "**分类**: " +:+ category +:+ nl +:+ nl +:+
  (if negb (eqb_string tagsStr "") then "**标签**: " +:+ tagsStr +:+ nl +:+ nl else "") +:+
  "---" +:+ nl +:+ nl +:+
  "## 内容" +:+ nl +:+ nl +:+
  content +:+ nl.

(** the creation time that an update reads from the old file *)
Definition old_createdTime (disk : Disk) (filePath oldContent : string) : string :=
  match ReadFile_error disk filePath with
  | Some _ => ""
  | None =>
      match between oldContent "**创建时间**: " nl with
      | Some t => TrimSpace t
      | None => ""
      end
  end.

(** The handler of save_knowledge between acquireToolSemaphore and the
    deferred release. *)
Definition save_knowledge (lib : GoLib) (disk : Disk) (args : saveKnowledgeArgs.t)
    (files : gmap string string) : CallToolResult * gmap string string :=
  if eqb_string (saveKnowledgeArgs.Title args) "" then
    (text_result "参数错误：title 不能为空" true, files)
  else if eqb_string (saveKnowledgeArgs.Content args) "" then
    (text_result "参数错误：content 不能为空" true, files)
  else if eqb_string (saveKnowledgeArgs.WorkDir args) "" then
    (text_result "参数错误：work_dir 不能为空，请提供工作目录路径" true, files)
  else
    let knowledgeDir := filepath_Join lib (saveKnowledgeArgs.WorkDir args) ".knowledge" in
    match MkdirAll_error disk knowledgeDir with
    | Some err => (text_result ("保存知识失败: " +:+ err) true, files)
    | None =>
        let isUpdate := negb (eqb_string (saveKnowledgeArgs.KnowledgeID args) "") in
        let knowledgeID :=
          if isUpdate then saveKnowledgeArgs.KnowledgeID args else uuid_New disk in
        let filePath := filepath_Join lib knowledgeDir (knowledgeID +:+ ".md") in
        match (if isUpdate then files !! filePath else Some "") with
        | None =>
            (text_result ("知识不存在: " +:+ knowledgeID +:+
                          "，请检查 knowledge_id 是否正确") true, files)
        | Some oldContent =>
            let createdTime :=
              if isUpdate then
                let createdTime := old_createdTime disk filePath oldContent in
                if eqb_string createdTime "" then now_RFC3339 disk else createdTime
              else now_RFC3339 disk in
            let category :=
              if eqb_string (saveKnowledgeArgs.Category args) "" then "通用"
              else saveKnowledgeArgs.Category args in
            let tagsStr :=
              match saveKnowledgeArgs.Tags args with
              | [] => ""
              | _ => Join (saveKnowledgeArgs.Tags args) ", "
              end in
            let content :=
              knowledge_text (saveKnowledgeArgs.Title args) knowledgeID createdTime
                (if isUpdate then Some (later_RFC3339 disk) else None)
                category tagsStr (saveKnowledgeArgs.Content args) in
            match WriteFile disk files filePath content with
            | (Some err, files) => (text_result ("保存知识失败: " +:+ err) true, files)
            | (None, files) =>
                let actionText := if isUpdate then "✅ 知识已更新" else "✅ 知识已保存" in
                (text_result
                   (actionText +:+ nl +:+ nl +:+
                    "**知识ID**: `" +:+ knowledgeID +:+ "`" +:+ nl +:+
                    "**标题**: " +:+ saveKnowledgeArgs.Title args +:+ nl +:+
                    "**分类**: " +:+ category +:+ nl +:+
                    "**标签**: " +:+ tagsStr +:+ nl +:+
                    "**文件路径**: `" +:+ filePath +:+ "`" +:+ nl +:+ nl +:+
                    "💡 使用 `search_knowledge` 工具可以检索知识库。如需更新此知识，请在下次调用时传入 knowledge_id。")
                   false, files)
            end
        end
    end.

(** KnowledgeItem *)
Record KnowledgeItem := mkKnowledgeItem {
  item_ID : string;
  item_Title : string;
  item_Category : string;
  item_Tags : string;
  item_FilePath : string;
  item_Preview : string
}.

(** what search_knowledge reads from one knowledge file *)
Definition parse_item (filePath contentStr : string) : KnowledgeItem :=
  let title :=
    match Index contentStr nl with
    | Some (S idx') => TrimSpace (TrimPrefix (slice_to contentStr (S idx')) "# ")
    | _ => ""
    end in
  let knowledgeID :=
    match between contentStr "**知识ID**: `" "`" with
    | Some x => x
    | None => ""
    end in
  let category :=
    match between contentStr "**分类**: " nl with
    | Some x => TrimSpace x
    | None => ""
    end in
  let tags :=
    match between contentStr "**标签**: " nl with
    | Some x => TrimSpace x
    | None => ""
    end in
  let preview :=
    match Index contentStr ("## 内容" +:+ nl +:+ nl) with
    | Some idx =>
        let previewContent :=
          slice_from contentStr (idx + String.length ("## 内容" +:+ nl +:+ nl)) in
        if (200 <? String.length previewContent)%nat
        then slice_to previewContent 200 +:+ "..."
        else previewContent
    | None => ""
    end in
  {| item_ID := knowledgeID; item_Title := title; item_Category := category;
     item_Tags := tags; item_FilePath := filePath; item_Preview := preview |}.

(** the filters of search_knowledge on one knowledge file *)
Definition item_matches (lib : GoLib) (args : searchKnowledgeArgs.t)
    (contentStr : string) (item : KnowledgeItem) : bool :=
  let queryLower := ToLower lib (searchKnowledgeArgs.Query args) in
  let categoryLower := ToLower lib (searchKnowledgeArgs.Category args) in
  let tagsLower := map (ToLower lib) (searchKnowledgeArgs.Tags args) in
  let match_ :=
    if negb (eqb_string queryLower "")
    then Contains (ToLower lib contentStr) queryLower
    else true in
  let match_ :=
    if negb (eqb_string categoryLower "") && match_
    then Contains (ToLower lib (item_Category item)) categoryLower
    else match_ in
  let match_ :=
    if negb (Nat.eqb (length tagsLower) 0) && match_
    then existsb (Contains (ToLower lib (item_Tags item))) tagsLower
    else match_ in
  match_.

(** the loop of search_knowledge over the entries of the directory *)
Fixpoint search_loop (lib : GoLib) (disk : Disk) (files : gmap string string)
    (args : searchKnowledgeArgs.t) (knowledgeDir : string) (limit : Z)
    (entries : list (string * bool)) (results : list KnowledgeItem)
    : list KnowledgeItem :=
  match entries with
  | [] => results
  | (name, isDir) :: rest =>
      if isDir || negb (HasSuffix name ".md")
      then search_loop lib disk files args knowledgeDir limit rest results
      else
        let filePath := filepath_Join lib knowledgeDir name in
        match files !! filePath, ReadFile_error disk filePath with
        | Some contentStr, None =>
            let item := parse_item filePath contentStr in
            let results :=
              if item_matches lib args contentStr item then results ++ [item] else results in
            if limit <=? Z.of_nat (length results) then results
            else search_loop lib disk files args knowledgeDir limit rest results
        | _, _ => search_loop lib disk files args knowledgeDir limit rest results
        end
  end.

(** the text of one result, [i] counting from 0 *)
Definition item_text (i : nat) (item : KnowledgeItem) : string :=
  "### " +:+ Itoa (Z.of_nat i + 1) +:+ ". " +:+ item_Title item +:+ nl +:+ nl +:+
  "- **知识ID**: `" +:+ item_ID item +:+ "`" +:+ nl +:+
  "- **分类**: " +:+ item_Category item +:+ nl +:+
  (if negb (eqb_string (item_Tags item) "")
   then "- **标签**: " +:+ item_Tags item +:+ nl else "") +:+
  "- **文件**: `" +:+ item_FilePath item +:+ "`" +:+ nl +:+
  nl +:+ "**预览**:" +:+ nl +:+ item_Preview item +:+ nl +:+ nl +:+
  "---" +:+ nl +:+ nl.

(** the results of a search that reads the directory, and the limit in
    force *)
Definition search_limit (args : searchKnowledgeArgs.t) : Z :=
  if searchKnowledgeArgs.Limit args <=? 0 then 10 else searchKnowledgeArgs.Limit args.

Definition search_results (lib : GoLib) (disk : Disk) (files : gmap string string)
    (args : searchKnowledgeArgs.t) (entries : list (string * bool)) : list KnowledgeItem :=
  search_loop lib disk files args
    (filepath_Join lib (searchKnowledgeArgs.WorkDir args) ".knowledge")
    (search_limit args) entries [].

(** The handler of search_knowledge between acquireToolSemaphore and
    the deferred release; it writes nothing. *)
Definition search_knowledge (lib : GoLib) (disk : Disk) (args : searchKnowledgeArgs.t)
    (files : gmap string string) : CallToolResult :=
  if eqb_string (searchKnowledgeArgs.WorkDir args) "" then
    text_result "参数错误：work_dir 不能为空，请提供工作目录路径" true
  else
    let knowledgeDir := filepath_Join lib (searchKnowledgeArgs.WorkDir args) ".knowledge" in
    if negb (Stat_exists disk knowledgeDir) then
      text_result "知识库为空，尚未保存任何知识。使用 `save_knowledge` 工具添加知识。" false
    else
      match ReadDir disk knowledgeDir with
      | inl err => text_result ("检索知识库失败: " +:+ err) true
      | inr [] =>
          text_result "知识库为空，尚未保存任何知识。使用 `save_knowledge` 工具添加知识。" false
      | inr entries =>
          let results := search_results lib disk files args entries in
          match results with
          | [] => text_result "未找到匹配的知识条目。" false
          | _ =>
              text_result
                ("✅ 找到 " +:+ Itoa (Z.of_nat (length results)) +:+ " 条知识" +:+ nl +:+ nl +:+
                 String.concat "" (imap item_text results) +:+
                 "💡 使用文件读取工具可以查看完整知识内容。")
                false
          end
      end.

(** the files of the directory that a search without limit would
    return: the readable files named *.md that pass the filters *)
Definition candidates (lib : GoLib) (disk : Disk) (files : gmap string string)
    (args : searchKnowledgeArgs.t) (knowledgeDir : string)
    (entries : list (string * bool)) : list KnowledgeItem :=
  omap (fun entry : string * bool =>
          if entry.2 || negb (HasSuffix entry.1 ".md") then None
          else
            let filePath := filepath_Join lib knowledgeDir entry.1 in
            match files !! filePath, ReadFile_error disk filePath with
            | Some contentStr, None =>
                let item := parse_item filePath contentStr in
                if item_matches lib args contentStr item then Some item else None
            | _, _ => None
            end) entries.

(** whether the byte [c] occurs in [s] *)
Definition has_byte (c : ascii) (s : string) : bool :=
  existsb (Ascii.eqb c) (list_ascii_of_string s).

(** the instructions that the tool calls in flight have still to run *)
Definition instructions_left (s : ToolSemaphore.State) : nat :=
  foldr (fun (c : ToolSemaphore.Tool * list ToolSemaphore.Instr) n => (length c.2 + n)%nat)
    O (ToolSemaphore.calls s).

(** the events that a call has added to the trace *)
Definition added (before after : World) : list Event :=
  drop (length (events before)) (events after).

(** *** Vocabulary for the properties of killing and starting *)

(** the command that killProcessByPort runs on one PID *)
Definition kill_command (lib : GoLib) (os : OS) (pid : Z) : Event :=
  if is_windows lib os then EvExec "taskkill" ["/F"; "/PID"; Itoa pid]
  else EvExec "kill" ["-9"; Itoa pid].

(** an event that ends a process: a signal or a kill command *)
Definition is_kill (e : Event) : bool :=
  match e with
  | EvProcessKill _ => true
  | EvExec name _ => eqb_string name "taskkill" || eqb_string name "kill"
  | _ => false
  end.

(** whether cmd.StdoutPipe and cmd.StderrPipe both succeed on the trace
    [evs] *)
Definition pipes_created (os : OS) (evs : list Event) : bool :=
  match StdoutPipe_error os evs, StderrPipe_error os evs with
  | None, None => true
  | _, _ => false
  end.

(** an event that starts a child or sends a request *)
Definition is_start_or_request (e : Event) : bool :=
  match e with
  | EvStart _ _ _ _ => true
  | EvHTTP _ _ _ _ => true
  | _ => false
  end.

(** *** Vocabulary for the association and the request *)






(** ** A small library and operating system to run the model on *)

Module Demo.

(** [s] up to the first byte that satisfies [p], and the rest *)
Fixpoint cut (p : ascii -> bool) (s : string) : string * string :=
  match s with
  | EmptyString => (EmptyString, EmptyString)
  | String c s' =>
      if p c then (EmptyString, s)
      else let '(a, b) := cut p s' in (String c a, b)
  end.

Definition is_one_of (cs : string) (c : ascii) : bool :=
  existsb (Ascii.eqb c) (list_ascii_of_string cs).

Definition tail (s : string) : string :=
  match s with
  | EmptyString => EmptyString
  | String _ s' => s'
  end.

(** url.Parse on URLs of the form scheme://host/path?query#fragment and
    on bare paths, without userinfo and without escapes *)
Definition Parse (s : string) : string + url.URL :=
  let '(scheme, rest) :=
    match String.index 0 "://" s with
    | Some i => (map_string lower_ascii (slice_to s i), slice_from s (i + 3))
    | None => (EmptyString, s)
    end in
  let '(host, rest) :=
    if eqb_string scheme "" then (EmptyString, rest)
    else cut (is_one_of "/?#") rest in
  let '(path, rest) := cut (is_one_of "?#") rest in
  let '(query, rest) :=
    if HasPrefix rest "?" then cut (is_one_of "#") (tail rest)
    else (EmptyString, rest) in
  let fragment := tail rest in
  inr (url.mkURL scheme "" None host path "" false false query fragment "").

(** the String method on the URLs that [Parse] produces *)
Definition String (u : url.URL) : string :=
  (if eqb_string (url.Scheme u) "" then "" else url.Scheme u +:+ "://") +:+
  url.Host u +:+ url.Path u +:+
  (if eqb_string (url.RawQuery u) "" then "" else "?" +:+ url.RawQuery u) +:+
  (if eqb_string (url.Fragment u) "" then "" else "#" +:+ url.Fragment u).

Definition SplitHostPort (hostport : string) : option (string * string) :=
  let '(host, port) := url.splitHostPort hostport in
  if eqb_string port "" then None else Some (host, port).

Definition lib : GoLib :=
  {| url_Parse := Parse;
     URL_String := String;
     net_SplitHostPort := SplitHostPort;
     http_NewRequest := fun _ _ => None;
     filepath_IsAbs := fun p => HasPrefix p "/";
     filepath_Join := fun a b => a +:+ "/" +:+ b;
     Duration_String := fun d => Itoa (Z.quot d 1000000) +:+ "ms";
     Time_Format := Itoa;
     unicode_ToLower := map_string lower_ascii;
     unicode_ToUpper := map_string upper_ascii |}.

(** the output of netstat -ano and of netstat -tulnp with one listener
    on port 8081 *)
Definition netstat_ano : string :=
  "  Proto  Local Address          Foreign Address        State           PID" +:+ nl +:+
  "  TCP    0.0.0.0:8081           0.0.0.0:0              LISTENING       5150" +:+ nl +:+
  "  TCP    127.0.0.1:8081         127.0.0.1:50112        ESTABLISHED     5150" +:+ nl.

Definition netstat_tulnp : string :=
  "Proto Recv-Q Send-Q Local Address   Foreign Address  State   PID/Program name" +:+ nl +:+
  "tcp        0      0 0.0.0.0:8081    0.0.0.0:*        LISTEN  5150/app" +:+ nl +:+
  "tcp6       0      0 :::8081         :::*             LISTEN  5150/app" +:+ nl.

(** An operating system on which every command but [go] and [sleep] is
    missing, the first select of a readiness wait is reached at once,
    the child does not exit and the probes fail.  [os_env] is the value
    of the environment variable OS, [http] the outcome of every HTTP
    request; when [listening], connections are accepted, netstat shows
    a listener on port 8081 and the external commands succeed, else
    nothing listens and the external commands fail. *)
Definition os (os_env : string) (http : HTTPOutcome) (listening : bool) : OS :=
  {| Getenv := fun key => if eqb_string key "OS" then os_env else "";
     Getwd := "/home/dev";
     dial_ok := fun _ _ => listening;
     run_command := fun _ name args =>
       if listening then
         if eqb_string name "netstat" then
           match args with
           | ["-ano"] => Some netstat_ano
           | _ => Some netstat_tulnp
           end
         else Some ""
       else None;
     StdoutPipe_error := fun _ => None;
     StderrPipe_error := fun _ => None;
     start_command := fun _ command _ _ =>
       if eqb_string command "go" || eqb_string command "sleep" then inr 4243
       else inl ("exec: " +:+ command +:+ ": executable file not found in $PATH");
     time_Now := fun evs => 100 * Second + Z.of_nat (length evs) * Millisecond;
     http_Do := fun _ _ _ _ _ => (http, 3 * Millisecond);
     response_log_path := fun _ => "/opt/mcp/logs/response_20261031_101500_123.log";
     readiness := fun _ =>
       {| first_select := 0; exit_at := None;
          probe_ok := fun _ => false; probe_time := fun _ => Millisecond;
          choice := fun _ => O; ctx_cancelled := None |};
     observe := fun _ info => info |}.

Fixpoint repeat_string (n : nat) (s : string) : string :=
  match n with
  | O => EmptyString
  | S n' => s +:+ repeat_string n' s
  end.

(** [o] with a service that is ready at the third probe, each probe
    taking 20 ms, and a child that does not exit *)
Definition ready_at_third : WaitEnv :=
  {| first_select := 0; exit_at := None;
     probe_ok := fun k => (2 <=? k)%nat; probe_time := fun _ => 20 * Millisecond;
     choice := fun _ => O; ctx_cancelled := None |}.

(** a child whose exit has been delivered before the first select is
    reached, 1 ms after the wait begins, and a select that takes the
    second of its ready cases *)
Definition exited_first : WaitEnv :=
  {| first_select := 1 * Millisecond; exit_at := Some (0, Some "exit status 1");
     probe_ok := fun _ => false; probe_time := fun _ => Millisecond;
     choice := fun _ => 1%nat; ctx_cancelled := None |}.

(** a first select that is reached after the first tick, a service that
    answers the first probe, and a select that takes the second of its
    ready cases *)
Definition late_select : WaitEnv :=
  {| first_select := 600 * Millisecond; exit_at := None;
     probe_ok := fun _ => true; probe_time := fun _ => Millisecond;
     choice := fun _ => 1%nat; ctx_cancelled := None |}.

Definition with_readiness (o : OS) (env : WaitEnv) : OS :=
  {| Getenv := Getenv o;
     Getwd := Getwd o;
     dial_ok := dial_ok o;
     run_command := run_command o;
     StdoutPipe_error := StdoutPipe_error o;
     StderrPipe_error := StderrPipe_error o;
     start_command := start_command o;
     time_Now := time_Now o;
     http_Do := http_Do o;
     response_log_path := response_log_path o;
     readiness := fun _ => env;
     observe := observe o |}.

(** a disk on which everything succeeds *)
Definition disk : Disk :=
  {| os_Executable := inr "/opt/mcp/autodebug";
     filepath_Dir := fun p =>
       match LastIndexByte p "/" with
       | Some i => slice_to p i
       | None => "."
       end;
     MkdirAll_error := fun _ => None;
     WriteFile_error := fun _ => None;
     failed_write := fun files _ _ => files;
     ReadFile_error := fun _ => None;
     uuid_New := "3f2b6c1e-8a1d-4e57-9c0a-5d1f2e7b9a10";
     now_RFC3339 := "2026-10-31T10:15:00+08:00";
     later_RFC3339 := "2026-10-31T10:15:01+08:00";
     Stat_exists := fun _ => true;
     ReadDir := fun _ => inr [("3f2b6c1e-8a1d-4e57-9c0a-5d1f2e7b9a10.md", false)] |}.

End Demo.

(** a child as StartProcess registers it, and a few lines it wrote *)
Definition demo_child : ProcessInfo :=
  newProcessInfo "svc" 4242 "/srv/app" (90 * Second)
    "http://localhost:8081/health" 8081.

Definition demo_writes : list (string * Time) :=
  [("listening on :8081", 91 * Second);
   ("GET /ping", 99 * Second + 500 * Millisecond);
   ("200 OK", 100 * Second + 200 * Millisecond)].

(** the ring of [demo_child] with three slots written whose timestamps
    are not in the order of the writes: the second is fifty seconds
    behind the first *)
Definition skewed_child : ProcessInfo :=
  default demo_child
    (processLogs demo_child
       [("hidden", 100 * Second);
        ("stale", 50 * Second);
        ("200 OK", 100 * Second + 200 * Millisecond)]).

(** the registry after start_process has registered [demo_child] *)
Definition demo_world : World :=
  {| processes := [("svc", demo_child)]; events := [] |}.




(** the child after it has written forty-five lines of ninety bytes
    within the last second *)
Definition busy_child : ProcessInfo :=
  default demo_child
    (processLogs demo_child
       (map (fun i : nat => (Demo.repeat_string 90 "x", 100 * Second + Z.of_nat i))
            (seq 0 45))).

Definition busy_world : World :=
  {| processes := [("svc", busy_child)]; events := [] |}.

(** * Properties *)

(** ** The log ring *)

Section Ring.

Implicit Types (pi : ProcessInfo) (es : list (string * Time)).

Lemma index_Some {A} (l : list A) (i : Z) (x : A) :
  0 <= i -> l !! Z.to_nat i = Some x -> index l i = Some x.
Proof.
  intros Hi Hl. unfold index.
  destruct (0 <=? i) eqn:E; [exact Hl | apply Z.leb_gt in E; lia].
Qed.

Lemma length_entries pi :
  RingOK pi -> length (entries pi) = Z.to_nat (maxLogLines pi).
Proof.
  intros (Hl & Ht & _). unfold entries.
  rewrite length_zip_with. lia.
Qed.

Lemma length_chron pi :
  RingOK pi -> length (chron pi) = Z.to_nat (maxLogLines pi).
Proof.
  intros H. pose proof (length_entries pi H) as HE.
  destruct H as (_ & _ & Hi).
  unfold chron. rewrite length_app, length_drop, length_take. lia.
Qed.

Lemma chron_lookup pi (j : nat) :
  RingOK pi -> (j < Z.to_nat (maxLogLines pi))%nat ->
  chron pi !! j =
  entries pi !! Z.to_nat (Z.rem (logIndex pi + Z.of_nat j) (maxLogLines pi)).
Proof.
  intros H Hj. pose proof (length_entries pi H) as HE.
  destruct H as (_ & _ & Hi).
  unfold chron.
  rewrite Z.rem_mod_nonneg by lia.
  destruct (decide (Z.to_nat (logIndex pi) + j < Z.to_nat (maxLogLines pi))%nat) as [Hlt|Hge].
  - rewrite lookup_app_l by (rewrite length_drop; lia).
    rewrite lookup_drop. f_equal.
    rewrite Z.mod_small by lia. lia.
  - rewrite lookup_app_r by (rewrite length_drop; lia).
    rewrite length_drop.
    rewrite lookup_take_lt by lia. f_equal.
    replace (logIndex pi + Z.of_nat j)
      with ((logIndex pi + Z.of_nat j - maxLogLines pi) + 1 * maxLogLines pi) by lia.
    rewrite Z.mod_add by lia.
    rewrite Z.mod_small by lia. lia.
Qed.

(** the slot read at iteration [i] is the [i]-th element of the scan order *)
Lemma scan_order_lookup pi (i : Z) :
  RingOK pi -> 0 <= i < maxLogLines pi ->
  scan_order pi !! Z.to_nat i =
  entries pi !!
    Z.to_nat (Z.rem (logIndex pi - 1 - i + maxLogLines pi) (maxLogLines pi)).
Proof.
  intros H Hi. pose proof (length_chron pi H) as HC.
  unfold scan_order. rewrite reverse_lookup by lia.
  rewrite chron_lookup by (auto; lia).
  do 2 f_equal. f_equal. lia.
Qed.

Lemma entries_lookup pi (k : nat) line t :
  entries pi !! k = Some (line, t) ->
  logLines pi !! k = Some line /\ logTimes pi !! k = Some t.
Proof.
  unfold entries. intros H. apply lookup_zip_with_Some in H.
  destruct H as (x & y & Heq & Hx & Hy). inversion Heq; subst. auto.
Qed.

Lemma GetRequestLog_loop_scan pi startTime endTime :
  RingOK pi ->
  forall (n : nat) (i : Z) (logs : list string),
    0 <= i -> i + Z.of_nat n = maxLogLines pi ->
    GetRequestLog_loop pi startTime endTime n i logs =
    Some (scan_entries startTime endTime (drop (Z.to_nat i) (scan_order pi)) logs).
Proof.
  intros H. pose proof (length_chron pi H) as HC.
  assert (HS : length (scan_order pi) = Z.to_nat (maxLogLines pi))
    by (unfold scan_order; rewrite length_reverse; exact HC).
  induction n as [|n IH]; intros i logs Hi Hn.
  - simpl. rewrite drop_ge by lia. reflexivity.
  - assert (Hlt : (Z.to_nat i < length (scan_order pi))%nat) by lia.
    destruct (lookup_lt_is_Some_2 _ _ Hlt) as [[line t] He].
    rewrite (drop_S _ _ _ He).
    pose proof He as He'.
    rewrite scan_order_lookup in He' by (auto; lia).
    destruct (entries_lookup _ _ _ _ He') as [Hline Htime].
    assert (Hidx : 0 <= Z.rem (logIndex pi - 1 - i + maxLogLines pi) (maxLogLines pi)).
    { destruct H as (_ & _ & Hk). apply Z.rem_nonneg; lia. }
    cbn [GetRequestLog_loop scan_entries].
    rewrite (index_Some _ _ _ Hidx Htime).
    rewrite (index_Some _ _ _ Hidx Hline).
    replace (S (Z.to_nat i)) with (Z.to_nat (i + 1)) by lia.
    destruct (IsZero t); [apply IH; lia|].
    destruct (After t (Add startTime (-1 * Second)) && Before t endTime);
      destruct (Before t (Add startTime (-2 * Second))); try reflexivity;
      apply IH; lia.
Qed.

Lemma GetRequestLog_lines_scan pi startTime now :
  RingOK pi ->
  GetRequestLog_lines pi startTime now =
  Some (scan_entries startTime (Add now (500 * Millisecond)) (scan_order pi) []).
Proof.
  intros H. unfold GetRequestLog_lines.
  rewrite (GetRequestLog_loop_scan pi _ _ H) by (destruct H as (_ & _ & ?); lia).
  reflexivity.
Qed.

(** *** Writes *)

(** overwriting the oldest slot of a ring and advancing the index
    drops the oldest entry and appends the new one *)
Lemma rotate_insert {A} (E : list A) (k : nat) (old new : A) :
  E !! k = Some old ->
  let k' := if decide (S k < length E)%nat then S k else O in
  drop k' (<[k:=new]> E) ++ take k' (<[k:=new]> E) =
  drop 1 (drop k E ++ take k E) ++ [new].
Proof.
  intros He. pose proof (lookup_lt_Some _ _ _ He) as Hk.
  rewrite (insert_take_drop _ _ _ Hk).
  rewrite (drop_S _ _ _ He). simpl. rewrite drop_0.
  assert (Hlen : length (take k E) = k) by (rewrite length_take; lia).
  destruct (decide (S k < length E)%nat) as [Hlt|Hge].
  - rewrite drop_app_ge by lia. rewrite take_app_ge by lia.
    rewrite Hlen. replace (S k - k)%nat with 1%nat by lia.
    simpl. rewrite drop_0, take_0, <- app_assoc. reflexivity.
  - simpl. rewrite drop_0, app_nil_r.
    rewrite (drop_ge E (S k)) by lia. reflexivity.
Qed.

Lemma processLogs_step_chron pi line now :
  RingOK pi ->
  exists pi',
    processLogs_step pi line now = Some pi' /\
    RingOK pi' /\
    maxLogLines pi' = maxLogLines pi /\
    chron pi' = drop 1 (chron pi) ++ [(line, now)].
Proof.
  intros H. pose proof (length_entries pi H) as HE.
  destruct H as (Hl & Ht & Hi).
  set (k := Z.to_nat (logIndex pi)).
  assert (Hk : (k < length (entries pi))%nat) by (subst k; lia).
  destruct (lookup_lt_is_Some_2 _ _ Hk) as [[l0 t0] He].
  destruct (entries_lookup _ _ _ _ He) as [Hline Htime].
  unfold processLogs_step.
  rewrite (index_Some _ _ _ (proj1 Hi) Hline).
  rewrite (index_Some _ _ _ (proj1 Hi) Htime).
  destruct (maxLogLines pi =? 0) eqn:Hz; [apply Z.eqb_eq in Hz; lia|].
  eexists; split; [reflexivity|].
  assert (Hrem : 0 <= Z.rem (logIndex pi + 1) (maxLogLines pi) < maxLogLines pi).
  { rewrite Z.rem_mod_nonneg by lia. apply Z.mod_pos_bound. lia. }
  split; [|split; [reflexivity|]].
  - unfold RingOK, set_ring; simpl. rewrite !length_insert. auto.
  - unfold chron, entries, set_ring; simpl. fold k.
    rewrite <- (insert_zip_with (@pair string Time) (logLines pi) (logTimes pi) k line now).
    change (zip (logLines pi) (logTimes pi)) with (entries pi).
    rewrite <- (rotate_insert _ _ _ (line, now) He).
    assert (Hk' : Z.to_nat (Z.rem (logIndex pi + 1) (maxLogLines pi)) =
                  if decide (S k < length (entries pi))%nat then S k else O).
    { rewrite Z.rem_mod_nonneg by lia.
      destruct (decide (S k < length (entries pi))%nat) as [Hlt|Hge].
      - rewrite Z.mod_small by lia. lia.
      - replace (logIndex pi + 1) with (maxLogLines pi) by lia.
        rewrite Z.mod_same by lia. reflexivity. }
    rewrite Hk'. reflexivity.
Qed.

Lemma processLogs_chron ws :
  forall pi, RingOK pi ->
  exists pi',
    processLogs pi ws = Some pi' /\
    RingOK pi' /\
    maxLogLines pi' = maxLogLines pi /\
    chron pi' = drop (length ws) (chron pi ++ ws).
Proof.
  induction ws as [|[line now] ws IH]; intros pi H.
  - exists pi. simpl. rewrite app_nil_r. auto.
  - destruct (processLogs_step_chron pi line now H) as (pi1 & Hs & H1 & Hm1 & Hc1).
    destruct (IH pi1 H1) as (pi' & Hp & H' & Hm' & Hc').
    exists pi'. simpl. rewrite Hs. split; [exact Hp|].
    split; [exact H'|]. split; [congruence|].
    rewrite Hc', Hc1.
    pose proof (length_chron pi H) as HC.
    destruct H as (_ & _ & Hi).
    destruct (chron pi) as [|e c] eqn:Ec; [simpl in HC; lia|].
    simpl. rewrite drop_0. rewrite <- app_assoc. reflexivity.
Qed.

(** *** The scan *)

Lemma scan_entries_app_logs startTime endTime es :
  forall logs,
    scan_entries startTime endTime es logs =
    scan_entries startTime endTime es [] ++ logs.
Proof.
  induction es as [|[line t] es IH]; intros logs; simpl; [reflexivity|].
  destruct (IsZero t); [apply IH|].
  destruct (After t (Add startTime (-1 * Second)) && Before t endTime);
    destruct (Before t (Add startTime (-2 * Second))); try reflexivity.
  - rewrite (IH (line :: logs)), (IH [line]), <- app_assoc. reflexivity.
  - apply IH.
Qed.

Lemma scan_entries_length startTime endTime es :
  forall logs,
    (length (scan_entries startTime endTime es logs) <= length es + length logs)%nat.
Proof.
  induction es as [|[line t] es IH]; intros logs; simpl; [lia|].
  destruct (IsZero t); [specialize (IH logs); lia|].
  destruct (After t (Add startTime (-1 * Second)) && Before t endTime);
    destruct (Before t (Add startTime (-2 * Second))); simpl; try lia.
  - specialize (IH (line :: logs)); simpl in IH; lia.
  - specialize (IH logs); lia.
Qed.

(** every returned line sits in a slot that has been written, and the
    lines come out in the order of the slots, oldest first *)
Lemma scan_entries_sublist startTime endTime es :
  scan_entries startTime endTime es [] `sublist_of`
  map fst (List.filter (fun e : string * Time => negb (IsZero e.2)) (reverse es)).
Proof.
  induction es as [|[line t] es IH]; simpl; [apply sublist_nil_l|].
  rewrite reverse_cons, List.filter_app, map_app. simpl.
  destruct (IsZero t) eqn:Ez; simpl.
  - rewrite app_nil_r. exact IH.
  - destruct (After t (Add startTime (-1 * Second)) && Before t endTime);
      destruct (Before t (Add startTime (-2 * Second))).
    + apply sublist_inserts_l. reflexivity.
    + rewrite scan_entries_app_logs. apply sublist_app; [exact IH|reflexivity].
    + apply sublist_nil_l.
    + apply sublist_inserts_r. exact IH.
Qed.

(** the scan stops at the first written slot older than
    startTime - 2 s: the slots after it do not matter *)
Lemma scan_entries_stop startTime endTime pre e post :
  IsZero e.2 = false ->
  Before e.2 (Add startTime (-2 * Second)) = true ->
  forall logs,
    scan_entries startTime endTime (pre ++ e :: post) logs =
    scan_entries startTime endTime (pre ++ [e]) logs.
Proof.
  intros Hz Hb. destruct e as [line t]; simpl in Hz, Hb.
  induction pre as [|[l0 t0] pre IH]; intros logs; simpl.
  - rewrite Hz, Hb. reflexivity.
  - destruct (IsZero t0); [apply IH|].
    destruct (Before t0 (Add startTime (-2 * Second))); [reflexivity|].
    apply IH.
Qed.

Lemma filter_reverse_bool {A} (f : A -> bool) (l : list A) :
  List.filter f (reverse l) = reverse (List.filter f l).
Proof.
  induction l as [|x l IH]; [reflexivity|].
  rewrite reverse_cons, List.filter_app, IH. simpl.
  destruct (f x); [rewrite reverse_cons|rewrite app_nil_r]; reflexivity.
Qed.

Lemma filter_none {A} (f : A -> bool) (l : list A) :
  Forall (fun x => f x = false) l -> List.filter f l = [].
Proof.
  induction 1 as [|x l Hx _ IH]; simpl; [reflexivity|].
  rewrite Hx. exact IH.
Qed.

(** on slots visited from the newest to the oldest the scan returns
    exactly the slots inside the window *)
Lemma scan_entries_sorted startTime now es :
  StronglySorted (fun a b : string * Time => b.2 <= a.2) es ->
  scan_entries startTime (Add now (500 * Millisecond)) es [] =
  reverse (map fst (List.filter (in_window startTime now) es)).
Proof.
  induction 1 as [|[line t] es _ IH Hall]; [reflexivity|].
  cbn [scan_entries List.filter]. unfold in_window at 1. cbn [snd].
  destruct (IsZero t) eqn:Ez; cbn [negb andb]; [exact IH|].
  destruct (Before t (Add startTime (-2 * Second))) eqn:Eb.
  - assert (Hnone : List.filter (in_window startTime now) es = []).
    { apply filter_none. eapply Forall_impl; [exact Hall|].
      intros [l' t'] Hle. simpl in Hle. unfold in_window, After, Before, Add in *.
      simpl. apply Z.ltb_lt in Eb.
      destruct (startTime + -1 * Second <? t') eqn:E1;
        [apply Z.ltb_lt in E1; unfold Second in *; lia|].
      rewrite andb_false_r. reflexivity. }
    rewrite Hnone.
    destruct (After t (Add startTime (-1 * Second)) &&
              Before t (Add now (500 * Millisecond))); reflexivity.
  - destruct (After t (Add startTime (-1 * Second)) &&
              Before t (Add now (500 * Millisecond))).
    + rewrite scan_entries_app_logs, IH. cbn [map fst].
      rewrite reverse_cons. reflexivity.
    + exact IH.
Qed.

Lemma StronglySorted_drop {A} (R : A -> A -> Prop) (l : list A) (n : nat) :
  StronglySorted R l -> StronglySorted R (drop n l).
Proof.
  intros H. rewrite <- (take_drop n l) in H.
  eapply StronglySorted_app_1_r; exact H.
Qed.

Lemma StronglySorted_reverse {A} (R : A -> A -> Prop) (l : list A) :
  StronglySorted R l -> StronglySorted (fun a b => R b a) (reverse l).
Proof.
  induction 1 as [|x l _ IH Hall]; [constructor|].
  rewrite reverse_cons. apply StronglySorted_app_2.
  - intros a b Ha Hb. apply list_elem_of_singleton in Hb; subst b.
    rewrite elem_of_reverse in Ha.
    rewrite Forall_forall in Hall. apply Hall. exact Ha.
  - exact IH.
  - repeat constructor.
Qed.

(** a ring filled from blank slots: the blank slots that are left come
    first, then the retained writes *)
Lemma blank_then_writes_sorted (blank ws : list (string * Time)) :
  Forall (fun e : string * Time => e.2 = 0) blank ->
  writes_ok ws ->
  StronglySorted (fun a b : string * Time => a.2 <= b.2) (blank ++ ws).
Proof.
  intros Hb [Hs Hp]. apply StronglySorted_app_2.
  - intros a b Ha Hbw. rewrite Forall_forall in Hb, Hp.
    rewrite (Hb a Ha). specialize (Hp b Hbw). lia.
  - clear Hs Hp. induction Hb as [|e l He Hl IH]; constructor; [exact IH|].
    eapply Forall_impl; [exact Hl|]. intros e' He'. simpl in *. lia.
  - exact Hs.
Qed.

Lemma filter_drop_blank {A} (f : A -> bool) (blank ws : list A) :
  Forall (fun x => f x = false) blank ->
  List.filter f (drop (length ws) (blank ++ ws)) =
  List.filter f (drop (length ws - length blank) ws).
Proof.
  intros Hb. rewrite drop_app, List.filter_app.
  rewrite filter_none; [reflexivity|].
  rewrite <- (take_drop (length ws) blank) in Hb.
  apply Forall_app in Hb. apply Hb.
Qed.

Lemma blank_chron pi :
  blank pi -> Forall (fun e : string * Time => e.2 = 0) (chron pi).
Proof.
  intros [H Hz]. rewrite Forall_forall. intros [l t] Hin. simpl.
  unfold chron in Hin. apply elem_of_app in Hin.
  assert (Hin' : (l, t) ∈ entries pi).
  { destruct Hin as [Hin|Hin];
      [eapply subseteq_drop|eapply subseteq_take]; exact Hin. }
  apply list_elem_of_lookup in Hin'. destruct Hin' as [k Hk].
  apply entries_lookup in Hk. destruct Hk as [_ Hk].
  rewrite Forall_forall in Hz. apply Hz.
  apply list_elem_of_lookup. eauto.
Qed.

Lemma newProcessInfo_blank name pid dir now url port :
  blank (newProcessInfo name pid dir now url port).
Proof.
  split.
  - unfold RingOK, newProcessInfo.
    cbn [logLines logTimes maxLogLines logIndex].
    rewrite !length_replicate. lia.
  - unfold newProcessInfo. cbn [logTimes].
    apply Forall_replicate. reflexivity.
Qed.

Lemma map_reverse {A B} (f : A -> B) (l : list A) :
  map f (reverse l) = reverse (map f l).
Proof.
  induction l as [|x l IH]; [reflexivity|].
  simpl. rewrite !reverse_cons, map_app, IH. reflexivity.
Qed.

Lemma sublist_filter_bool {A} (f : A -> bool) (l : list A) :
  List.filter f l `sublist_of` l.
Proof.
  induction l as [|x l IH]; simpl; [constructor|].
  destruct (f x); [apply sublist_skip|apply sublist_cons]; exact IH.
Qed.

Lemma sublist_map {A B} (f : A -> B) (l1 l2 : list A) :
  l1 `sublist_of` l2 -> map f l1 `sublist_of` map f l2.
Proof. induction 1; simpl; constructor; assumption. Qed.

Lemma count_newlines_app (a b : string) :
  count_newlines (a +:+ b) = (count_newlines a + count_newlines b)%nat.
Proof.
  induction a as [|c a IH]; simpl; [reflexivity|]. rewrite IH. lia.
Qed.

Lemma count_newlines_Join (lines : list string) :
  Forall no_newline lines ->
  count_newlines (Join lines nl) = (length lines - 1)%nat.
Proof.
  unfold Join. induction 1 as [|x l Hx Hl IH]; [reflexivity|].
  destruct l as [|y l]; simpl in *; [exact Hx|].
  rewrite !count_newlines_app, IH, Hx. simpl. lia.
Qed.

Lemma count_lines_Join (lines : list string) :
  Forall no_newline lines ->
  (count_lines (Join lines nl) <= length lines)%nat.
Proof.
  intros H. pose proof (count_newlines_Join lines H) as Hc.
  unfold count_lines. destruct (Join lines nl) eqn:E; [lia|].
  rewrite Hc. destruct lines; simpl in *; [discriminate|lia].
Qed.

End Ring.

(** C3, as amended: on a ring filled by the single writer, whose
    readings of the clock never decrease, GetRequestLog returns, joined
    by newlines and in the order in which they were written, exactly
    the lines still held by the ring whose timestamp t satisfies
    startTime - 1 s < t < now + 500 ms (the left bound is strict: the
    source tests with [After]).  On every well-formed ring, whatever its
    timestamps, the scan runs from the newest slot backwards and stops
    at the first written slot with t < startTime - 2 s: the result is
    that of the scan over the slots up to that one, and the slots
    behind it are never looked at, so that two rings that agree up to
    that slot give the same result. *)
Theorem GetRequestLog_window (pi0 pi : ProcessInfo) (ws : list (string * Time))
    (startTime now : Time) :
  (blank pi0 -> writes_ok ws -> processLogs pi0 ws = Some pi ->
   GetRequestLog pi startTime now =
     Some (Join (map fst (List.filter (in_window startTime now)
                            (retained (maxLogLines pi0) ws))) nl)) /\
  (RingOK pi ->
   forall pre e post,
     scan_order pi = pre ++ e :: post ->
     IsZero e.2 = false ->
     Before e.2 (Add startTime (-2 * Second)) = true ->
     GetRequestLog_lines pi startTime now =
       Some (scan_entries startTime (Add now (500 * Millisecond)) (pre ++ [e]) []) /\
     forall pi' post',
       RingOK pi' ->
       scan_order pi' = pre ++ e :: post' ->
       GetRequestLog pi' startTime now = GetRequestLog pi startTime now).
Proof.
  split.
  - intros Hb Hw Hp.
    destruct (processLogs_chron ws pi0 (proj1 Hb)) as (pi' & Hp' & Hok & Hm & Hc).
    rewrite Hp in Hp'. inversion Hp'; subst pi'. clear Hp'.
    unfold GetRequestLog. rewrite (GetRequestLog_lines_scan pi _ _ Hok).
    do 2 f_equal. unfold scan_order.
    rewrite scan_entries_sorted.
    + rewrite filter_reverse_bool, map_reverse, reverse_involutive.
      f_equal. rewrite Hc. unfold retained.
      rewrite filter_drop_blank.
      * rewrite (length_chron pi0 (proj1 Hb)). reflexivity.
      * eapply Forall_impl; [apply (blank_chron pi0 Hb)|].
        intros [l t] Ht. simpl in Ht. subst t. reflexivity.
    + apply StronglySorted_reverse. rewrite Hc.
      apply StronglySorted_drop.
      apply blank_then_writes_sorted; [apply (blank_chron pi0 Hb)|exact Hw].
  - intros Hok pre e post Hs Hz Hcut.
    assert (Hlines : GetRequestLog_lines pi startTime now =
              Some (scan_entries startTime (Add now (500 * Millisecond)) (pre ++ [e]) [])).
    { rewrite (GetRequestLog_lines_scan pi _ _ Hok), Hs.
      f_equal. apply scan_entries_stop; assumption. }
    split; [exact Hlines|].
    intros pi' post' Hok' Hs'. unfold GetRequestLog.
    rewrite Hlines, (GetRequestLog_lines_scan pi' _ _ Hok'), Hs'.
    rewrite (scan_entries_stop _ _ pre e post' Hz Hcut). reflexivity.
Qed.

Lemma GetRequestLog_window_witness :
  (exists pi,
      (blank demo_child /\ writes_ok demo_writes /\
       processLogs demo_child demo_writes = Some pi) /\
      GetRequestLog pi (100 * Second) (101 * Second) =
      Some (Join ["GET /ping"; "200 OK"] nl)) /\
  (RingOK skewed_child /\
   scan_order skewed_child !! 2%nat = Some ("hidden", 100 * Second) /\
   in_window (100 * Second) (101 * Second) ("hidden", 100 * Second) = true) /\
  GetRequestLog_lines skewed_child (100 * Second) (101 * Second) = Some ["200 OK"].
Proof.
  split; [|split].
  - destruct (processLogs_chron demo_writes demo_child
                (proj1 (newProcessInfo_blank _ _ _ _ _ _))) as (pi & Hp & _).
    assert (Hw : writes_ok demo_writes).
    { split; unfold demo_writes; repeat constructor; simpl;
        unfold Second, Millisecond; lia. }
    exists pi. split.
    + split; [apply newProcessInfo_blank|]. split; [exact Hw|exact Hp].
    + destruct (GetRequestLog_window demo_child pi demo_writes (100 * Second)
                  (101 * Second)) as [H _].
      rewrite (H (newProcessInfo_blank _ _ _ _ _ _) Hw Hp). reflexivity.
  - split; [|split; reflexivity].
    unfold RingOK. repeat split; try reflexivity; vm_compute; discriminate.
  - destruct (GetRequestLog_window demo_child skewed_child demo_writes (100 * Second)
                (101 * Second)) as [_ H].
    destruct (H ltac:(unfold RingOK; repeat split; try reflexivity; vm_compute; discriminate)
                [("200 OK", 100 * Second + 200 * Millisecond)]
                ("stale", 50 * Second)
                (drop 2 (scan_order skewed_child))
                eq_refl eq_refl eq_refl) as [Hlines _].
    rewrite Hlines. reflexivity.
Defined.

(** C3, as the specification words it, fails on a line stamped exactly
    startTime - 1 s: the specification's window contains it, the source
    leaves it out. *)
Lemma GetRequestLog_boundary_excluded :
  let startTime := 100 * Second in
  let now := 101 * Second in
  let ws := [("boundary", startTime - 1 * Second)] in
  map fst (List.filter (spec_in_window startTime now) ws) = ["boundary"] /\
  (processLogs demo_child ws ≫= fun pi => GetRequestLog pi startTime now) = Some "".
Proof. vm_compute. split; reflexivity. Qed.

(** C9: whatever the child has written, GetRequestLog on the ring built
    by StartProcess returns at most 1000 lines (maxLogLines), all of them
    among the last 1000 lines written and in the order of writing; a
    line displaced from the ring is not returned. *)
Theorem GetRequestLog_at_most_maxLogLines (name dir url : string) (pid port : Z)
    (t0 : Time) (ws : list (string * Time)) (startTime now : Time) :
  exists pi lines,
    processLogs (newProcessInfo name pid dir t0 url port) ws = Some pi /\
    GetRequestLog_lines pi startTime now = Some lines /\
    GetRequestLog pi startTime now = Some (Join lines nl) /\
    (length lines <= 1000)%nat /\
    lines `sublist_of` map fst (retained 1000 ws) /\
    (Forall no_newline (map fst ws) ->
     (count_lines (Join lines nl) <= 1000)%nat).
Proof.
  set (pi0 := newProcessInfo name pid dir t0 url port).
  pose proof (newProcessInfo_blank name pid dir t0 url port) as Hb. fold pi0 in Hb.
  destruct (processLogs_chron ws pi0 (proj1 Hb)) as (pi & Hp & Hok & Hm & Hc).
  pose proof (GetRequestLog_lines_scan pi startTime now Hok) as Hl.
  set (lines := scan_entries startTime (Add now (500 * Millisecond)) (scan_order pi) []) in *.
  assert (Hlen : (length lines <= 1000)%nat).
  { subst lines.
    pose proof (scan_entries_length startTime (Add now (500 * Millisecond)) (scan_order pi) []) as H.
    assert (HS : length (scan_order pi) = 1000%nat).
    { unfold scan_order. rewrite length_reverse, (length_chron pi Hok), Hm.
      reflexivity. }
    rewrite HS in H. simpl in H. lia. }
  assert (Hsub : lines `sublist_of` map fst (retained 1000 ws)).
  { subst lines. etransitivity; [apply scan_entries_sublist|].
    unfold scan_order. rewrite reverse_involutive, Hc.
    unfold retained. rewrite filter_drop_blank.
    - rewrite (length_chron pi0 (proj1 Hb)).
      apply sublist_map, sublist_filter_bool.
    - eapply Forall_impl; [apply (blank_chron pi0 Hb)|].
      intros [l t] Ht. simpl in Ht. subst t. reflexivity. }
  exists pi, lines. split; [exact Hp|]. split; [exact Hl|].
  split; [unfold GetRequestLog; rewrite Hl; reflexivity|].
  split; [exact Hlen|]. split; [exact Hsub|].
  intros Hnl.
  assert (Hfa : Forall no_newline lines).
  { rewrite Forall_forall. intros x Hx.
    rewrite Forall_forall in Hnl. apply Hnl.
    eapply elem_of_sublist; [exact Hx|].
    etransitivity; [exact Hsub|]. apply sublist_map, sublist_drop. }
  pose proof (count_lines_Join lines Hfa). lia.
Qed.

Lemma GetRequestLog_at_most_maxLogLines_witness :
  Forall no_newline (map fst demo_writes) /\
  exists pi lines,
    processLogs demo_child demo_writes = Some pi /\
    GetRequestLog pi (100 * Second) (101 * Second) = Some (Join lines nl) /\
    (count_lines (Join lines nl) <= 1000)%nat.
Proof.
  assert (Hnl : Forall no_newline (map fst demo_writes))
    by (repeat constructor).
  split; [exact Hnl|].
  destruct (GetRequestLog_at_most_maxLogLines "svc" "/srv/app"
              "http://localhost:8081/health" 4242 8081 (90 * Second)
              demo_writes (100 * Second) (101 * Second))
    as (pi & lines & Hp & _ & Hg & _ & _ & Hc).
  exists pi, lines. split; [exact Hp|]. split; [exact Hg|]. exact (Hc Hnl).
Defined.

(** ** Serialized tool handlers *)

Section Serialized.

Import ToolSemaphore.

Lemma tokens_held_app cs1 cs2 :
  tokens_held (cs1 ++ cs2) = (tokens_held cs1 + tokens_held cs2)%nat.
Proof.
  induction cs1 as [|c cs1 IH]; simpl; [reflexivity|].
  unfold tokens_held in *. simpl. rewrite IH. lia.
Qed.

Lemma tokens_held_insert cs :
  forall i c c',
    cs !! i = Some c ->
    (tokens_held (<[i := c']> cs) + holds_token c =
     tokens_held cs + holds_token c')%nat.
Proof.
  induction cs as [|c0 cs IH]; intros i c c' Hi; [discriminate|].
  destruct i as [|i]; simpl in *.
  - inversion Hi; subst. unfold tokens_held. simpl. lia.
  - specialize (IH i c c' Hi). unfold tokens_held in *. simpl. lia.
Qed.

Lemma in_body_le_holds cs :
  (length (List.filter in_body cs) <= tokens_held cs)%nat.
Proof.
  induction cs as [|[t p] cs IH]; [simpl; lia|].
  change (tokens_held ((t, p) :: cs))
    with (holds_token (t, p) + tokens_held cs)%nat.
  cbn [List.filter].
  destruct (in_body (t, p)) eqn:E; cbn [length];
    unfold in_body, holds_token in *; cbn [snd] in *;
    destruct p as [|[] p]; try discriminate; lia.
Qed.

(** what is left of a handler after its next instruction *)
Lemma handler_tail (op : Instr) (rest : list Instr) :
  op :: rest `suffix_of` [Acquire; Body; Release] ->
  rest = match op with
         | Acquire => [Body; Release]
         | Body => [Release]
         | Release => []
         end.
Proof.
  intros [k Hk].
  destruct k as [|a [|b [|c k]]]; simpl in Hk; inversion Hk; subst;
    try reflexivity.
  destruct k; discriminate.
Qed.

(** a call that has run its next instruction is still well formed, and
    the tokens held change by what that instruction does *)
Ltac advance Hwf Hi t rest :=
  let Hh := fresh "Hh" in
  let Hw := fresh "Hw" in
  pose proof (tokens_held_insert _ _ _ (t, rest) Hi) as Hh;
  pose proof (Forall_lookup_1 _ _ _ _ Hwf Hi) as Hw;
  unfold well_formed in Hw; cbn [snd] in Hw;
  pose proof (handler_tail _ _ Hw); subst;
  unfold holds_token in Hh; cbn [snd] in Hh;
  split;
  [ unfold capacity in *; lia
  | apply Forall_insert; [exact Hwf|];
    unfold well_formed; cbn [snd]; eapply suffix_cons_l; exact Hw ].

(** the token is either in the channel or held by exactly one call *)
Lemma token_conservation s :
  reachable s ->
  (toolSemaphore s + tokens_held (calls s) = 1)%nat /\
  Forall well_formed (calls s).
Proof.
  unfold reachable. intros H.
  apply rtc_ind_r with (x := initial) (P := fun s =>
    (toolSemaphore s + tokens_held (calls s) = 1)%nat /\
    Forall well_formed (calls s)) in H; [exact H| |].
  - split; [reflexivity|constructor].
  - clear s H. intros s s' _ Hstep [Hinv Hwf].
    inversion Hstep as [s0 t|s0 i t rest Hi Hpos|s0 i t rest Hi
                       |s0 i t rest Hi|s0 i t rest Hi Hfree];
      subst; cbn [toolSemaphore calls].
    + split.
      * rewrite tokens_held_app. unfold tokens_held at 2. simpl.
        destruct t; simpl; lia.
      * apply Forall_app. split; [exact Hwf|].
        constructor; [|constructor]. unfold well_formed.
        destruct t; simpl; reflexivity.
    + advance Hwf Hi t rest.
    + split; assumption.
    + advance Hwf Hi t rest.
    + advance Hwf Hi t rest.
Qed.

End Serialized.

(** C2: every registered handler starts by acquiring the single-slot
    semaphore and ends by releasing it, and in every state reachable by
    any interleaving of any stream of tool calls at most one handler
    body is executing: two calls that are both inside their body are the
    same call. *)
Theorem at_most_one_handler_body (s : ToolSemaphore.State) :
  ToolSemaphore.reachable s ->
  (forall t, head (ToolSemaphore.handler t) = Some ToolSemaphore.Acquire /\
             last (ToolSemaphore.handler t) = Some ToolSemaphore.Release) /\
  (ToolSemaphore.bodies_running s <= 1)%nat /\
  (forall i j ci cj,
      ToolSemaphore.calls s !! i = Some ci ->
      ToolSemaphore.calls s !! j = Some cj ->
      ToolSemaphore.in_body ci = true ->
      ToolSemaphore.in_body cj = true ->
      i = j).
Proof.
  intros Hr. destruct (token_conservation s Hr) as [Hinv _].
  pose proof (in_body_le_holds (ToolSemaphore.calls s)) as Hle.
  split; [intros t; destruct t; split; reflexivity|].
  split; [unfold ToolSemaphore.bodies_running; lia|].
  intros i j ci cj Hi Hj Bi Bj.
  destruct (decide (i = j)) as [|Hne]; [assumption|exfalso].
  assert (H2 : (2 <= length (List.filter ToolSemaphore.in_body (ToolSemaphore.calls s)))%nat).
  { clear Hinv Hle Hr. revert i j Hi Hj Hne.
    induction (ToolSemaphore.calls s) as [|c cs IH]; intros i j Hi Hj Hne;
      [discriminate|].
    destruct i as [|i], j as [|j]; simpl in *; try congruence.
    - inversion Hi; subst c. rewrite Bi. simpl.
      assert (In cj (List.filter ToolSemaphore.in_body cs)).
      { apply filter_In. split; [|exact Bj].
        apply list_elem_of_In, list_elem_of_lookup. eauto. }
      destruct (List.filter ToolSemaphore.in_body cs); [contradiction|simpl; lia].
    - inversion Hj; subst c. rewrite Bj. simpl.
      assert (In ci (List.filter ToolSemaphore.in_body cs)).
      { apply filter_In. split; [|exact Bi].
        apply list_elem_of_In, list_elem_of_lookup. eauto. }
      destruct (List.filter ToolSemaphore.in_body cs); [contradiction|simpl; lia].
    - assert (i <> j) by congruence.
      specialize (IH i j Hi Hj H).
      destruct (ToolSemaphore.in_body c); simpl; lia. }
  lia.
Qed.

Lemma at_most_one_handler_body_witness :
  ToolSemaphore.reachable ToolSemaphore.demo_state /\
  (ToolSemaphore.bodies_running ToolSemaphore.demo_state <= 1)%nat.
Proof.
  assert (Hr : ToolSemaphore.reachable ToolSemaphore.demo_state).
  { unfold ToolSemaphore.reachable.
    eapply rtc_l;
      [apply (ToolSemaphore.step_call ToolSemaphore.initial
                ToolSemaphore.Tool_start_process)|].
    eapply rtc_l;
      [apply (ToolSemaphore.step_call _ ToolSemaphore.Tool_request_with_logs)|].
    eapply rtc_l;
      [eapply (ToolSemaphore.step_acquire _ 0 ToolSemaphore.Tool_start_process);
       [reflexivity|simpl; lia]|].
    apply rtc_refl. }
  split; [exact Hr|].
  apply (at_most_one_handler_body ToolSemaphore.demo_state Hr).
Defined.

(** ** The single waiter *)

Section SingleWaiter.

Import Tasks.

Lemma pending_program (t : Task) : pending (program t) = task_waits t.
Proof. destruct t as [[]| | | | | | |]; reflexivity. Qed.

Lemma total_pending_app ths1 ths2 :
  total_pending (ths1 ++ ths2) = (total_pending ths1 + total_pending ths2)%nat.
Proof.
  unfold total_pending. induction ths1 as [|th ths1 IH]; simpl; [reflexivity|].
  rewrite IH. lia.
Qed.

Lemma total_pending_insert ths :
  forall i th th',
    ths !! i = Some th ->
    (total_pending (<[i := th']> ths) + pending th.2 =
     total_pending ths + pending th'.2)%nat.
Proof.
  unfold total_pending.
  induction ths as [|th0 ths IH]; intros i th th' Hi; [discriminate|].
  destruct i as [|i]; simpl in *.
  - inversion Hi; subst. lia.
  - specialize (IH i th th' Hi). lia.
Qed.

Lemma total_pending_roots (others : list Task) :
  Forall (fun t => is_root t = true) others ->
  total_pending (map (fun t => (t, program t)) others) = O.
Proof.
  unfold total_pending.
  induction 1 as [|t others Ht _ IH]; simpl; [reflexivity|].
  rewrite IH, pending_program. destruct t; simpl in *; try discriminate; reflexivity.
Qed.

Lemma wait_only_in_monitor (t : Task) (ops : list Op) :
  OpCmdWait :: ops `suffix_of` program t -> t = TmonitorProcessExit.
Proof.
  intros [k Hk].
  assert (Hin : In OpCmdWait (program t)).
  { rewrite Hk. apply in_or_app. right. left. reflexivity. }
  destruct t as [[]| | | | | | |]; simpl in Hin;
    repeat (destruct Hin as [Hin|Hin]; [discriminate|]);
    try contradiction; reflexivity.
Qed.

Lemma single_waiter_initial started others :
  Forall (fun t => is_root t = true) others ->
  single_waiter_inv started (initial started others).
Proof.
  intros Hroots. unfold single_waiter_inv, initial, waits. cbn [threads trace].
  split; [|split].
  - change (total_pending ((TStartProcess started, program (TStartProcess started))
                           :: map (fun t => (t, program t)) others))
      with (pending (program (TStartProcess started)) +
            total_pending (map (fun t => (t, program t)) others))%nat.
    rewrite (total_pending_roots others Hroots), pending_program. simpl. lia.
  - constructor; [reflexivity|].
    apply Forall_forall. intros th Hin. apply list_elem_of_In in Hin.
    apply in_map_iff in Hin. destruct Hin as (t & <- & _). reflexivity.
  - intros t [].
Qed.

Lemma single_waiter_step started s s' :
  single_waiter_inv started s -> step s s' -> single_waiter_inv started s'.
Proof.
  intros (Hcount & Hsuf & Htag) Hstep.
  inversion Hstep as [s0 i t op rest Hi]; subst.
  pose proof (Forall_lookup_1 _ _ _ _ Hsuf Hi) as Hs. cbn [fst snd] in Hs.
  pose proof (total_pending_insert _ _ _ (t, rest) Hi) as Hins. cbn [snd] in Hins.
  unfold single_waiter_inv, waits in *. cbn [threads trace].
  rewrite List.filter_app, length_app, total_pending_app.
  split; [|split].
  - destruct op; cbn [List.filter is_wait snd length pending total_pending foldr] in *;
      try lia.
    rewrite pending_program. lia.
  - apply Forall_app. split.
    + apply Forall_insert; [exact Hsuf|]. cbn [fst snd].
      eapply suffix_cons_l. exact Hs.
    + destruct op; try constructor; [reflexivity|constructor].
  - intros t' Hin. apply in_app_or in Hin. destruct Hin as [Hin|Hin].
    + apply Htag. exact Hin.
    + destruct Hin as [Heq|[]]. inversion Heq; subst.
      eapply wait_only_in_monitor. exact Hs.
Qed.

Lemma single_waiter_reachable started others s :
  Forall (fun t => is_root t = true) others ->
  rtc step (initial started others) s ->
  single_waiter_inv started s.
Proof.
  intros Hroots Hr.
  apply rtc_ind_r with (x := initial started others)
                       (P := single_waiter_inv started) in Hr; [exact Hr| |].
  - apply single_waiter_initial. exact Hroots.
  - intros y z _ Hstep Hy. eapply single_waiter_step; eassumption.
Qed.

Lemma total_pending_finished ths :
  Forall (fun th : Task * list Op => th.2 = []) ths -> total_pending ths = O.
Proof.
  unfold total_pending. induction 1 as [|[t ops] ths Hth _ IH]; simpl; [reflexivity|].
  simpl in Hth. subst ops. rewrite IH. reflexivity.
Qed.

Lemma exec_step s i s' : exec s i = Some s' -> step s s'.
Proof.
  unfold exec. destruct (threads s !! i) as [[t [|op rest]]|] eqn:Hi; try discriminate.
  intros H. inversion H; subst. apply (step_op s i t op rest Hi).
Qed.

Lemma run_rtc sched : forall s s', run s sched = Some s' -> rtc step s s'.
Proof.
  induction sched as [|i sched IH]; intros s s' H; simpl in H.
  - inversion H; subst. apply rtc_refl.
  - destruct (exec s i) as [s1|] eqn:E; [|discriminate].
    eapply rtc_l; [apply (exec_step _ _ _ E)|]. apply IH. exact H.
Qed.

End SingleWaiter.

(** C1: in every interleaving of the tasks of a child with any number of
    KillProcess calls (and of later StartProcess calls under the same
    name), Cmd.Wait is invoked at most once, only by the exit watcher
    monitorProcessExit, and exactly once by the time all tasks of a
    started child have run to their end; KillProcess contains no call of
    Cmd.Wait and observes waitDone instead. *)
Theorem Cmd_Wait_invoked_once (started : bool) (others : list Tasks.Task)
    (s : Tasks.State) :
  Forall (fun t => Tasks.is_root t = true) others ->
  rtc Tasks.step (Tasks.initial started others) s ->
  (Tasks.waits s <= 1)%nat /\
  (forall t, In (t, Tasks.OpCmdWait) (Tasks.trace s) -> t = Tasks.TmonitorProcessExit) /\
  (Tasks.finished s -> Tasks.waits s = if started then 1%nat else 0%nat) /\
  (forall call,
      ~ In Tasks.OpCmdWait (Tasks.program (Tasks.TKillProcess call)) /\
      In Tasks.OpAwaitWaitDone (Tasks.program (Tasks.TKillProcess call))).
Proof.
  intros Hroots Hr.
  destruct (single_waiter_reachable started others s Hroots Hr) as (Hcount & _ & Htag).
  split; [|split; [exact Htag|split]].
  - destruct started; simpl in Hcount; lia.
  - intros Hfin. rewrite (total_pending_finished _ Hfin) in Hcount.
    destruct started; simpl in Hcount; lia.
  - intros call. split.
    + simpl. intros H. repeat (destruct H as [H|H]; [discriminate|]). exact H.
    + simpl. tauto.
Qed.

Lemma Cmd_Wait_invoked_once_witness :
  exists s,
    (Forall (fun t => Tasks.is_root t = true) Tasks.demo_others /\
     rtc Tasks.step (Tasks.initial true Tasks.demo_others) s) /\
    Tasks.finished s /\ Tasks.waits s = 1%nat.
Proof.
  assert (Hroots : Forall (fun t => Tasks.is_root t = true) Tasks.demo_others)
    by (repeat constructor).
  destruct (Tasks.run (Tasks.initial true Tasks.demo_others) Tasks.demo_schedule)
    as [s|] eqn:E; [|vm_compute in E; discriminate].
  pose proof (run_rtc _ _ _ E) as Hr.
  assert (Hfin : Tasks.finished s).
  { vm_compute in E. inversion E; subst s. repeat constructor. }
  exists s. split; [split; assumption|]. split; [exact Hfin|].
  destruct (Cmd_Wait_invoked_once true Tasks.demo_others s Hroots Hr)
    as (_ & _ & Hone & _).
  exact (Hone Hfin).
Defined.

(** ** Auto-association *)

Section Association.

Variable lib : GoLib.

Lemma eqb_string_true (a b : string) : eqb_string a b = true <-> a = b.
Proof. unfold eqb_string. apply String.eqb_eq. Qed.

Lemma eqb_string_false (a b : string) : eqb_string a b = false <-> a <> b.
Proof. unfold eqb_string. apply String.eqb_neq. Qed.





End Association.




(** ** The request *)

Section RequestFacts.

Variables (lib : GoLib) (os : OS).

Lemma GetRequestLog_total pi startTime now :
  RingOK pi -> exists logs, GetRequestLog pi startTime now = Some logs.
Proof.
  intros H. unfold GetRequestLog.
  rewrite (GetRequestLog_lines_scan pi startTime now H). eauto.
Qed.

Lemma outbound_URL_prepare args w fullURL :
  outbound_URL lib os args w = Some fullURL <->
  exists req, prepare lib os args w = inr req /\ req_fullURL req = fullURL.
Proof.
  unfold outbound_URL. destruct (prepare lib os args w) as [r|req].
  - split; [discriminate|]. intros (req & H & _). discriminate.
  - split.
    + intros H. inversion H. eauto.
    + intros (req' & H & <-). inversion H. reflexivity.
Qed.

Lemma prepare_associate args w req :
  prepare lib os args w = inr req ->
  associate lib w args = inr (req_processInfo req).
Proof.
  unfold prepare. destruct (associate lib w args) as [r|processInfo]; [discriminate|].
  destruct (build_fullURL lib processInfo (requestWithLogsArgs.URL args)) as [r|fullURL];
    [discriminate|].
  destruct (http_NewRequest lib _ fullURL); [discriminate|].
  intros H. inversion H. reflexivity.
Qed.

Lemma Load_In procs name info :
  Load procs name = Some info -> exists k, In (k, info) procs.
Proof.
  induction procs as [|[k v] procs IH]; cbn [Load]; [discriminate|].
  destruct (eqb_string k name).
  - intros H. inversion H; subst. exists k. left. reflexivity.
  - intros H. destruct (IH H) as [k' Hk]. exists k'. right. exact Hk.
Qed.

Lemma Range_match_In rh rp procs info :
  Range_match lib rh rp procs = Some info -> exists k, In (k, info) procs.
Proof.
  induction procs as [|[k v] procs IH]; cbn [Range_match]; [discriminate|].
  destruct (match_HealthCheckURL lib rh rp v).
  { intros H. inversion H; subst. exists k. left. reflexivity. }
  destruct (match_HealthCheckPort rp v).
  { intros H. inversion H; subst. exists k. left. reflexivity. }
  intros H. destruct (IH H) as [k' Hk]. exists k'. right. exact Hk.
Qed.

(** the child that a request is associated with is a registered one *)
Lemma associate_registered w args info :
  associate lib w args = inr (Some info) -> exists k, In (k, info) (processes w).
Proof.
  unfold associate.
  destruct (negb (eqb_string (requestWithLogsArgs.ProcessName args) "")).
  - unfold GetProcess.
    destruct (Load (processes w) (requestWithLogsArgs.ProcessName args)) as [p|] eqn:E;
      [|discriminate].
    intros H. inversion H; subst. eapply Load_In. exact E.
  - destruct (is_absolute (requestWithLogsArgs.URL args)); [|discriminate].
    unfold FindProcessByURL.
    destruct (url_Parse lib (requestWithLogsArgs.URL args)) as [err|u]; [discriminate|].
    destruct (request_port u) as [rp|]; [|discriminate].
    intros H. inversion H as [H']. eapply Range_match_In. exact H'.
Qed.

(** every early return of the handler is an error without payload *)
Lemma prepare_early w args early :
  prepare lib os args w = inl early ->
  IsError early = true /\ StructuredContent early = None.
Proof.
  unfold prepare.
  destruct (associate lib w args) as [r|processInfo] eqn:Ea.
  { intros H. inversion H; subst. clear H. unfold associate in Ea.
    destruct (negb (eqb_string (requestWithLogsArgs.ProcessName args) "")).
    - destruct (GetProcess w (requestWithLogsArgs.ProcessName args)); [discriminate|].
      inversion Ea. split; reflexivity.
    - destruct (is_absolute (requestWithLogsArgs.URL args)); discriminate. }
  destruct (build_fullURL lib processInfo (requestWithLogsArgs.URL args))
    as [r|fullURL] eqn:Eb.
  { intros H. inversion H; subst. clear H. unfold build_fullURL in Eb.
    destruct processInfo as [info|]; [|discriminate].
    destruct (eqb_string (HealthCheckURL info) ""); [discriminate|].
    destruct (url_Parse lib (HealthCheckURL info)) as [err|parsedHealthURL].
    { inversion Eb. split; reflexivity. }
    destruct (is_absolute (requestWithLogsArgs.URL args)); [|discriminate].
    destruct (url_Parse lib (requestWithLogsArgs.URL args)) as [err|parsedURL];
      [|discriminate].
    inversion Eb. split; reflexivity. }
  destruct (http_NewRequest lib _ fullURL); [|discriminate].
  intros H. inversion H. split; reflexivity.
Qed.

Lemma prepare_request w args req :
  prepare lib os args w = inr req ->
  req_headers req = request_headers (requestWithLogsArgs.Headers args)
                      (requestWithLogsArgs.Body args) /\
  req_body req = requestWithLogsArgs.Body args /\
  req_method req <> "" /\
  (req_processInfo req = None -> req_fullURL req = requestWithLogsArgs.URL args).
Proof.
  unfold prepare.
  destruct (associate lib w args) as [r|processInfo]; [discriminate|].
  destruct (build_fullURL lib processInfo (requestWithLogsArgs.URL args))
    as [r|fullURL] eqn:Eb; [discriminate|].
  destruct (http_NewRequest lib _ fullURL); [discriminate|].
  intros H. inversion H; subst. clear H. cbn [req_headers req_body req_method
    req_processInfo req_fullURL].
  split; [reflexivity|]. split; [reflexivity|]. split.
  - destruct (eqb_string (ToUpper lib (requestWithLogsArgs.Method args)) "") eqn:E;
      [discriminate|]. apply eqb_string_false in E. exact E.
  - intros ->. cbn [build_fullURL] in Eb. inversion Eb. reflexivity.
Qed.

(** the part of the handler after httpClient.Do returns a success with
    the status code in its payload, and writes the response log *)
Lemma respond_total req outcome duration w1 :
  (forall info, req_processInfo req = Some info ->
                RingOK (observe os (events w1) info)) ->
  exists r responseBody requestLogs payload,
    respond lib os req outcome duration w1 =
    Some (r, emit w1 (EvWriteFile (req_method req) (req_fullURL req)
                        match outcome with
                        | HTTPError _ => 0
                        | HTTPResponse code _ => code
                        end responseBody requestLogs)) /\
    IsError r = false /\
    StructuredContent r = Some payload /\
    payload !! "status_code" =
    Some (VInt match outcome with
               | HTTPError _ => 0
               | HTTPResponse code _ => code
               end) /\
    payload !! "duration_ms" = Some (VInt (Z.quot duration 1000000)) /\
    (req_processInfo req = None -> payload !! "logs" = None) /\
    (requestLogs <> "").
Proof.
  intros Hring. unfold respond.
  set (rs := match outcome with
             | HTTPError err => ("请求失败: " +:+ err, 0)
             | HTTPResponse code body => (body, code)
             end).
  assert (Hcode : rs.2 = match outcome with
                         | HTTPError _ => 0
                         | HTTPResponse code _ => code
                         end) by (destruct outcome; reflexivity).
  destruct rs as [responseBody statusCode]. cbn [snd] in Hcode. subst statusCode.
  assert (Hlogs : exists requestLogs,
    match req_processInfo req with
    | Some processInfo =>
        logs ← GetRequestLog (observe os (events w1) processInfo)
                 (requestStartTime req) (time_Now os (events w1));
        Some (if eqb_string logs "" then "(请求期间无进程日志输出)" else logs)
    | None => Some "(未关联进程)"
    end = Some requestLogs /\ requestLogs <> "").
  { destruct (req_processInfo req) as [info|].
    - destruct (GetRequestLog_total _ (requestStartTime req) (time_Now os (events w1))
                  (Hring info eq_refl)) as [logs Hl].
      rewrite Hl. cbn [mbind option_bind].
      eexists. split; [reflexivity|].
      destruct (eqb_string logs "") eqn:E; [discriminate|].
      apply eqb_string_false in E. exact E.
    - eexists. split; [reflexivity|discriminate]. }
  destruct Hlogs as (requestLogs & Hl & Hne). rewrite Hl. cbn [mbind option_bind].
  destruct ((4000 <? String.length responseBody + String.length requestLogs)%nat &&
            negb (eqb_string (response_log_path os (events w1)) "")) eqn:Elong.
  - eexists _, responseBody, requestLogs, _.
    split; [reflexivity|]. cbn [IsError StructuredContent].
    split; [reflexivity|]. split; [reflexivity|].
    apply andb_true_iff in Elong. destruct Elong as [_ Epath]. rewrite Epath.
    destruct (req_processInfo req); cbn [andb];
      destruct (negb (eqb_string requestLogs "")); simplify_map_eq;
      repeat split; auto; discriminate.
  - eexists _, responseBody, requestLogs, _.
    split; [reflexivity|]. cbn [IsError StructuredContent].
    split; [reflexivity|]. split; [reflexivity|].
    destruct (negb (eqb_string (response_log_path os (events w1)) ""));
      destruct (req_processInfo req); simplify_map_eq;
      repeat split; auto; discriminate.
Qed.





End RequestFacts.




(** C7, as amended: when httpClient.Do fails, request_with_logs returns
    a result with IsError unset whose structured payload has
    status_code = 0; the error string stands in place of the body, whole
    in [response] when the response and the logs are returned inline,
    and cut to 500 bytes in [response_summary] (with no [response]
    field) when together they exceed 4000 bytes and the response log
    file was written. *)
Theorem transport_failure_reported (lib : GoLib) (os : OS) (w : World)
    (args : requestWithLogsArgs.t) (req : Request) (err : string)
    (duration : Duration) :
  prepare lib os args w = inr req ->
  http_Do os (events w) (req_method req) (req_fullURL req)
    (req_headers req) (req_body req) = (HTTPError err, duration) ->
  let sent := events w ++ [EvHTTP (req_method req) (req_fullURL req)
                             (req_headers req) (req_body req)] in
  (forall info, req_processInfo req = Some info -> RingOK (observe os sent info)) ->
  exists r w' payload requestLogs,
    request_with_logs lib os args w = Some (r, w') /\
    IsError r = false /\
    StructuredContent r = Some payload /\
    payload !! "status_code" = Some (VInt 0) /\
    let responseBody := "请求失败: " +:+ err in
    events w' = sent ++ [EvWriteFile (req_method req) (req_fullURL req) 0
                           responseBody requestLogs] /\
    if (4000 <? String.length responseBody + String.length requestLogs)%nat &&
       negb (eqb_string (response_log_path os sent) "")
    then payload !! "response" = None /\
         payload !! "response_summary" =
         Some (VString (truncateString responseBody 500))
    else payload !! "response" = Some (VString responseBody).
Proof.
  intros Hprep Hdo sent Hring.
  unfold request_with_logs. rewrite Hprep, Hdo.
  unfold respond. cbn [emit events processes]. fold sent.
  set (responseBody := "请求失败: " +:+ err).
  assert (Hlogs : exists requestLogs,
    match req_processInfo req with
    | Some processInfo =>
        GetRequestLog (observe os sent processInfo) (requestStartTime req)
          (time_Now os sent) ≫=
        (fun logs => Some (if eqb_string logs "" then "(请求期间无进程日志输出)" else logs))
    | None => Some "(未关联进程)"
    end = Some requestLogs).
  { destruct (req_processInfo req) as [info|] eqn:Ei; [|eauto].
    destruct (GetRequestLog_total (observe os sent info) (requestStartTime req)
                (time_Now os sent) (Hring info eq_refl)) as [logs Hl].
    rewrite Hl. simpl. eauto. }
  destruct Hlogs as [requestLogs Hlogs]. rewrite Hlogs. cbn [mbind option_bind].
  destruct ((4000 <? String.length responseBody + String.length requestLogs)%nat &&
            negb (eqb_string (response_log_path os sent) "")) eqn:Elong.
  - eexists _, _, _, requestLogs.
    split; [reflexivity|]. split; [reflexivity|]. split; [reflexivity|].
    cbn [events]. rewrite Elong.
    apply andb_true_iff in Elong. destruct Elong as [_ Epath]. rewrite Epath.
    split; [|split; [reflexivity|split]].
    + destruct (_ && _); repeat (rewrite lookup_insert_ne by discriminate);
        apply lookup_insert_eq.
    + destruct (_ && _); repeat (rewrite lookup_insert_ne by discriminate);
        apply lookup_empty.
    + destruct (_ && _); repeat (rewrite lookup_insert_ne by discriminate);
        apply lookup_insert_eq.
  - eexists _, _, _, requestLogs.
    split; [reflexivity|]. split; [reflexivity|]. split; [reflexivity|].
    cbn [events]. rewrite Elong.
    split; [|split; [reflexivity|]].
    + destruct (negb _); destruct (match req_processInfo req with Some _ => true | None => false end);
        repeat (rewrite lookup_insert_ne by discriminate); apply lookup_insert_eq.
    + destruct (negb _); destruct (match req_processInfo req with Some _ => true | None => false end);
        repeat (rewrite lookup_insert_ne by discriminate); apply lookup_insert_eq.
Qed.

Lemma transport_failure_reported_witness :
  let os := Demo.os "" (HTTPError "connection refused") false in
  let args := requestWithLogsArgs.mk "svc" "/ping" "" [] "" in
  exists req,
    (prepare Demo.lib os args demo_world = inr req /\
     http_Do os (events demo_world) (req_method req) (req_fullURL req)
       (req_headers req) (req_body req) =
     (HTTPError "connection refused", 3 * Millisecond)) /\
    exists r w',
      request_with_logs Demo.lib os args demo_world = Some (r, w') /\
      IsError r = false.
Proof.
  intros os args.
  destruct (prepare Demo.lib os args demo_world) as [r0|req] eqn:Hprep;
    [vm_compute in Hprep; discriminate|].
  assert (Hinfo : req_processInfo req = Some demo_child).
  { pose proof (prepare_associate _ _ _ _ _ Hprep) as Ha.
    change (associate Demo.lib demo_world args) with
      (@inr CallToolResult _ (Some demo_child)) in Ha.
    inversion Ha. reflexivity. }
  exists req. split; [split; [reflexivity|reflexivity]|].
  destruct (transport_failure_reported Demo.lib os demo_world args req
              "connection refused" (3 * Millisecond) Hprep eq_refl)
    as (r & w' & payload & logs & Hret & Herr & _).
  - intros info Hi. rewrite Hinfo in Hi. inversion Hi; subst info.
    apply newProcessInfo_blank.
  - exists r, w'. split; assumption.
Defined.

(** C7, as the specification words it, fails when the child has written
    more than 4000 bytes within the window: the payload then has no
    [response] field. *)
Lemma transport_failure_without_response_field :
  let os := Demo.os "" (HTTPError "dial tcp 127.0.0.1:8081: connect: connection refused") false in
  let args := requestWithLogsArgs.mk "svc" "/ping" "" [] "" in
  (request_with_logs Demo.lib os args busy_world ≫= fun rw =>
   Some (IsError rw.1,
         StructuredContent rw.1 ≫= (fun payload => payload !! "status_code"),
         StructuredContent rw.1 ≫= (fun payload => payload !! "response"),
         StructuredContent rw.1 ≫= (fun payload => payload !! "response_summary")))
  = Some (false, Some (VInt 0), None,
          Some (VString "请求失败: dial tcp 127.0.0.1:8081: connect: connection refused")).
Proof. vm_compute. reflexivity. Qed.

(** ** Killing and starting *)

Section Lifecycle.

Variables (lib : GoLib) (os : OS).

Lemma Contains_app_r (a b pat : string) :
  Contains b pat = true -> Contains (a +:+ b) pat = true.
Proof.
  intros H. induction a as [|c a IH]; simpl; [exact H|].
  rewrite IH. apply orb_true_r.
Qed.

Lemma Contains_space_whitespace (s : string) :
  Contains s " " = true -> has_whitespace s = true.
Proof.
  unfold has_whitespace.
  induction s as [|c s IH]; [discriminate|].
  change (Contains (String c s) " ")
    with (String.prefix " " (String c s) || Contains s " ").
  cbn [list_ascii_of_string existsb].
  intros H. apply orb_true_iff in H. destruct H as [H|H].
  - destruct (ascii_dec " " c) as [<-|Hne]; [reflexivity|].
    cbn [String.prefix] in H.
    destruct (ascii_dec " " c); [contradiction|discriminate].
  - rewrite (IH H). apply orb_true_r.
Qed.

Lemma Load_Store procs name info : Load (Store procs name info) name = Some info.
Proof.
  induction procs as [|[k v] procs IH]; simpl.
  - unfold eqb_string. rewrite String.eqb_refl. reflexivity.
  - destruct (eqb_string k name) eqn:E; simpl; rewrite E; [reflexivity|exact IH].
Qed.

Lemma Load_Delete procs name : Load (Delete procs name) name = None.
Proof.
  unfold Delete. induction procs as [|[k v] procs IH]; simpl; [reflexivity|].
  destruct (eqb_string k name) eqn:E; simpl; [exact IH|].
  rewrite E. exact IH.
Qed.

Lemma fold_emit_processes {A} (f : A -> Event) (l : list A) :
  forall w,
    processes (fold_left (fun w x => emit w (f x)) l w) = processes w /\
    exists more,
      events (fold_left (fun w x => emit w (f x)) l w) = events w ++ more.
Proof.
  induction l as [|x l IH]; intros w; simpl.
  - split; [reflexivity|]. exists []. rewrite app_nil_r. reflexivity.
  - destruct (IH (emit w (f x))) as [Hp [more Hm]].
    split; [exact Hp|]. exists (f x :: more). rewrite Hm. simpl.
    rewrite <- app_assoc. reflexivity.
Qed.

(** killProcessByPort leaves the registry alone and only adds events *)
Lemma killProcessByPort_frame port w :
  processes (killProcessByPort lib os port w).2 = processes w /\
  exists more, events (killProcessByPort lib os port w).2 = events w ++ more.
Proof.
  unfold killProcessByPort, isPortInUse.
  destruct (negb (dial_ok os (events w) ("127.0.0.1:" +:+ Itoa port))).
  { simpl. split; [reflexivity|]. eauto. }
  destruct (run_command os _ "netstat" _) as [output|].
  2:{ simpl. split; [reflexivity|]. rewrite <- app_assoc. eauto. }
  destruct (netstat_pids _ port []) as [|pid pids] eqn:Epids.
  { simpl. split; [reflexivity|]. rewrite <- app_assoc. eauto. }
  cbn [snd].
  set (w0 := emit (emit w _) _).
  assert (Hfold : forall l w1,
    fold_left (fun w pid0 =>
                 if is_windows lib os
                 then emit w (EvExec "taskkill" ["/F"; "/PID"; Itoa pid0])
                 else emit w (EvExec "kill" ["-9"; Itoa pid0])) l w1 =
    fold_left (fun w pid0 =>
                 emit w (if is_windows lib os
                         then EvExec "taskkill" ["/F"; "/PID"; Itoa pid0]
                         else EvExec "kill" ["-9"; Itoa pid0])) l w1).
  { induction l as [|x l IH]; intros w1; simpl; [reflexivity|].
    destruct (is_windows lib os); apply IH. }
  rewrite Hfold.
  destruct (fold_emit_processes
              (fun pid0 => if is_windows lib os
                           then EvExec "taskkill" ["/F"; "/PID"; Itoa pid0]
                           else EvExec "kill" ["-9"; Itoa pid0])
              (pid :: pids) w0) as [Hp [more Hm]].
  cbn [emit processes events]. split; [exact Hp|].
  rewrite Hm. subst w0. cbn [emit events].
  rewrite <- !app_assoc. eauto.
Qed.

(** KillProcess on a registered child: the context is cancelled first and
    the entry is gone at the end *)
Lemma KillProcess_registered name info w :
  Load (processes w) name = Some info ->
  (KillProcess lib os name w).1 = None /\
  processes (KillProcess lib os name w).2 = Delete (processes w) name /\
  exists more,
    events (KillProcess lib os name w).2 = events w ++ EvCancel (Pid info) :: more.
Proof.
  intros Hload. unfold KillProcess. rewrite Hload. cbn [fst snd].
  split; [reflexivity|].
  destruct (is_windows lib os).
  - destruct (run_command os _ "taskkill" _) as [out|].
    + cbn [emit processes events]. split; [reflexivity|].
      rewrite <- !app_assoc. eauto.
    + destruct (0 <? HealthCheckPort info).
      * match goal with
        | |- context [killProcessByPort lib os ?p ?w0] =>
            destruct (killProcessByPort_frame p w0) as [Hp [more Hm]]
        end.
        cbn [emit processes events] in *. rewrite Hp, Hm.
        split; [reflexivity|]. rewrite <- !app_assoc. eauto.
      * cbn [emit processes events]. split; [reflexivity|].
        rewrite <- !app_assoc. eauto.
  - cbn [emit processes events]. split; [reflexivity|].
    rewrite <- !app_assoc. eauto.
Qed.

(** a successful StartProcess has run cmd.Start and registered the child *)
Lemma StartProcess_registers name command args env workDir healthCheckURL w
    processInfo w1 :
  StartProcess lib os name command args env workDir healthCheckURL w =
    (inr processInfo, w1) ->
  GetProcess w1 name = Some processInfo /\
  In (EvStart command args (resolve_dir lib os command args workDir) env) (events w1).
Proof.
  unfold StartProcess.
  set (w0 := match GetProcess w name with Some _ => _ | None => w end).
  cbv zeta.
  destruct (StdoutPipe_error os (events w0)); [discriminate|].
  destruct (StderrPipe_error os (events w0)); [discriminate|].
  destruct (start_command os (events w0) command args _) as [err|pid];
    [discriminate|].
  intros H. inversion H; subst. clear H.
  unfold GetProcess. cbn [processes events emit].
  split; [apply Load_Store|].
  apply in_or_app. right. left. reflexivity.
Qed.

Lemma wrap64_small (z : Z) : - 2 ^ 63 <= z < 2 ^ 63 -> wrap64 z = z.
Proof.
  intros H. unfold wrap64. rewrite Z.mod_small; lia.
Qed.

Lemma requested_timeout_small (ts : Z) :
  - 9223372036 <= ts <= 9223372036 -> requested_timeout ts = ts * Second.
Proof.
  intros H. unfold requested_timeout, Duration_mul, Second.
  apply wrap64_small. lia.
Qed.

Lemma wrap64_zero (z : Z) : wrap64 z = 0 <-> Z.divide (2 ^ 64) z.
Proof.
  unfold wrap64. split.
  - intros H. exists ((z + 2 ^ 63) / 2 ^ 64).
    pose proof (Z.div_mod (z + 2 ^ 63) (2 ^ 64) ltac:(lia)) as Hd. lia.
  - intros [k ->].
    replace (k * 2 ^ 64 + 2 ^ 63) with (2 ^ 63 + k * 2 ^ 64) by lia.
    rewrite Z_mod_plus_full, Z.mod_small; lia.
Qed.

(** the branch [if timeout == 0] is taken exactly on the multiples of
    2^55: 10^9 = 2^9 * 5^9, and 5^9 is odd *)
Lemma default_applies_divide (ts : Z) :
  default_applies ts = true <-> Z.divide (2 ^ 55) ts.
Proof.
  unfold default_applies, requested_timeout, Duration_mul, Second.
  rewrite Z.eqb_eq, wrap64_zero. split.
  - intros [q Hq].
    apply (Z.gauss (2 ^ 55) (5 ^ 9) ts); [|reflexivity].
    exists q. lia.
  - intros [k ->]. exists (k * 5 ^ 9). lia.
Qed.

Lemma ctx_done_le (timeout : Duration) (env : WaitEnv) : ctx_done timeout env <= timeout.
Proof.
  unfold ctx_done. destruct (ctx_cancelled env); lia.
Qed.

(** with a deadline that has already passed, the first select proceeds
    at once on ctx.Done *)
Lemma wait_loop_expired text timeout env fuel :
  timeout < 0 ->
  0 <= first_select env < 500 * Millisecond ->
  match exit_at env with
  | Some (e, _) => first_select env < e
  | None => True
  end ->
  (0 < fuel)%nat ->
  wait_loop text timeout env fuel O O (first_select env) =
  Some (Some text, first_select env).
Proof.
  intros Ht Hf He Hfuel. destruct fuel as [|fuel]; [lia|].
  assert (Hready : ready_cases timeout env O (first_select env) = [CaseDone]).
  { unfold ready_cases.
    destruct (timeout <=? first_select env) eqn:E1; [|apply Z.leb_gt in E1; lia].
    destruct (500 * Millisecond * (Z.of_nat 0 + 1) <=? first_select env) eqn:E2;
      [apply Z.leb_le in E2; unfold Millisecond in *; lia|].
    destruct (exit_at env) as [[e x]|]; [|reflexivity].
    destruct (e <=? first_select env) eqn:E3; [apply Z.leb_le in E3; lia|].
    reflexivity. }
  cbn [wait_loop]. unfold wake_time. rewrite Hready. rewrite Hready.
  cbn [length]. rewrite Nat.mod_1_r. reflexivity.
Qed.

End Lifecycle.

(** C4, as amended: a start_process call whose command contains a space
    (U+0020) returns isError = true with the message that shows the
    command/args shape, and does nothing else: the registry is the same
    and nothing has been run, dialled or killed. *)
Theorem command_with_space_rejected (lib : GoLib) (os : OS) (fuel : nat)
    (args : startProcessArgs.t) (w : World) :
  Contains (startProcessArgs.Command args) " " = true ->
  has_whitespace (startProcessArgs.Command args) = true /\
  exists r,
    start_process lib os fuel args w = Some (r, w) /\
    IsError r = true /\
    Content r = [command_shape_message (startProcessArgs.Command args)] /\
    Contains (command_shape_message (startProcessArgs.Command args))
      ("command: " +:+ dquote +:+ "go" +:+ dquote) = true /\
    Contains (command_shape_message (startProcessArgs.Command args))
      ("args: [" +:+ dquote +:+ "run" +:+ dquote +:+ ", " +:+
       dquote +:+ "." +:+ dquote +:+ "]") = true.
Proof.
  intros Hsp. split; [apply Contains_space_whitespace; exact Hsp|].
  unfold start_process. rewrite Hsp.
  eexists. split; [reflexivity|]. split; [reflexivity|]. split; [reflexivity|].
  unfold command_shape_message.
  split; apply Contains_app_r, Contains_app_r; vm_compute; reflexivity.
Qed.

Lemma command_with_space_rejected_witness :
  let args := startProcessArgs.mk "svc" "go run ." [] "" []
                "http://localhost:8081/health" 0 "" in
  Contains (startProcessArgs.Command args) " " = true /\
  exists r,
    start_process Demo.lib (Demo.os "" (HTTPResponse 200 "pong") false) 1 args demo_world
    = Some (r, demo_world) /\
    IsError r = true.
Proof.
  intros args.
  assert (Hsp : Contains (startProcessArgs.Command args) " " = true) by reflexivity.
  split; [exact Hsp|].
  destruct (command_with_space_rejected Demo.lib
              (Demo.os "" (HTTPResponse 200 "pong") false) 1 args demo_world Hsp)
    as (_ & r & Hr & He & _).
  exists r. split; assumption.
Defined.

(** C4, as the specification words it, fails on a command with a tab:
    the handler goes on, kills the registered child of the same name,
    probes the port and runs cmd.Start. *)
Lemma command_with_tab_accepted :
  let args := startProcessArgs.mk "svc" ("go" +:+ tab +:+ "run") [] "" []
                "http://localhost:8081/health" 0 "" in
  has_whitespace (startProcessArgs.Command args) = true /\
  map fst (processes demo_world) = ["svc"] /\
  events demo_world = [] /\
  (start_process Demo.lib (Demo.os "" (HTTPResponse 200 "pong") false) 1 args demo_world
   ≫= fun rw => Some (map fst (processes rw.2), events rw.2)) =
  Some ([],
        [EvCancel 4242; EvProcessKill 4242; EvAwaitWaitDone 4242 (3 * Second);
         EvSleep (1 * Second); EvDial "127.0.0.1:8081";
         EvStart ("go" +:+ tab +:+ "run") [] "/home/dev" []]).
Proof. vm_compute. repeat split; reflexivity. Qed.

(** C8 does not hold of the source: which commands are run follows the
    environment variable OS, read when KillProcess and killProcessByPort
    run.  On one machine, with OS=Windows_NT the child is killed with
    taskkill and the port is reaped with netstat -ano and taskkill; with
    OS unset the child gets Process.Kill and the port is reaped with
    netstat -tulnp and kill -9. *)
Lemma kill_strategy_follows_OS_variable :
  let http := HTTPResponse 200 "pong" in
  events (KillProcess Demo.lib (Demo.os "Windows_NT" http true) "svc" demo_world).2 =
    [EvCancel 4242; EvExec "taskkill" ["/F"; "/T"; "/PID"; "4242"];
     EvAwaitWaitDone 4242 (3 * Second)] /\
  events (KillProcess Demo.lib (Demo.os "" http true) "svc" demo_world).2 =
    [EvCancel 4242; EvProcessKill 4242; EvAwaitWaitDone 4242 (3 * Second)] /\
  events (killProcessByPort Demo.lib (Demo.os "Windows_NT" http true) 8081 demo_world).2 =
    [EvDial "127.0.0.1:8081"; EvExec "netstat" ["-ano"];
     EvExec "taskkill" ["/F"; "/PID"; "5150"]; EvSleep (500 * Millisecond)] /\
  events (killProcessByPort Demo.lib (Demo.os "" http true) 8081 demo_world).2 =
    [EvDial "127.0.0.1:8081"; EvExec "netstat" ["-tulnp"];
     EvExec "kill" ["-9"; "5150"]; EvSleep (500 * Millisecond)].
Proof. vm_compute. repeat split; reflexivity. Qed.

(** C10, as amended: the default of 60 s is taken exactly when the
    64-bit product timeout_seconds * 10^9 is 0, which is when
    timeout_seconds is a multiple of 2^55, 0 among them.  For every
    strictly negative timeout_seconds whose product is negative, as it
    is for every value from -9223372036 to -1, where the product does
    not wrap around, no default is substituted: the readiness wait runs
    under a deadline that has already passed, so that, the child having
    been started and registered, the first select (reached before the
    first tick and before the child has reported its exit, when no
    other case is ready) proceeds at once on ctx.Done; start_process
    reports the readiness timeout with isError = true and KillProcess
    cancels, kills and unregisters the child. *)
Theorem negative_timeout_expires_at_once (lib : GoLib) (os : OS) (fuel : nat)
    (args : startProcessArgs.t) (w : World) (processInfo : ProcessInfo) (w1 : World) :
  let ts := startProcessArgs.TimeoutSeconds args in
  let name := startProcessArgs.Name args in
  ts < 0 ->
  requested_timeout ts < 0 ->
  Contains (startProcessArgs.Command args) " " = false ->
  StartProcess lib os name (startProcessArgs.Command args)
    (startProcessArgs.Args args) (startProcessArgs.Env args)
    (startProcessArgs.WorkDir args) (startProcessArgs.HealthCheckURL args)
    (cleanup lib os args w) = (inr processInfo, w1) ->
  let env := readiness os (events w1) in
  0 <= first_select env < 500 * Millisecond ->
  match exit_at env with
  | Some (e, _) => first_select env < e
  | None => True
  end ->
  (0 < fuel)%nat ->
  (forall ts', default_applies ts' = true <-> Z.divide (2 ^ 55) ts') /\
  (forall ts', - 9223372036 <= ts' < 0 ->
               requested_timeout ts' = ts' * Second /\ requested_timeout ts' < 0) /\
  default_applies ts = false /\
  effective_timeout ts = requested_timeout ts /\
  health_check os fuel (effective_timeout ts) processInfo w1 =
    Some (Some (if 0 <? HealthCheckPort processInfo
                then "等待端口就绪超时" else "等待 HTTP 服务就绪超时"),
          first_select env) /\
  exists r,
    start_process lib os fuel args w = Some (r, (KillProcess lib os name w1).2) /\
    IsError r = true /\
    GetProcess w1 name = Some processInfo /\
    GetProcess (KillProcess lib os name w1).2 name = None /\
    exists more,
      events (KillProcess lib os name w1).2 =
      events w1 ++ EvCancel (Pid processInfo) :: more.
Proof.
  intros ts name Hts Hprod Hcmd Hstart env Hfirst Hexit Hfuel.
  assert (Hsmall : forall ts', - 9223372036 <= ts' < 0 ->
            requested_timeout ts' = ts' * Second /\ requested_timeout ts' < 0).
  { intros ts' Hr. rewrite (requested_timeout_small ts') by lia.
    split; [reflexivity|]. unfold Second. lia. }
  assert (Hno : default_applies ts = false).
  { unfold default_applies. apply Z.eqb_neq. lia. }
  assert (Heff : effective_timeout ts = requested_timeout ts).
  { unfold effective_timeout. rewrite Hno. reflexivity. }
  assert (Hneg : effective_timeout ts < 0) by (rewrite Heff; exact Hprod).
  assert (Hwait : health_check os fuel (effective_timeout ts) processInfo w1 =
    Some (Some (if 0 <? HealthCheckPort processInfo
                then "等待端口就绪超时" else "等待 HTTP 服务就绪超时"),
          first_select env)).
  { unfold health_check, waitForPortReadyWithExitCheck, waitForHTTPReadyWithExitCheck.
    fold env.
    destruct (0 <? HealthCheckPort processInfo);
      apply wait_loop_expired; try assumption.
    pose proof (ctx_done_le (effective_timeout ts) env). lia. }
  destruct (StartProcess_registers lib os _ _ _ _ _ _ _ _ _ Hstart) as [Hreg _].
  destruct (KillProcess_registered lib os name processInfo w1 Hreg) as (_ & Hprocs & Hev).
  split; [exact default_applies_divide|]. split; [exact Hsmall|].
  split; [exact Hno|]. split; [exact Heff|].
  split; [exact Hwait|].
  unfold start_process. rewrite Hcmd. fold ts name. rewrite Hstart, Hwait.
  eexists. split; [reflexivity|]. split; [reflexivity|].
  split; [exact Hreg|]. split; [|exact Hev].
  unfold GetProcess. rewrite Hprocs. apply Load_Delete.
Qed.

Lemma negative_timeout_expires_at_once_witness :
  let args := startProcessArgs.mk "api" "go" ["run"; "."] "" []
                "http://localhost:8081/health" (-5) "" in
  let os := Demo.os "" (HTTPResponse 200 "pong") false in
  (startProcessArgs.TimeoutSeconds args < 0 /\
   requested_timeout (startProcessArgs.TimeoutSeconds args) < 0 /\
   Contains (startProcessArgs.Command args) " " = false) /\
  exists r w',
    start_process Demo.lib os 1 args demo_world = Some (r, w') /\
    IsError r = true /\
    GetProcess w' "api" = None.
Proof.
  intros args os.
  assert (Hts : startProcessArgs.TimeoutSeconds args < 0) by (simpl; lia).
  assert (Hprod : requested_timeout (startProcessArgs.TimeoutSeconds args) < 0)
    by reflexivity.
  assert (Hcmd : Contains (startProcessArgs.Command args) " " = false)
    by reflexivity.
  split; [repeat split; assumption|].
  destruct (StartProcess Demo.lib os (startProcessArgs.Name args)
              (startProcessArgs.Command args) (startProcessArgs.Args args)
              (startProcessArgs.Env args) (startProcessArgs.WorkDir args)
              (startProcessArgs.HealthCheckURL args)
              (cleanup Demo.lib os args demo_world))
    as [[err|processInfo] w1] eqn:Hstart;
    [vm_compute in Hstart; discriminate|].
  assert (Hfirst : 0 <= first_select (readiness os (events w1)) < 500 * Millisecond)
    by (simpl; unfold Millisecond; lia).
  assert (Hexit : match exit_at (readiness os (events w1)) with
                  | Some (e, _) => first_select (readiness os (events w1)) < e
                  | None => True
                  end) by exact I.
  destruct (negative_timeout_expires_at_once Demo.lib os 1 args demo_world
              processInfo w1 Hts Hprod Hcmd Hstart Hfirst Hexit (Nat.lt_0_1))
    as (_ & _ & _ & _ & _ & r & Hr & He & _ & Hgone & _).
  exists r, (KillProcess Demo.lib os (startProcessArgs.Name args) w1).2.
  split; [exact Hr|]. split; [exact He|exact Hgone].
Defined.

(** C10, as the implicit claim words it, fails on a negative
    timeout_seconds whose product with 10^9 wraps around.  When it wraps
    to 0, as for -2^55, the default of 60 s is substituted and the wait
    lasts 60 s; when it wraps to a positive duration, as for
    -9223372037, the deadline lies some 292 years ahead.  And a deadline
    that has passed does not by itself decide the first select: with
    timeout_seconds = -5, a child whose exit has already been delivered
    can be reported as exited instead of as timed out, and a first
    select that is reached after the first tick can take the tick,
    find the service ready and report success, the child being kept. *)
Lemma negative_timeout_takes_default :
  let ts := - 2 ^ 55 in
  let os := Demo.os "" (HTTPResponse 200 "pong") false in
  let args := startProcessArgs.mk "api" "go" ["run"; "."] "" []
                "http://localhost:8081/health" (-5) "" in
  (min_int64 <= ts < 0) /\
  default_applies ts = true /\
  effective_timeout ts = 60 * Second /\
  waitForPortReadyWithExitCheck (effective_timeout ts) (readiness os []) 200 =
  Some (Some "等待端口就绪超时", 60 * Second) /\
  (min_int64 <= - 9223372037 < 0 /\
   effective_timeout (- 9223372037) = 9223372036709551616) /\
  effective_timeout (-5) = -5 * Second /\
  waitForPortReadyWithExitCheck (effective_timeout (-5)) Demo.exited_first 1 =
  Some (Some "进程异常退出: exit status 1", 1 * Millisecond) /\
  (start_process Demo.lib (Demo.with_readiness os Demo.late_select) 1 args demo_world
   ≫= fun rw => Some (IsError rw.1, map fst (processes rw.2))) =
  Some (false, ["svc"; "api"]).
Proof. vm_compute. repeat split; try reflexivity; discriminate. Qed.

(** * Further properties of the code *)

(** ** Strings *)

Section StringFacts.

Lemma append_cons (c : ascii) (a b : string) :
  String c a +:+ b = String c (a +:+ b).
Proof. reflexivity. Qed.

Lemma append_nil_r (s : string) : s +:+ "" = s.
Proof.
  induction s as [|c s IH]; [reflexivity|].
  rewrite append_cons, IH. reflexivity.
Qed.

Lemma append_assoc (a b c : string) : (a +:+ b) +:+ c = a +:+ (b +:+ c).
Proof.
  induction a as [|x a IH]; [reflexivity|].
  rewrite !append_cons, IH. reflexivity.
Qed.

Lemma length_append (a b : string) :
  String.length (a +:+ b) = (String.length a + String.length b)%nat.
Proof.
  induction a as [|x a IH]; [reflexivity|].
  rewrite append_cons. cbn [String.length]. rewrite IH. reflexivity.
Qed.

Lemma substring_0_length (a b : string) :
  String.substring 0 (String.length a) (a +:+ b) = a.
Proof.
  induction a as [|x a IH].
  - cbn. destruct b; reflexivity.
  - rewrite append_cons. cbn [String.length String.substring].
    rewrite IH. reflexivity.
Qed.

Lemma substring_skip (a b : string) (n : nat) :
  String.substring (String.length a) n (a +:+ b) = String.substring 0 n b.
Proof.
  induction a as [|x a IH]; [reflexivity|].
  rewrite append_cons. cbn [String.length String.substring]. exact IH.
Qed.

Lemma substring_0_all (s : string) : String.substring 0 (String.length s) s = s.
Proof.
  induction s as [|c s IH]; [reflexivity|].
  cbn [String.length String.substring]. rewrite IH. reflexivity.
Qed.

Lemma HasSuffix_append (a b : string) : HasSuffix (a +:+ b) b = true.
Proof.
  unfold HasSuffix. rewrite length_append.
  replace (String.length a + String.length b - String.length b)%nat
    with (String.length a) by lia.
  rewrite substring_skip, substring_0_all.
  unfold eqb_string. rewrite String.eqb_refl.
  rewrite andb_true_r. apply Nat.leb_le. lia.
Qed.

Lemma TrimSuffix_append (a b : string) : TrimSuffix (a +:+ b) b = a.
Proof.
  unfold TrimSuffix. rewrite HasSuffix_append. unfold slice_to.
  rewrite length_append.
  replace (String.length a + String.length b - String.length b)%nat
    with (String.length a) by lia.
  apply substring_0_length.
Qed.

End StringFacts.

(** ** The combined log and the ring *)

Section RingMore.

Lemma printed_cons (line : string) (lines : list string) :
  printed (line :: lines) = (line +:+ nl) +:+ printed lines.
Proof.
  unfold printed. cbn [map String.concat].
  destruct (map (fun line0 : string => line0 +:+ nl) lines) as [|x l] eqn:E.
  - cbn [String.concat]. rewrite append_nil_r. reflexivity.
  - reflexivity.
Qed.

Lemma processLogs_step_fields pi line now pi' :
  RingOK pi ->
  processLogs_step pi line now = Some pi' ->
  LogBuffer pi' = LogBuffer pi +:+ (line +:+ nl) /\
  logIndex pi' = (logIndex pi + 1) mod maxLogLines pi /\
  maxLogLines pi' = maxLogLines pi /\
  Name pi' = Name pi /\ Pid pi' = Pid pi /\
  HealthCheckURL pi' = HealthCheckURL pi /\
  HealthCheckPort pi' = HealthCheckPort pi.
Proof.
  intros (_ & _ & Hi). unfold processLogs_step.
  destruct (index (logLines pi) (logIndex pi)); [|discriminate].
  destruct (index (logTimes pi) (logIndex pi)); [|discriminate].
  destruct (maxLogLines pi =? 0); [discriminate|].
  intros H. inversion H; subst pi'. clear H. unfold set_ring.
  cbn [LogBuffer logIndex maxLogLines Name Pid HealthCheckURL HealthCheckPort].
  rewrite Z.rem_mod_nonneg by lia. repeat split; reflexivity.
Qed.

(** the scan returns only lines of written slots inside the window,
    whatever the order of the timestamps *)
Lemma scan_entries_in_window startTime now es :
  scan_entries startTime (Add now (500 * Millisecond)) es [] `sublist_of`
  map fst (List.filter (in_window startTime now) (reverse es)).
Proof.
  induction es as [|[line t] es IH]; [apply sublist_nil_l|].
  rewrite reverse_cons, List.filter_app, map_app.
  cbn [scan_entries List.filter]. unfold in_window at 2. cbn [snd].
  destruct (IsZero t) eqn:Ez; cbn [negb andb map].
  - rewrite app_nil_r. exact IH.
  - destruct (After t (Add startTime (-1 * Second)) &&
              Before t (Add now (500 * Millisecond))); cbn [map fst];
      destruct (Before t (Add startTime (-2 * Second))).
    + apply sublist_inserts_l. reflexivity.
    + rewrite scan_entries_app_logs. apply sublist_app; [exact IH|reflexivity].
    + apply sublist_nil_l.
    + rewrite app_nil_r. exact IH.
Qed.

Lemma GetRequestLog_scan_window (pi : ProcessInfo) (startTime now : Time) :
  RingOK pi ->
  exists lines,
    GetRequestLog pi startTime now = Some (Join lines nl) /\
    lines `sublist_of` map fst (List.filter (in_window startTime now) (chron pi)).
Proof.
  intros Hok.
  exists (scan_entries startTime (Add now (500 * Millisecond)) (scan_order pi) []).
  split.
  - unfold GetRequestLog. rewrite (GetRequestLog_lines_scan pi _ _ Hok). reflexivity.
  - pose proof (scan_entries_in_window startTime now (scan_order pi)) as H.
    unfold scan_order in H at 2. rewrite reverse_involutive in H. exact H.
Qed.

End RingMore.

(** X1: on a well-formed ring processLogs never panics: whatever the
    lines it receives, it appends each of them with a newline to
    LogBuffer, in order and without loss, advances logIndex by their
    number modulo maxLogLines, keeps the ring well formed and leaves the
    identity of the child alone. *)
Theorem processLogs_appends (pi : ProcessInfo) (ws : list (string * Time)) :
  RingOK pi ->
  exists pi',
    processLogs pi ws = Some pi' /\
    RingOK pi' /\
    LogBuffer pi' = LogBuffer pi +:+ printed (map fst ws) /\
    logIndex pi' = (logIndex pi + Z.of_nat (length ws)) mod maxLogLines pi /\
    maxLogLines pi' = maxLogLines pi /\
    Name pi' = Name pi /\ Pid pi' = Pid pi /\
    HealthCheckURL pi' = HealthCheckURL pi /\
    HealthCheckPort pi' = HealthCheckPort pi.
Proof.
  revert pi. induction ws as [|[line now] ws IH]; intros pi Hok.
  - exists pi. cbn [processLogs map length printed String.concat].
    rewrite append_nil_r, Z.add_0_r.
    destruct Hok as (Hl & Ht & Hi). rewrite Z.mod_small by lia.
    repeat split; try reflexivity; try assumption; lia.
  - destruct (processLogs_step_chron pi line now Hok) as (pi1 & Hs & Hok1 & _ & _).
    destruct (processLogs_step_fields pi line now pi1 Hok Hs)
      as (Hb1 & Hi1 & Hm1 & Hn1 & Hp1 & Hu1 & Hh1).
    destruct (IH pi1 Hok1) as (pi' & Hp & Hok' & Hb & Hi & Hm & Hn & Hpid & Hu & Hh).
    exists pi'. cbn [processLogs]. rewrite Hs.
    split; [exact Hp|]. split; [exact Hok'|].
    split; [|split; [|repeat split; congruence]].
    + rewrite Hb, Hb1. cbn [map fst]. rewrite printed_cons, append_assoc. reflexivity.
    + rewrite Hi, Hi1, Hm1. cbn [length].
      destruct Hok as (_ & _ & Hk).
      rewrite Zplus_mod_idemp_l. f_equal. lia.
Qed.

Lemma processLogs_appends_witness :
  RingOK demo_child /\
  exists pi',
    processLogs demo_child demo_writes = Some pi' /\
    logIndex pi' = 3 /\
    LogBuffer pi' = printed ["listening on :8081"; "GET /ping"; "200 OK"].
Proof.
  assert (Hok : RingOK demo_child) by apply newProcessInfo_blank.
  split; [exact Hok|].
  destruct (processLogs_appends demo_child demo_writes Hok)
    as (pi' & Hp & _ & Hb & Hi & _).
  exists pi'. split; [exact Hp|]. split; [rewrite Hi|rewrite Hb]; reflexivity.
Defined.

(** X2: whatever the order of the timestamps in the ring, GetRequestLog
    returns, and returns only lines of written slots whose timestamp
    lies strictly between startTime - 1 s and now + 500 ms, in the order
    of the slots from the oldest to the newest. *)
Theorem GetRequestLog_only_window (pi : ProcessInfo) (startTime now : Time) :
  RingOK pi ->
  exists lines,
    GetRequestLog pi startTime now = Some (Join lines nl) /\
    lines `sublist_of` map fst (List.filter (in_window startTime now) (chron pi)).
Proof.
  exact (GetRequestLog_scan_window pi startTime now).
Qed.

Lemma GetRequestLog_only_window_witness :
  RingOK busy_child /\
  exists lines,
    GetRequestLog busy_child (100 * Second) (101 * Second) = Some (Join lines nl).
Proof.
  assert (Hok : RingOK busy_child).
  { unfold busy_child.
    destruct (processLogs_chron
                (map (fun i : nat => (Demo.repeat_string 90 "x", 100 * Second + Z.of_nat i))
                     (seq 0 45)) demo_child
                (proj1 (newProcessInfo_blank _ _ _ _ _ _))) as (pi & Hp & Hok & _).
    rewrite Hp. exact Hok. }
  split; [exact Hok|].
  destruct (GetRequestLog_only_window busy_child (100 * Second) (101 * Second) Hok)
    as (lines & Hl & _).
  exists lines. exact Hl.
Defined.

(** X3: a child that has not written anything yet has an empty log
    window: on a ring without a written slot GetRequestLog returns the
    empty string, for every start time. *)
Theorem GetRequestLog_blank (pi : ProcessInfo) (startTime now : Time) :
  blank pi -> GetRequestLog pi startTime now = Some "".
Proof.
  intros Hb.
  destruct (GetRequestLog_scan_window pi startTime now (proj1 Hb)) as (lines & Hl & Hs).
  rewrite filter_none in Hs.
  - apply sublist_nil_r in Hs. subst lines. exact Hl.
  - eapply Forall_impl; [apply (blank_chron pi Hb)|].
    intros [l t] Ht. simpl in Ht. subst t. reflexivity.
Qed.

Lemma GetRequestLog_blank_witness :
  blank demo_child /\ GetRequestLog demo_child (100 * Second) (101 * Second) = Some "".
Proof.
  split; [apply newProcessInfo_blank|].
  apply GetRequestLog_blank, newProcessInfo_blank.
Defined.

(** ** Capturing the output *)

Section Capture.

Lemma no_newline_cons (c : ascii) (s : string) :
  no_newline (String c s) <-> Ascii.eqb c (ascii_of_nat 10) = false /\ no_newline s.
Proof.
  unfold no_newline. cbn [count_newlines].
  destruct (Ascii.eqb c (ascii_of_nat 10)); split; intros H.
  - discriminate.
  - destruct H; discriminate.
  - split; [reflexivity|exact H].
  - apply H.
Qed.

Lemma ReadString_line (line rest : string) :
  no_newline line ->
  ReadString (line +:+ nl +:+ rest) (ascii_of_nat 10) = Some (line +:+ nl, rest).
Proof.
  induction line as [|c line IH]; intros Hn; [reflexivity|].
  apply no_newline_cons in Hn. destruct Hn as [Hc Hn].
  rewrite !append_cons. cbn [ReadString]. rewrite Hc, (IH Hn). reflexivity.
Qed.

Lemma ReadString_EOF (pipe : string) :
  no_newline pipe -> ReadString pipe (ascii_of_nat 10) = None.
Proof.
  induction pipe as [|c pipe IH]; intros Hn; [reflexivity|].
  apply no_newline_cons in Hn. destruct Hn as [Hc Hn].
  cbn [ReadString]. rewrite Hc, (IH Hn). reflexivity.
Qed.

(** what ReadString returns ends with the first newline of the pipe *)
Lemma ReadString_inv (pipe line rest : string) :
  ReadString pipe (ascii_of_nat 10) = Some (line, rest) ->
  exists l, line = l +:+ nl /\ no_newline l /\ pipe = line +:+ rest.
Proof.
  revert line rest. induction pipe as [|c pipe IH]; intros line rest H;
    [discriminate|].
  cbn [ReadString] in H.
  destruct (Ascii.eqb c (ascii_of_nat 10)) eqn:Ec.
  - inversion H; subst. apply Ascii.eqb_eq in Ec. subst c.
    exists "". repeat split; reflexivity.
  - destruct (ReadString pipe (ascii_of_nat 10)) as [[l0 r0]|]; [|discriminate].
    inversion H; subst. destruct (IH l0 rest eq_refl) as (l & -> & Hn & ->).
    exists (String c l). split; [reflexivity|]. split; [|reflexivity].
    apply no_newline_cons. split; assumption.
Qed.

Lemma no_newline_substring (s : string) :
  no_newline s -> forall k, no_newline (String.substring 0 k s).
Proof.
  induction s as [|c s IH]; intros Hn k.
  - destruct k; reflexivity.
  - apply no_newline_cons in Hn. destruct Hn as [Hc Hn].
    destruct k as [|k]; [reflexivity|].
    cbn [String.substring]. apply no_newline_cons. split; [exact Hc|apply IH; exact Hn].
Qed.

Lemma no_newline_TrimSuffix (s suffix : string) :
  no_newline s -> no_newline (TrimSuffix s suffix).
Proof.
  intros Hn. unfold TrimSuffix. destruct (HasSuffix s suffix); [|exact Hn].
  unfold slice_to. apply no_newline_substring. exact Hn.
Qed.

End Capture.

(** X4: whatever bytes the pipe carries and whenever the channel is
    closed, every line that collectStdout and collectStderr offer to
    logChan is non-empty and free of newlines. *)
Theorem collect_lines_clean (closed : nat -> bool) (fuel n : nat) (pipe : string) :
  Forall (fun line => line <> "" /\ no_newline line) (collect closed fuel n pipe).
Proof.
  revert n pipe. induction fuel as [|fuel IH]; intros n pipe; [constructor|].
  cbn [collect].
  destruct (ReadString pipe (ascii_of_nat 10)) as [[line rest]|] eqn:E; [|constructor].
  destruct (ReadString_inv _ _ _ E) as (l & -> & Hn & _).
  rewrite TrimSuffix_append.
  destruct (eqb_string (TrimSuffix l (String (ascii_of_nat 13) "")) "") eqn:Ee;
    cbn [negb]; [apply IH|].
  destruct (closed n); [constructor|].
  constructor; [|apply IH].
  split; [apply eqb_string_false; exact Ee|].
  apply no_newline_TrimSuffix. exact Hn.
Qed.

(** X5: when the child prints lines, each followed by a newline, and
    then a tail without a newline, the collector offers the lines in
    order, each without one trailing carriage return, leaves the blank
    ones out and never offers the unterminated tail. *)
Theorem collect_printed (closed : nat -> bool) (lines : list string)
    (unterminated : string) (fuel : nat) :
  Forall no_newline lines ->
  no_newline unterminated ->
  (forall n, closed n = false) ->
  (length lines <= fuel)%nat ->
  collect closed fuel 0 (printed lines +:+ unterminated) =
  List.filter (fun line => negb (eqb_string line ""))
              (map (fun line => TrimSuffix line cr) lines).
Proof.
  intros Hl Ht Hc. generalize 0%nat as n. revert fuel.
  induction Hl as [|line lines Hline _ IH]; intros fuel n Hfuel.
  - cbn [printed map String.concat List.filter].
    change ("" +:+ unterminated) with unterminated.
    destruct fuel; [reflexivity|]. cbn [collect].
    rewrite (ReadString_EOF _ Ht). reflexivity.
  - destruct fuel as [|fuel]; [cbn [length] in Hfuel; lia|].
    rewrite printed_cons, !append_assoc. cbn [collect].
    rewrite (ReadString_line line _ Hline), TrimSuffix_append.
    cbn [map List.filter]. fold cr.
    destruct (eqb_string (TrimSuffix line cr) ""); cbn [negb].
    + apply IH. cbn [length] in Hfuel. lia.
    + rewrite Hc. f_equal. apply IH. cbn [length] in Hfuel. lia.
Qed.

Lemma collect_printed_witness :
  let lines := ["listening on :8081" +:+ cr; ""; "GET /ping"] in
  (Forall no_newline lines /\ no_newline "partial" /\
   (length lines <= 5)%nat) /\
  collect (fun _ => false) 5 0 (printed lines +:+ "partial") =
  ["listening on :8081"; "GET /ping"].
Proof.
  intros lines.
  assert (Hl : Forall no_newline lines) by (repeat constructor).
  assert (Hf : (length lines <= 5)%nat) by (simpl; lia).
  split; [split; [exact Hl|split; [reflexivity|exact Hf]]|].
  rewrite (collect_printed (fun _ => false) lines "partial" 5 Hl eq_refl
             (fun _ => eq_refl) Hf).
  reflexivity.
Defined.

(** X6: under any interleaving of non-blocking offers and receives,
    logChan never holds more than 1000 lines; the lines received and
    those still buffered are, in order, lines that were offered, none
    twice; and every offered line is received, buffered or counted as
    dropped. *)
Theorem logChan_bounded_in_order (ops : list ChanOp) :
  let ch := chan_run ops in
  (length (buffered ch) <= logChan_capacity)%nat /\
  (received ch ++ buffered ch) `sublist_of` offered ops /\
  length (offered ops) =
  (length (received ch) + length (buffered ch) + dropped ch)%nat.
Proof.
  induction ops as [|op ops IH] using rev_ind.
  - cbn. split; [unfold logChan_capacity; lia|]. split; [constructor|reflexivity].
  - unfold chan_run, offered in *. rewrite fold_left_app, omap_app.
    cbn [fold_left omap].
    set (ch := fold_left chan_op ops _) in *.
    cbn zeta in IH. destruct IH as (Hcap & Hsub & Hlen).
    destruct op as [line|]; cbn [chan_op omap list_omap].
    + destruct (length (buffered ch) <? logChan_capacity)%nat eqn:E;
        cbn [buffered received dropped].
      * apply Nat.ltb_lt in E. rewrite !length_app. cbn [length].
        split; [lia|]. split; [|lia].
        rewrite app_assoc. apply sublist_app; [exact Hsub|reflexivity].
      * rewrite length_app. cbn [length].
        split; [exact Hcap|]. split; [|lia].
        apply sublist_inserts_r. exact Hsub.
    + rewrite app_nil_r.
      destruct (buffered ch) as [|line rest] eqn:Eb; cbn [buffered received dropped].
      * rewrite Eb. split; [exact Hcap|]. split; [exact Hsub|exact Hlen].
      * rewrite length_app. cbn [length] in *.
        split; [lia|]. split; [|lia].
        rewrite <- app_assoc. exact Hsub.
Qed.

(** ** The registry, killing and reaping *)

Section Reaping.

Variables (lib : GoLib) (os : OS).

Lemma Load_Store_other procs name other info :
  other <> name -> Load (Store procs name info) other = Load procs other.
Proof.
  intros Hne. induction procs as [|[k v] procs IH]; cbn [Store Load].
  - destruct (eqb_string name other) eqn:E; [|reflexivity].
    apply eqb_string_true in E. congruence.
  - destruct (eqb_string k name) eqn:E; cbn [Load].
    + apply eqb_string_true in E. subst k.
      destruct (eqb_string name other) eqn:E2; [|reflexivity].
      apply eqb_string_true in E2. congruence.
    + rewrite IH. reflexivity.
Qed.

Lemma Load_Delete_other procs name other :
  other <> name -> Load (Delete procs name) other = Load procs other.
Proof.
  intros Hne. unfold Delete.
  induction procs as [|[k v] procs IH]; cbn [List.filter Load fst]; [reflexivity|].
  destruct (eqb_string k name) eqn:E; cbn [negb Load].
  - apply eqb_string_true in E. subst k.
    destruct (eqb_string name other) eqn:E2; [|exact IH].
    apply eqb_string_true in E2. congruence.
  - rewrite IH. reflexivity.
Qed.

Lemma netstat_pid_inv line port pid :
  netstat_pid line port = Some pid ->
  0 < pid /\
  Contains line (":" +:+ Itoa port) = true /\
  (Contains line "LISTENING" || Contains line "LISTEN") = true.
Proof.
  unfold netstat_pid.
  destruct (Contains line "LISTENING") eqn:E1, (Contains line "LISTEN") eqn:E2;
    cbn [negb andb orb]; try discriminate;
    (destruct (Contains line (":" +:+ Itoa port)); [|discriminate];
     destruct (5 <=? length (Fields line))%nat; [|discriminate];
     destruct (last (Fields line)) as [pidField|]; [|discriminate];
     destruct (Split pidField "/") as [|pidStr rest]; [discriminate|];
     destruct (Atoi (TrimSpace pidStr)) as [p ok];
     destruct ok; cbn [andb]; [|discriminate];
     destruct (0 <? p) eqn:Ep; [|discriminate];
     intros H; inversion H; subst; apply Z.ltb_lt in Ep; auto).
Qed.

Lemma netstat_pids_inv lines port :
  forall acc,
    NoDup acc -> Forall (fun pid => 0 < pid) acc ->
    NoDup (netstat_pids lines port acc) /\
    Forall (fun pid => 0 < pid) (netstat_pids lines port acc) /\
    (forall pid, In pid (netstat_pids lines port acc) ->
                 In pid acc \/
                 exists line, In line lines /\ netstat_pid line port = Some pid).
Proof.
  induction lines as [|line lines IH]; intros acc Hnd Hpos; cbn [netstat_pids].
  - split; [exact Hnd|]. split; [exact Hpos|]. auto.
  - destruct (netstat_pid line port) as [pid|] eqn:Ep.
    + destruct (existsb (Z.eqb pid) acc) eqn:Ex.
      * destruct (IH acc Hnd Hpos) as (H1 & H2 & H3).
        split; [exact H1|]. split; [exact H2|].
        intros q Hq. destruct (H3 q Hq) as [|(l & Hl & Hp)]; [auto|].
        right. exists l. split; [right; exact Hl|exact Hp].
      * assert (Hnotin : ~ In pid acc).
        { intros Hin. assert (existsb (Z.eqb pid) acc = true).
          { apply existsb_exists. exists pid. split; [exact Hin|apply Z.eqb_refl]. }
          congruence. }
        destruct (netstat_pid_inv _ _ _ Ep) as (Hp & _).
        destruct (IH (acc ++ [pid])) as (H1 & H2 & H3).
        { apply NoDup_app. split; [exact Hnd|]. split.
          - intros x Hx Hx'. apply list_elem_of_singleton in Hx'. subst x.
            apply Hnotin. apply list_elem_of_In. exact Hx.
          - apply NoDup_singleton. }
        { apply Forall_app. split; [exact Hpos|]. repeat constructor. exact Hp. }
        split; [exact H1|]. split; [exact H2|].
        intros q Hq. destruct (H3 q Hq) as [Hin|(l & Hl & Hq')].
        -- apply in_app_or in Hin. destruct Hin as [Hin|[<-|[]]]; [auto|].
           right. exists line. split; [left; reflexivity|exact Ep].
        -- right. exists l. split; [right; exact Hl|exact Hq'].
    + destruct (IH acc Hnd Hpos) as (H1 & H2 & H3).
      split; [exact H1|]. split; [exact H2|].
      intros q Hq. destruct (H3 q Hq) as [|(l & Hl & Hp)]; [auto|].
      right. exists l. split; [right; exact Hl|exact Hp].
Qed.

Lemma fold_kill_events (pids : list Z) :
  forall w,
    processes
      (fold_left (fun w pid =>
                    if is_windows lib os
                    then emit w (EvExec "taskkill" ["/F"; "/PID"; Itoa pid])
                    else emit w (EvExec "kill" ["-9"; Itoa pid])) pids w)
    = processes w /\
    events
      (fold_left (fun w pid =>
                    if is_windows lib os
                    then emit w (EvExec "taskkill" ["/F"; "/PID"; Itoa pid])
                    else emit w (EvExec "kill" ["-9"; Itoa pid])) pids w)
    = events w ++ map (kill_command lib os) pids.
Proof.
  induction pids as [|pid pids IH]; intros w; cbn [fold_left map].
  - rewrite app_nil_r. auto.
  - destruct (IH (if is_windows lib os
                  then emit w (EvExec "taskkill" ["/F"; "/PID"; Itoa pid])
                  else emit w (EvExec "kill" ["-9"; Itoa pid]))) as [Hp He].
    rewrite Hp, He. unfold kill_command at 2.
    destruct (is_windows lib os); cbn [emit processes events];
      rewrite <- app_assoc; auto.
Qed.

(** what killProcessByPort does, case by case *)
Lemma killProcessByPort_run port w :
  let address := "127.0.0.1:" +:+ Itoa port in
  let netstat_args := if is_windows lib os then ["-ano"] else ["-tulnp"] in
  let sent := events w ++ [EvDial address] in
  processes (killProcessByPort lib os port w).2 = processes w /\
  (if dial_ok os (events w) address then
     match run_command os sent "netstat" netstat_args with
     | None =>
         (killProcessByPort lib os port w).1 <> None /\
         events (killProcessByPort lib os port w).2 =
         sent ++ [EvExec "netstat" netstat_args]
     | Some output =>
         let pids := netstat_pids (Split output (ascii_of_nat 10)) port [] in
         match pids with
         | [] =>
             (killProcessByPort lib os port w).1 <> None /\
             events (killProcessByPort lib os port w).2 =
             sent ++ [EvExec "netstat" netstat_args]
         | _ =>
             (killProcessByPort lib os port w).1 = None /\
             events (killProcessByPort lib os port w).2 =
             sent ++ EvExec "netstat" netstat_args
                     :: map (kill_command lib os) pids ++ [EvSleep (500 * Millisecond)]
         end
     end
   else
     (killProcessByPort lib os port w).1 <> None /\
     events (killProcessByPort lib os port w).2 = sent).
Proof.
  intros address netstat_args sent.
  unfold killProcessByPort, isPortInUse. fold address.
  destruct (dial_ok os (events w) address); cbn [negb].
  2:{ cbn [fst snd emit processes events]. split; [reflexivity|].
      split; [discriminate|reflexivity]. }
  cbn [emit events processes]. fold netstat_args. fold sent.
  destruct (run_command os sent "netstat" netstat_args) as [output|].
  2:{ cbn [fst snd processes events]. split; [reflexivity|].
      split; [discriminate|reflexivity]. }
  destruct (netstat_pids (Split output (ascii_of_nat 10)) port []) as [|pid pids] eqn:E.
  { cbn [fst snd processes events]. split; [reflexivity|].
    split; [discriminate|reflexivity]. }
  cbn [fst snd].
  match goal with
  | |- context [fold_left ?f ?l ?w0] =>
      destruct (fold_kill_events l w0) as [Hp He]
  end.
  cbn [emit processes events] in *. rewrite Hp, He.
  split; [reflexivity|]. split; [reflexivity|].
  subst sent. rewrite <- !app_assoc. reflexivity.
Qed.

Lemma kill_command_quiet (pids : list Z) :
  existsb is_start_or_request (map (kill_command lib os) pids ++ [EvSleep (500 * Millisecond)])
  = false.
Proof.
  induction pids as [|pid pids IH]; [reflexivity|].
  cbn [map app existsb]. rewrite IH. unfold kill_command.
  destruct (is_windows lib os); reflexivity.
Qed.

(** the whole of what killProcessByPort does to the world *)
Lemma killProcessByPort_trace port w :
  processes (killProcessByPort lib os port w).2 = processes w /\
  exists more,
    events (killProcessByPort lib os port w).2 =
    events w ++ EvDial ("127.0.0.1:" +:+ Itoa port) :: more /\
    existsb is_start_or_request more = false /\
    ((killProcessByPort lib os port w).1 = None <-> existsb is_kill more = true) /\
    ((killProcessByPort lib os port w).1 = None ->
     exists pids,
       pids <> [] /\ NoDup pids /\
       more = EvExec "netstat" (if is_windows lib os then ["-ano"] else ["-tulnp"])
              :: map (kill_command lib os) pids ++ [EvSleep (500 * Millisecond)]) /\
    (dial_ok os (events w) ("127.0.0.1:" +:+ Itoa port) = false ->
     (killProcessByPort lib os port w).1 <> None /\ more = []).
Proof.
  destruct (killProcessByPort_run port w) as [Hp Hcases].
  split; [exact Hp|].
  assert (Hkill : forall pids,
    pids <> [] ->
    existsb is_kill (EvExec "netstat" (if is_windows lib os then ["-ano"] else ["-tulnp"])
                     :: map (kill_command lib os) pids ++ [EvSleep (500 * Millisecond)])
    = true).
  { intros [|pid pids] Hne; [congruence|].
    cbn [map app existsb is_kill]. unfold kill_command at 1.
    destruct (is_windows lib os); cbn [is_kill eqb_string]; reflexivity. }
  destruct (dial_ok os (events w) ("127.0.0.1:" +:+ Itoa port)).
  - destruct (run_command os _ "netstat" _) as [output|].
    + cbv zeta in Hcases.
      pose proof (netstat_pids_inv (Split output (ascii_of_nat 10)) port []
                    (NoDup_nil_2 : NoDup (@nil Z)) (List.Forall_nil _)) as (Hnd & _).
      destruct (netstat_pids (Split output (ascii_of_nat 10)) port []) as [|pid pids] eqn:E.
      * destruct Hcases as [Herr Hev].
        exists [EvExec "netstat" (if is_windows lib os then ["-ano"] else ["-tulnp"])].
        split; [rewrite Hev, <- app_assoc; reflexivity|].
        split; [reflexivity|].
        split; [|split; [intros H; congruence|intros H; discriminate]].
        split; [intros H; congruence|].
        destruct (is_windows lib os); discriminate.
      * destruct Hcases as [Hnil Hev].
        eexists. split; [rewrite Hev, <- app_assoc; reflexivity|].
        split; [cbn [existsb is_start_or_request orb]; apply kill_command_quiet|].
        split; [split; [intros _; apply Hkill; discriminate|intros _; exact Hnil]|].
        split; [|intros H; discriminate].
        intros _. exists (pid :: pids).
        split; [discriminate|]. split; [exact Hnd|reflexivity].
    + destruct Hcases as [Herr Hev].
      exists [EvExec "netstat" (if is_windows lib os then ["-ano"] else ["-tulnp"])].
      split; [rewrite Hev, <- app_assoc; reflexivity|].
      split; [reflexivity|].
      split; [|split; [intros H; congruence|intros H; discriminate]].
      split; [intros H; congruence|].
      destruct (is_windows lib os); discriminate.
  - destruct Hcases as [Herr Hev]. exists [].
    split; [rewrite Hev; reflexivity|].
    split; [reflexivity|].
    split; [split; [intros H; congruence|discriminate]|].
    split; [intros H; congruence|]. intros _. split; [exact Herr|reflexivity].
Qed.

(** KillProcess on a registered child *)
Lemma KillProcess_trace name info w :
  Load (processes w) name = Some info ->
  (KillProcess lib os name w).1 = None /\
  processes (KillProcess lib os name w).2 = Delete (processes w) name /\
  exists more,
    events (KillProcess lib os name w).2 = events w ++ EvCancel (Pid info) :: more /\
    existsb is_start_or_request more = false /\
    existsb is_kill more = true.
Proof.
  intros Hload. unfold KillProcess. rewrite Hload. cbn [fst snd].
  split; [reflexivity|].
  destruct (is_windows lib os).
  - destruct (run_command os _ "taskkill" _) as [out|].
    + cbn [emit processes events]. split; [reflexivity|].
      eexists. split; [rewrite <- !app_assoc; reflexivity|].
      split; reflexivity.
    + destruct (0 <? HealthCheckPort info).
      * match goal with
        | |- context [killProcessByPort lib os ?p ?w0] =>
            destruct (killProcessByPort_trace p w0) as [Hp (more & Hm & Hq & _)]
        end.
        cbn [emit processes events] in *. rewrite Hp, Hm.
        split; [reflexivity|].
        eexists. split; [rewrite <- !app_assoc; reflexivity|].
        cbn [app existsb is_start_or_request is_kill orb eqb_string].
        split; [|reflexivity].
        rewrite existsb_app, Hq. reflexivity.
      * cbn [emit processes events]. split; [reflexivity|].
        eexists. split; [rewrite <- !app_assoc; reflexivity|].
        split; reflexivity.
  - cbn [emit processes events]. split; [reflexivity|].
    eexists. split; [rewrite <- !app_assoc; reflexivity|].
    split; reflexivity.
Qed.

Lemma added_app (w w' : World) (more : list Event) :
  events w' = events w ++ more -> added w w' = more.
Proof.
  intros H. unfold added. rewrite H. apply drop_app_length.
Qed.

End Reaping.

(** X7: the PIDs that killProcessByPort takes from the output of netstat
    are pairwise distinct and strictly positive, and each comes from a
    line that mentions :port and LISTEN or LISTENING: no PID is signalled
    twice, and PID 0 or a negative PID never. *)
Theorem netstat_pids_distinct_positive (output : string) (port : Z) :
  let pids := netstat_pids (Split output (ascii_of_nat 10)) port [] in
  NoDup pids /\
  Forall (fun pid => 0 < pid) pids /\
  (forall pid, In pid pids ->
     exists line,
       In line (Split output (ascii_of_nat 10)) /\
       netstat_pid line port = Some pid /\
       Contains line (":" +:+ Itoa port) = true /\
       (Contains line "LISTENING" || Contains line "LISTEN") = true).
Proof.
  intros pids.
  destruct (netstat_pids_inv (Split output (ascii_of_nat 10)) port []
              (NoDup_nil_2 : NoDup (@nil Z)) (List.Forall_nil _)) as (H1 & H2 & H3).
  split; [exact H1|]. split; [exact H2|].
  intros pid Hin. destruct (H3 pid Hin) as [[]|(line & Hl & Hp)].
  exists line. split; [exact Hl|]. split; [exact Hp|].
  destruct (netstat_pid_inv _ _ _ Hp) as (_ & Hc & Hs). auto.
Qed.

(** X8: killProcessByPort never touches the registry; it returns nil
    exactly when it has run a kill command, and then it has run netstat
    once, one kill command per PID found, in order, and slept 500 ms.
    When the port does not accept a connection it returns an error
    after the dial alone: no external command is run. *)
Theorem killProcessByPort_outcome (lib : GoLib) (os : OS) (port : Z)
    (w : World) :
  let r := killProcessByPort lib os port w in
  processes r.2 = processes w /\
  (exists more,
      events r.2 = events w ++ EvDial ("127.0.0.1:" +:+ Itoa port) :: more /\
      (r.1 = None <-> existsb is_kill more = true) /\
      (r.1 = None ->
       exists pids,
         pids <> [] /\ NoDup pids /\
         more = EvExec "netstat" (if is_windows lib os then ["-ano"] else ["-tulnp"])
                :: map (kill_command lib os) pids ++ [EvSleep (500 * Millisecond)]) /\
      (dial_ok os (events w) ("127.0.0.1:" +:+ Itoa port) = false ->
       r.1 <> None /\ more = [])).
Proof.
  intros r. subst r.
  destruct (killProcessByPort_trace lib os port w)
    as [Hp (more & Hev & _ & Hiff & Hnil & Hfree)].
  split; [exact Hp|]. exists more. auto.
Qed.

Section Handlers.

Variables (lib : GoLib) (os : OS).

Lemma KillProcess_effect (name : string) (w : World) :
  let r := KillProcess lib os name w in
  GetProcess r.2 name = None /\
  (forall other, other <> name -> GetProcess r.2 other = GetProcess w other) /\
  (r.1 = None <-> GetProcess w name <> None) /\
  (GetProcess w name = None -> r.2 = w) /\
  (KillProcess lib os name r.2).1 <> None /\
  exists more,
    events r.2 = events w ++ more /\ existsb is_start_or_request more = false.
Proof.
  intros r. subst r. unfold GetProcess.
  destruct (Load (processes w) name) as [info|] eqn:Hload.
  - destruct (KillProcess_trace lib os name info w Hload)
      as (Hnil & Hp & more & Hev & Hq & _).
    assert (Hgone : Load (processes (KillProcess lib os name w).2) name = None).
    { rewrite Hp. apply Load_Delete. }
    split; [exact Hgone|].
    split; [intros other Hne; rewrite Hp; apply Load_Delete_other; exact Hne|].
    split; [split; [discriminate|intros _; exact Hnil]|].
    split; [discriminate|].
    split.
    + unfold KillProcess at 1. rewrite Hgone. discriminate.
    + exists (EvCancel (Pid info) :: more). split; [exact Hev|exact Hq].
  - unfold KillProcess. rewrite Hload. cbn [fst snd]. rewrite Hload.
    split; [reflexivity|]. split; [reflexivity|].
    split; [split; [discriminate|congruence]|].
    split; [reflexivity|]. split; [discriminate|].
    exists []. rewrite app_nil_r. split; reflexivity.
Qed.

Lemma filter_quiet {A} (f : A -> bool) (l : list A) :
  existsb f l = false -> List.filter f l = [].
Proof.
  induction l as [|x l IH]; [reflexivity|].
  cbn [existsb List.filter]. destruct (f x); [discriminate|]. exact IH.
Qed.

Lemma KillProcessByHealthCheckURL_frame (healthCheckURL : string) (w : World) :
  processes (KillProcessByHealthCheckURL lib os healthCheckURL w).2 = processes w /\
  exists more,
    events (KillProcessByHealthCheckURL lib os healthCheckURL w).2 = events w ++ more /\
    existsb is_start_or_request more = false.
Proof.
  unfold KillProcessByHealthCheckURL.
  destruct (extractPortFromURL lib healthCheckURL) as [port|].
  2:{ cbn [snd]. split; [reflexivity|]. exists []. rewrite app_nil_r. auto. }
  unfold isPortInUse. cbv beta iota zeta.
  destruct (dial_ok os (events w) _); cbn [negb].
  2:{ cbn [snd emit processes events]. split; [reflexivity|]. eexists. split; reflexivity. }
  match goal with
  | |- context [killProcessByPort lib os port ?w0] =>
      destruct (killProcessByPort_trace lib os port w0) as [Hp (more & Hm & Hq & _)]
  end.
  cbn [emit processes events] in *. rewrite Hp, Hm.
  split; [reflexivity|].
  eexists. split; [rewrite <- app_assoc; reflexivity|].
  cbn [app existsb is_start_or_request orb]. exact Hq.
Qed.

(** what the handler of start_process does before it calls StartProcess *)
Lemma cleanup_frame (args : startProcessArgs.t) (w : World) :
  GetProcess (cleanup lib os args w) (startProcessArgs.Name args) = None /\
  (forall other, other <> startProcessArgs.Name args ->
                 GetProcess (cleanup lib os args w) other = GetProcess w other) /\
  exists more,
    events (cleanup lib os args w) = events w ++ more /\
    existsb is_start_or_request more = false.
Proof.
  unfold cleanup.
  set (w0 := match GetProcess w (startProcessArgs.Name args) with
             | Some _ => _
             | None => w
             end).
  assert (H0 : GetProcess w0 (startProcessArgs.Name args) = None /\
               (forall other, other <> startProcessArgs.Name args ->
                              GetProcess w0 other = GetProcess w other) /\
               exists more, events w0 = events w ++ more /\
                            existsb is_start_or_request more = false).
  { subst w0. destruct (GetProcess w (startProcessArgs.Name args)) eqn:E.
    - destruct (KillProcess_effect (startProcessArgs.Name args) w)
        as (Hgone & Hother & _ & _ & _ & more & Hev & Hq).
      unfold GetProcess in *. cbn [emit processes events].
      split; [exact Hgone|]. split; [exact Hother|].
      exists (more ++ [EvSleep (1 * Second)]).
      split; [rewrite Hev, <- app_assoc; reflexivity|].
      rewrite existsb_app, Hq. reflexivity.
    - split; [exact E|]. split; [reflexivity|].
      exists []. rewrite app_nil_r. auto. }
  destruct H0 as (Hgone & Hother & more & Hev & Hq).
  destruct (KillProcessByHealthCheckURL_frame (startProcessArgs.HealthCheckURL args) w0)
    as [Hp (more' & Hev' & Hq')].
  unfold GetProcess in *. rewrite Hp.
  split; [exact Hgone|]. split; [exact Hother|].
  exists (more ++ more'). split; [rewrite Hev', Hev, <- app_assoc; reflexivity|].
  rewrite existsb_app, Hq, Hq'. reflexivity.
Qed.

Lemma StartProcess_effect (name command : string)
    (args : list string) (env : list (string * string))
    (workDir healthCheckURL : string) (w : World) :
  let r := StartProcess lib os name command args env workDir healthCheckURL w in
  let before :=
    events w ++
    match GetProcess w name with
    | Some oldInfo => [EvAwaitWaitDone (Pid oldInfo) (2 * Second)]
    | None => []
    end in
  (forall other, other <> name -> GetProcess r.2 other = GetProcess w other) /\
  events r.2 =
    before ++
    (if pipes_created os before
     then [EvStart command args (resolve_dir lib os command args workDir) env]
     else []) /\
  (forall err, StdoutPipe_error os before = Some err ->
               r.1 = inl ("创建 stdout 管道失败: " +:+ err)) /\
  (StdoutPipe_error os before = None ->
   forall err, StderrPipe_error os before = Some err ->
               r.1 = inl ("创建 stderr 管道失败: " +:+ err)) /\
  match r.1 with
  | inl _ => GetProcess r.2 name = None
  | inr processInfo =>
      pipes_created os before = true /\
      GetProcess r.2 name = Some processInfo /\
      Name processInfo = name /\
      HealthCheckURL processInfo = healthCheckURL /\
      HealthCheckPort processInfo = default 0 (extractPortFromURL lib healthCheckURL) /\
      LogBuffer processInfo = "" /\
      blank processInfo
  end.
Proof.
  intros r before. subst r. unfold StartProcess.
  set (w0 := match GetProcess w name with Some _ => _ | None => w end).
  assert (Hother : forall other, other <> name ->
                                 Load (processes w0) other = Load (processes w) other).
  { intros other Hne. subst w0. destruct (GetProcess w name); [|reflexivity].
    cbn [emit processes events]. apply Load_Delete_other. exact Hne. }
  assert (Hname : Load (processes w0) name = None).
  { subst w0. destruct (GetProcess w name) eqn:E; [|exact E].
    cbn [emit processes events]. apply Load_Delete. }
  assert (Hev : events w0 = before).
  { subst w0 before. destruct (GetProcess w name); [reflexivity|].
    rewrite app_nil_r. reflexivity. }
  cbv zeta. unfold pipes_created. rewrite <- Hev.
  destruct (StdoutPipe_error os (events w0)) as [e1|].
  { cbn [fst snd]. unfold GetProcess.
    split; [exact Hother|]. split; [rewrite app_nil_r; reflexivity|].
    split; [intros err H; inversion H; reflexivity|].
    split; [discriminate|exact Hname]. }
  destruct (StderrPipe_error os (events w0)) as [e2|].
  { cbn [fst snd]. unfold GetProcess.
    split; [exact Hother|]. split; [rewrite app_nil_r; reflexivity|].
    split; [discriminate|].
    split; [intros _ err H; inversion H; reflexivity|exact Hname]. }
  destruct (start_command os (events w0) command args _) as [err|pid];
    cbn [fst snd emit processes events]; unfold GetProcess; cbn [processes events].
  - split; [exact Hother|]. split; [reflexivity|].
    split; [discriminate|]. split; [discriminate|exact Hname].
  - split; [intros other Hne; rewrite Load_Store_other by exact Hne; apply Hother; exact Hne|].
    split; [reflexivity|].
    split; [discriminate|]. split; [discriminate|].
    split; [reflexivity|].
    split; [apply Load_Store|].
    split; [reflexivity|]. split; [reflexivity|].
    split; [destruct (extractPortFromURL lib healthCheckURL); reflexivity|].
    split; [reflexivity|apply newProcessInfo_blank].
Qed.

End Handlers.

(** X9: KillProcess returns nil exactly when the name is registered;
    when it is not, nothing is done at all.  After the call the name is
    not registered, every other entry is as before, a second call on
    the same name returns an error, and the call has started no process
    and sent no request. *)
Theorem KillProcess_removes_only_name (lib : GoLib) (os : OS) (name : string)
    (w : World) :
  let r := KillProcess lib os name w in
  GetProcess r.2 name = None /\
  (forall other, other <> name -> GetProcess r.2 other = GetProcess w other) /\
  (r.1 = None <-> GetProcess w name <> None) /\
  (GetProcess w name = None -> r.2 = w) /\
  (KillProcess lib os name r.2).1 <> None /\
  exists more,
    events r.2 = events w ++ more /\ existsb is_start_or_request more = false.
Proof.
  exact (KillProcess_effect lib os name w).
Qed.

(** X10: StartProcess runs cmd.Start at most once and kills nothing: a
    child registered under the same name is waited for 2 s and dropped
    from the registry, not signalled.  cmd.Start is run exactly when
    cmd.StdoutPipe and cmd.StderrPipe have both succeeded; when one of
    them fails, StartProcess returns the error of that pipe and nothing
    is started.  On failure the name is left unregistered, even when it
    was registered before; on success the name is bound to the returned
    ProcessInfo, which carries the name, the health-check URL, the port
    taken from it (0 when none can be taken), an empty LogBuffer and a
    ring without a written slot.  The other entries are never
    touched. *)
Theorem StartProcess_outcome (lib : GoLib) (os : OS) (name command : string)
    (args : list string) (env : list (string * string))
    (workDir healthCheckURL : string) (w : World) :
  let r := StartProcess lib os name command args env workDir healthCheckURL w in
  let before :=
    events w ++
    match GetProcess w name with
    | Some oldInfo => [EvAwaitWaitDone (Pid oldInfo) (2 * Second)]
    | None => []
    end in
  (forall other, other <> name -> GetProcess r.2 other = GetProcess w other) /\
  events r.2 =
    before ++
    (if pipes_created os before
     then [EvStart command args (resolve_dir lib os command args workDir) env]
     else []) /\
  (forall err, StdoutPipe_error os before = Some err ->
               r.1 = inl ("创建 stdout 管道失败: " +:+ err)) /\
  (StdoutPipe_error os before = None ->
   forall err, StderrPipe_error os before = Some err ->
               r.1 = inl ("创建 stderr 管道失败: " +:+ err)) /\
  match r.1 with
  | inl _ => GetProcess r.2 name = None
  | inr processInfo =>
      pipes_created os before = true /\
      GetProcess r.2 name = Some processInfo /\
      Name processInfo = name /\
      HealthCheckURL processInfo = healthCheckURL /\
      HealthCheckPort processInfo = default 0 (extractPortFromURL lib healthCheckURL) /\
      LogBuffer processInfo = "" /\
      blank processInfo
  end.
Proof.
  exact (StartProcess_effect lib os name command args env workDir healthCheckURL w).
Qed.

(** X11: the handler of kill_process.  A call reports success exactly
    when it has run a kill (a signal, taskkill or kill -9).  When a name
    is given the port is ignored: the outcome is the same for every
    port, the name is unregistered afterwards and success means that
    the name was registered; an unknown name is an error even when the
    port is given and in use.  Without a name the registry is never
    changed, and a port that is not positive is an error that leaves
    the world as it was.  No entry but the named one is ever removed. *)
Theorem kill_process_outcome (lib : GoLib) (os : OS) (args : killProcessArgs.t)
    (w : World) :
  let r := kill_process lib os args w in
  (forall other, other <> killProcessArgs.Name args ->
                 GetProcess r.2 other = GetProcess w other) /\
  (IsError r.1 = false <-> existsb is_kill (added w r.2) = true) /\
  (killProcessArgs.Name args <> "" ->
   (forall port,
       kill_process lib os (killProcessArgs.mk (killProcessArgs.Name args) port) w = r) /\
   GetProcess r.2 (killProcessArgs.Name args) = None /\
   (IsError r.1 = false <-> GetProcess w (killProcessArgs.Name args) <> None) /\
   (GetProcess w (killProcessArgs.Name args) = None -> r.2 = w)) /\
  (killProcessArgs.Name args = "" ->
   processes r.2 = processes w /\
   (killProcessArgs.Port args <= 0 -> IsError r.1 = true /\ r.2 = w)).
Proof.
  intros r. subst r. destruct args as [name port]. cbn [killProcessArgs.Name killProcessArgs.Port].
  assert (Hsame : added w w = []).
  { apply added_app. rewrite app_nil_r. reflexivity. }
  unfold kill_process. cbn [killProcessArgs.Name killProcessArgs.Port].
  destruct (eqb_string name "") eqn:En.
  - apply eqb_string_true in En. subst name. cbn [andb negb].
    destruct (port =? 0) eqn:E0.
    { cbn [fst snd text_result IsError]. rewrite Hsame.
      split; [reflexivity|]. split; [split; discriminate|].
      split; [congruence|]. intros _. split; [reflexivity|]. auto. }
    destruct (0 <? port) eqn:Ep.
    2:{ cbn [fst snd text_result IsError]. rewrite Hsame.
        split; [reflexivity|]. split; [split; discriminate|].
        split; [congruence|]. intros _. split; [reflexivity|]. auto. }
    apply Z.ltb_lt in Ep.
    destruct (killProcessByPort_trace lib os port w)
      as [Hp (more & Hev & _ & Hiff & _)].
    assert (Hadd : added w (killProcessByPort lib os port w).2
                   = EvDial ("127.0.0.1:" +:+ Itoa port) :: more).
    { apply added_app. exact Hev. }
    destruct (killProcessByPort lib os port w) as [[err|] w'];
      cbn [fst snd text_result IsError] in *; rewrite Hadd;
      cbn [existsb is_kill orb].
    + split; [intros other _; unfold GetProcess; rewrite Hp; reflexivity|].
      split.
      { split; [discriminate|]. intros H. apply Hiff in H. discriminate. }
      split; [congruence|]. intros _. split; [exact Hp|]. lia.
    + split; [intros other _; unfold GetProcess; rewrite Hp; reflexivity|].
      split.
      { split; [intros _; apply Hiff; reflexivity|reflexivity]. }
      split; [congruence|]. intros _. split; [exact Hp|]. lia.
  - cbn [andb negb]. apply eqb_string_false in En.
    unfold GetProcess.
    destruct (Load (processes w) name) as [info|] eqn:Hload.
    + destruct (KillProcess_trace lib os name info w Hload)
        as (Hnil & Hp & more & Hev & _ & Hk).
      assert (Hadd : added w (KillProcess lib os name w).2 = EvCancel (Pid info) :: more).
      { apply added_app. exact Hev. }
      destruct (KillProcess lib os name w) as [[err|] w'];
        cbn [fst snd] in *; [discriminate|].
      cbn [text_result IsError]. rewrite Hadd. cbn [existsb is_kill orb].
      split; [intros other Hne; rewrite Hp; apply Load_Delete_other; exact Hne|].
      split; [split; [intros _; exact Hk|reflexivity]|].
      split; [|congruence]. intros _.
      split; [reflexivity|].
      split; [rewrite Hp; apply Load_Delete|].
      split; [split; [discriminate|reflexivity]|discriminate].
    + cbn [fst snd text_result IsError]. rewrite Hsame.
      split; [reflexivity|]. split; [split; discriminate|].
      split; [|congruence]. intros _.
      split; [reflexivity|]. split; [exact Hload|].
      split; [split; [discriminate|congruence]|reflexivity].
Qed.

(** ** Waiting for readiness *)

Section Waiting.

Variables (text : string) (timeout : Duration) (env : WaitEnv).

Lemma ready_cases_In (ticks : nat) (t : Duration) (c : SelectCase) :
  In c (ready_cases timeout env ticks t) ->
  match c with
  | CaseDone => timeout <= t
  | CaseTick => 500 * Millisecond * (Z.of_nat ticks + 1) <= t
  | CaseExit => exists e x, exit_at env = Some (e, x) /\ e <= t
  end.
Proof.
  unfold ready_cases. intros H.
  apply in_app_or in H. destruct H as [H|H].
  { destruct (timeout <=? t) eqn:E; [|destruct H].
    destruct H as [<-|[]]. apply Z.leb_le. exact E. }
  apply in_app_or in H. destruct H as [H|H].
  { destruct (500 * Millisecond * (Z.of_nat ticks + 1) <=? t) eqn:E; [|destruct H].
    destruct H as [<-|[]]. apply Z.leb_le. exact E. }
  destruct (exit_at env) as [[e x]|]; [|destruct H].
  destruct (e <=? t) eqn:E; [|destruct H].
  destruct H as [<-|[]]. exists e, x. split; [reflexivity|apply Z.leb_le; exact E].
Qed.

Lemma ready_cases_nil (ticks : nat) (t : Duration) :
  ready_cases timeout env ticks t = [] ->
  t < timeout /\ t < 500 * Millisecond * (Z.of_nat ticks + 1) /\
  match exit_at env with
  | Some (e, _) => t < e
  | None => True
  end.
Proof.
  unfold ready_cases.
  destruct (timeout <=? t) eqn:E1; [discriminate|].
  destruct (500 * Millisecond * (Z.of_nat ticks + 1) <=? t) eqn:E2; [discriminate|].
  apply Z.leb_gt in E1, E2. cbn [app].
  destruct (exit_at env) as [[e x]|]; [|auto].
  destruct (e <=? t) eqn:E3; [discriminate|]. apply Z.leb_gt in E3. auto.
Qed.

(** the select always proceeds on some case *)
Lemma wake_time_ready (ticks : nat) (entered : Duration) :
  ready_cases timeout env ticks (wake_time timeout env ticks entered) <> [].
Proof.
  unfold wake_time.
  destruct (ready_cases timeout env ticks entered) as [|c l] eqn:E.
  2:{ rewrite E. discriminate. }
  unfold ready_cases.
  destruct (exit_at env) as [[e x]|].
  - destruct (timeout <=? _) eqn:E1; [discriminate|].
    destruct (500 * Millisecond * (Z.of_nat ticks + 1) <=? _) eqn:E2; [discriminate|].
    destruct (e <=? _) eqn:E3; [discriminate|].
    apply Z.leb_gt in E1, E2, E3. lia.
  - destruct (timeout <=? _) eqn:E1; [discriminate|].
    destruct (500 * Millisecond * (Z.of_nat ticks + 1) <=? _) eqn:E2; [discriminate|].
    apply Z.leb_gt in E1, E2. lia.
Qed.

Lemma select_proceeds (ticks selects : nat) (entered : Duration) :
  exists c,
    ready_cases timeout env ticks (wake_time timeout env ticks entered)
      !! (choice env selects mod
          length (ready_cases timeout env ticks (wake_time timeout env ticks entered)))%nat
    = Some c /\
    In c (ready_cases timeout env ticks (wake_time timeout env ticks entered)).
Proof.
  pose proof (wake_time_ready ticks entered) as Hne.
  destruct (ready_cases timeout env ticks (wake_time timeout env ticks entered))
    as [|c0 l] eqn:E; [congruence|].
  destruct (lookup_lt_is_Some_2 (c0 :: l)
              (choice env selects mod length (c0 :: l))%nat) as [c Hc].
  { apply Nat.mod_upper_bound. discriminate. }
  exists c. split; [exact Hc|].
  apply list_elem_of_In. eapply list_elem_of_lookup_2. exact Hc.
Qed.

(** what a result of the loop tells *)
Lemma wait_loop_result :
  forall fuel selects ticks entered err t,
    wait_loop text timeout env fuel selects ticks entered = Some (err, t) ->
    match err with
    | None =>
        exists k,
          (ticks <= k)%nat /\ probe_ok env k = true /\
          (forall j, (ticks <= j < k)%nat -> probe_ok env j = false) /\
          500 * Millisecond * (Z.of_nat k + 1) <= t - probe_time env k
    | Some e =>
        (e = text /\ timeout <= t) \/
        (exists at_ x, exit_at env = Some (at_, x) /\ at_ <= t /\ e = exit_text x)
    end.
Proof.
  induction fuel as [|fuel IH]; intros selects ticks entered err t; [discriminate|].
  cbn [wait_loop].
  set (t0 := wake_time timeout env ticks entered).
  destruct (ready_cases timeout env ticks t0 !! _) as [c|] eqn:Hc; [|discriminate].
  assert (Hin : In c (ready_cases timeout env ticks t0)).
  { apply list_elem_of_In. eapply list_elem_of_lookup_2. exact Hc. }
  apply ready_cases_In in Hin.
  destruct c.
  - intros H. inversion H; subst. left. auto.
  - destruct (probe_ok env ticks) eqn:Hp.
    + intros H. inversion H; subst. exists ticks.
      split; [lia|]. split; [exact Hp|]. split; [intros j Hj; lia|]. lia.
    + intros H. specialize (IH _ _ _ _ _ H).
      destruct err as [e|]; [exact IH|].
      destruct IH as (k & Hk & Hok & Hfirst & Ht).
      exists k. split; [lia|]. split; [exact Hok|]. split; [|exact Ht].
      intros j Hj. destruct (decide (j = ticks)) as [->|Hne]; [exact Hp|].
      apply Hfirst. lia.
  - destruct Hin as (e & x & He & Hle).
    intros H. inversion H; subst. right. exists e, x.
    split; [exact He|]. split; [exact Hle|].
    rewrite He. destruct x; reflexivity.
Qed.

Lemma wait_loop_fuel_mono :
  forall fuel fuel' selects ticks entered r,
    wait_loop text timeout env fuel selects ticks entered = Some r ->
    (fuel <= fuel')%nat ->
    wait_loop text timeout env fuel' selects ticks entered = Some r.
Proof.
  induction fuel as [|fuel IH]; intros fuel' selects ticks entered r; [discriminate|].
  intros H Hle. destruct fuel' as [|fuel']; [lia|].
  cbn [wait_loop] in *.
  destruct (ready_cases timeout env ticks _ !! _) as [[]|]; try exact H.
  destruct (probe_ok env ticks); [exact H|].
  apply IH; [exact H|lia].
Qed.

(** with probes of at most 100 ms the loop is over after at most
    timeout / 500 ms iterations *)
Lemma wait_loop_returns :
  (forall k, 0 <= probe_time env k <= 100 * Millisecond) ->
  forall fuel selects ticks entered,
    entered < 500 * Millisecond * (Z.of_nat ticks + 1) ->
    (0 < fuel)%nat ->
    timeout < 500 * Millisecond * (Z.of_nat ticks + Z.of_nat fuel) ->
    exists err t,
      wait_loop text timeout env fuel selects ticks entered = Some (err, t) /\
      entered <= t <= Z.max entered (timeout + 100 * Millisecond).
Proof.
  intros Hprobe.
  induction fuel as [|fuel IH]; intros selects ticks entered Hent Hfuel Htimeout; [lia|].
  cbn [wait_loop].
  destruct (select_proceeds ticks selects entered) as (c & Hc & Hin).
  rewrite Hc. apply ready_cases_In in Hin.
  assert (Hwake : entered <= wake_time timeout env ticks entered /\
                  (wake_time timeout env ticks entered = entered \/
                   wake_time timeout env ticks entered <= timeout /\
                   wake_time timeout env ticks entered
                   <= 500 * Millisecond * (Z.of_nat ticks + 1))).
  { unfold wake_time.
    destruct (ready_cases timeout env ticks entered) as [|c0 l] eqn:E; [|lia].
    apply ready_cases_nil in E. destruct E as (E1 & E2 & E3).
    destruct (exit_at env) as [[e x]|]; lia. }
  destruct Hwake as [Hge Hwake].
  set (t0 := wake_time timeout env ticks entered) in *.
  destruct c.
  - eexists _, _. split; [reflexivity|]. unfold Millisecond. lia.
  - assert (Ht0 : t0 = 500 * Millisecond * (Z.of_nat ticks + 1) /\ t0 <= timeout) by lia.
    destruct Ht0 as [Ht0 Hle].
    pose proof (Hprobe ticks) as Hpt.
    destruct (probe_ok env ticks).
    + eexists _, _. split; [reflexivity|]. unfold Millisecond in *. lia.
    + destruct (IH (S selects) (S ticks) (t0 + probe_time env ticks))
        as (err & t & Hw & Ht).
      * unfold Millisecond in *. lia.
      * unfold Millisecond in *. lia.
      * unfold Millisecond in *. lia.
      * exists err, t. split; [exact Hw|]. unfold Millisecond in *. lia.
  - eexists _, _. split; [reflexivity|]. unfold Millisecond. lia.
Qed.

End Waiting.

(** X12: what a result of the readiness loop tells, for every timing of
    the probes, of the exit and of the picks of select.  It returns nil
    only when a probe has succeeded: the first probe that succeeds, run
    on a tick of the 500 ms ticker, every earlier probe having failed.
    It returns the timeout error only when its context is done, and an
    exit error only when ExitChan has delivered by then, with the text
    of that exit; without the case on exitChan (waitForPortReady,
    waitForHTTPReady) no exit error is ever returned.  The context of
    the port waits is done at the deadline; the context of the HTTP
    waits derives from the context of the caller and is done at the
    deadline or when the caller cancels, whichever comes first, so that
    their timeout error can come before the deadline. *)
Theorem wait_loop_sound (text : string) (timeout : Duration) (env : WaitEnv)
    (fuel selects ticks : nat) (entered : Duration)
    (err : option string) (t : Duration) :
  wait_loop text timeout env fuel selects ticks entered = Some (err, t) ->
  match err with
  | None =>
      exists k,
        (ticks <= k)%nat /\ probe_ok env k = true /\
        (forall j, (ticks <= j < k)%nat -> probe_ok env j = false) /\
        500 * Millisecond * (Z.of_nat k + 1) <= t - probe_time env k
  | Some e =>
      (e = text /\ timeout <= t) \/
      (exists at_ x, exit_at env = Some (at_, x) /\ at_ <= t /\ e = exit_text x)
  end /\
  (forall err' t',
      waitForPortReady timeout env fuel = Some (Some err', t') ->
      err' = "等待端口就绪超时" /\ timeout <= t') /\
  (forall err' t',
      waitForHTTPReady timeout env fuel = Some (Some err', t') ->
      err' = "等待 HTTP 服务就绪超时" /\
      (timeout <= t' \/
       exists cancelled, ctx_cancelled env = Some cancelled /\ cancelled <= t')) /\
  (forall err' t',
      waitForHTTPReadyWithExitCheck timeout env fuel = Some (Some err', t') ->
      (err' = "等待 HTTP 服务就绪超时" /\
       (timeout <= t' \/
        exists cancelled, ctx_cancelled env = Some cancelled /\ cancelled <= t')) \/
      (exists at_ x, exit_at env = Some (at_, x) /\ at_ <= t' /\ err' = exit_text x)).
Proof.
  intros H. split; [exact (wait_loop_result text timeout env _ _ _ _ _ _ H)|].
  assert (Hdone : forall t', ctx_done timeout env <= t' ->
            timeout <= t' \/
            exists cancelled, ctx_cancelled env = Some cancelled /\ cancelled <= t').
  { intros t'. unfold ctx_done.
    destruct (ctx_cancelled env) as [cancelled|]; [|auto].
    intros Hle. destruct (Z.min_spec timeout cancelled) as [[_ Hm]|[_ Hm]];
      rewrite Hm in Hle; [left; exact Hle|right; eauto]. }
  split; [|split].
  - intros err' t' H'. apply wait_loop_result in H'.
    destruct H' as [H'|(at_ & x & Hex & _)]; [exact H'|discriminate].
  - intros err' t' H'. apply wait_loop_result in H'.
    destruct H' as [[He Hle]|(at_ & x & Hex & _)]; [|discriminate].
    split; [exact He|apply Hdone; exact Hle].
  - intros err' t' H'. apply wait_loop_result in H'.
    destruct H' as [[He Hle]|H']; [left|right; exact H'].
    split; [exact He|apply Hdone; exact Hle].
Qed.

Lemma wait_loop_sound_witness :
  waitForPortReadyWithExitCheck (5 * Second) Demo.ready_at_third 10
  = Some (None, 1500 * Millisecond + 20 * Millisecond) /\
  exists k, probe_ok Demo.ready_at_third k = true /\
            (forall j, (j < k)%nat -> probe_ok Demo.ready_at_third j = false).
Proof.
  assert (H : waitForPortReadyWithExitCheck (5 * Second) Demo.ready_at_third 10
              = Some (None, 1500 * Millisecond + 20 * Millisecond)) by reflexivity.
  split; [exact H|].
  destruct (wait_loop_sound _ _ _ _ _ _ _ _ _ H) as [(k & _ & Hok & Hfirst & _) _].
  exists k. split; [exact Hok|]. intros j Hj. apply Hfirst. lia.
Defined.

(** X13: waitForPortReadyWithExitCheck returns.  When the first select
    is reached before the first tick and a probe takes between 0 and
    100 ms (the timeout of the dial), the loop is over after at most
    timeout / 500 ms + 1 iterations, whatever the probes, the exit of
    the child and the picks of select are, and it returns no later than
    100 ms after the deadline. *)
Theorem waitForPortReadyWithExitCheck_returns (timeout : Duration) (env : WaitEnv)
    (fuel : nat) :
  first_select env < 500 * Millisecond ->
  (forall k, 0 <= probe_time env k <= 100 * Millisecond) ->
  (0 < fuel)%nat ->
  timeout < 500 * Millisecond * Z.of_nat fuel ->
  exists err t,
    (forall fuel', (fuel <= fuel')%nat ->
                   waitForPortReadyWithExitCheck timeout env fuel' = Some (err, t)) /\
    first_select env <= t <= Z.max (first_select env) (timeout + 100 * Millisecond).
Proof.
  intros Hfirst Hprobe Hfuel Htimeout.
  destruct (wait_loop_returns "等待端口就绪超时" timeout env Hprobe fuel O O (first_select env))
    as (err & t & Hw & Ht).
  - unfold Millisecond in *. cbn [Z.of_nat]. lia.
  - exact Hfuel.
  - cbn [Z.of_nat]. lia.
  - exists err, t. split; [|exact Ht].
    intros fuel' Hle. unfold waitForPortReadyWithExitCheck.
    eapply wait_loop_fuel_mono; [exact Hw|exact Hle].
Qed.

Lemma waitForPortReadyWithExitCheck_returns_witness :
  exists err t,
    waitForPortReadyWithExitCheck (1 * Second) (readiness (Demo.os "" (HTTPError "") false) [])
      3 = Some (err, t) /\
    t <= 1 * Second + 100 * Millisecond.
Proof.
  destruct (waitForPortReadyWithExitCheck_returns (1 * Second)
              (readiness (Demo.os "" (HTTPError "") false) []) 3)
    as (err & t & Hw & Ht).
  - reflexivity.
  - intros k. cbn. unfold Millisecond. lia.
  - lia.
  - reflexivity.
  - exists err, t. split; [apply Hw; lia|].
    cbn [Demo.os readiness first_select] in Ht. unfold Second, Millisecond in *. lia.
Defined.

(** X14: a call of start_process whose command holds no space runs
    cmd.Start at most once, whatever it finds registered or listening
    before: exactly once when the two pipes of the command are created,
    and not at all when one of them fails, in which case the result is
    an error.  When the call returns, the result is a success exactly
    when the name is registered: a child that failed its health check
    has been removed again.  No entry under another name is touched. *)
Theorem start_process_spawns_once (lib : GoLib) (os : OS) (fuel : nat)
    (args : startProcessArgs.t) (w : World) (r : CallToolResult) (w' : World) :
  Contains (startProcessArgs.Command args) " " = false ->
  start_process lib os fuel args w = Some (r, w') ->
  (IsError r = false <-> GetProcess w' (startProcessArgs.Name args) <> None) /\
  (forall other, other <> startProcessArgs.Name args ->
                 GetProcess w' other = GetProcess w other) /\
  List.filter is_start_or_request (added w w') =
  (if pipes_created os (events (cleanup lib os args w))
   then [EvStart (startProcessArgs.Command args) (startProcessArgs.Args args)
           (resolve_dir lib os (startProcessArgs.Command args)
              (startProcessArgs.Args args) (startProcessArgs.WorkDir args))
           (startProcessArgs.Env args)]
   else []) /\
  (pipes_created os (events (cleanup lib os args w)) = false -> IsError r = true).
Proof.
  intros Hcmd. unfold start_process. rewrite Hcmd.
  destruct (cleanup_frame lib os args w) as (Hgone & Hother & more & Hev & Hq).
  set (w0 := cleanup lib os args w) in *.
  pose proof (StartProcess_effect lib os (startProcessArgs.Name args)
                (startProcessArgs.Command args) (startProcessArgs.Args args)
                (startProcessArgs.Env args) (startProcessArgs.WorkDir args)
                (startProcessArgs.HealthCheckURL args) w0) as HS.
  cbv zeta in HS. rewrite Hgone, app_nil_r in HS.
  destruct HS as (Hother1 & Hev1 & _ & _ & Hres).
  set (started := if pipes_created os (events w0)
                  then [EvStart (startProcessArgs.Command args)
                          (startProcessArgs.Args args)
                          (resolve_dir lib os (startProcessArgs.Command args)
                             (startProcessArgs.Args args)
                             (startProcessArgs.WorkDir args))
                          (startProcessArgs.Env args)]
                  else []) in *.
  assert (Hstarted : List.filter is_start_or_request started = started).
  { subst started. destruct (pipes_created os (events w0)); reflexivity. }
  destruct (StartProcess lib os _ _ _ _ _ _ w0) as [[err|processInfo] w1];
    cbn [fst snd] in *.
  - intros H. inversion H; subst. clear H. cbn [text_result IsError].
    split; [split; [discriminate|congruence]|].
    split; [intros other Hne; rewrite Hother1 by exact Hne; apply Hother; exact Hne|].
    split; [|reflexivity].
    rewrite (added_app w w' (more ++ started)).
    2:{ rewrite Hev1, Hev, <- app_assoc. reflexivity. }
    rewrite List.filter_app, (filter_quiet _ _ Hq), Hstarted. reflexivity.
  - destruct Hres as (Hpipes & Hreg & _).
    destruct (health_check os fuel _ processInfo w1) as [[[healthCheckErr|] t]|];
      [| |discriminate].
    + intros H. inversion H; subst. clear H. cbn [text_result IsError].
      destruct (KillProcess_effect lib os (startProcessArgs.Name args) w1)
        as (Hgone2 & Hother2 & _ & _ & _ & more2 & Hev2 & Hq2).
      cbv zeta in Hgone2, Hother2, Hev2.
      split; [split; [discriminate|congruence]|].
      split.
      { intros other Hne. rewrite Hother2 by exact Hne.
        rewrite Hother1 by exact Hne. apply Hother. exact Hne. }
      split; [|reflexivity].
      rewrite (added_app w _ (more ++ started ++ more2)).
      2:{ rewrite Hev2, Hev1, Hev, <- !app_assoc. reflexivity. }
      rewrite !List.filter_app, (filter_quiet _ _ Hq), (filter_quiet _ _ Hq2), Hstarted.
      rewrite app_nil_r. reflexivity.
    + intros H. inversion H; subst. clear H. cbn [text_result IsError].
      split; [split; [intros _; rewrite Hreg; discriminate|reflexivity]|].
      split; [intros other Hne; rewrite Hother1 by exact Hne; apply Hother; exact Hne|].
      split; [|rewrite Hpipes; discriminate].
      rewrite (added_app w w' (more ++ started)).
      2:{ rewrite Hev1, Hev, <- app_assoc. reflexivity. }
      rewrite List.filter_app, (filter_quiet _ _ Hq), Hstarted. reflexivity.
Qed.

Lemma start_process_spawns_once_witness :
  let os := Demo.with_readiness (Demo.os "" (HTTPError "") false) Demo.ready_at_third in
  let args := startProcessArgs.mk "api" "go" ["run"; "."] "" []
                "http://localhost:8081/health" 5 "" in
  match start_process Demo.lib os 10 args demo_world with
  | Some (r, w') =>
      IsError r = false /\ GetProcess w' "api" <> None /\
      GetProcess w' "svc" = Some demo_child
  | None => False
  end.
Proof.
  intros os args.
  destruct (start_process Demo.lib os 10 args demo_world) as [[r w']|] eqn:E.
  - destruct (start_process_spawns_once Demo.lib os 10 args demo_world r w' eq_refl E)
      as (Hiff & Hother & _ & _).
    assert (Hok : IsError r = false).
    { unfold start_process in E. cbv zeta in E.
      change (Contains (startProcessArgs.Command args) " ") with false in E.
      destruct (StartProcess Demo.lib os _ _ _ _ _ _ _) as [[err|processInfo] w1] eqn:ES;
        [discriminate ES|].
      assert (Hport : HealthCheckPort processInfo = 8081).
      { unfold StartProcess in ES. inversion ES. reflexivity. }
      unfold health_check in E. rewrite Hport in E.
      change (0 <? 8081) with true in E.
      change (waitForPortReadyWithExitCheck _ _ 10)
        with (Some (@None string, 1500 * Millisecond + 20 * Millisecond)) in E.
      inversion E. reflexivity. }
    split; [exact Hok|]. split; [apply Hiff; exact Hok|].
    rewrite (Hother "svc") by discriminate. reflexivity.
  - exfalso. unfold start_process in E. cbv zeta in E.
    change (Contains (startProcessArgs.Command args) " ") with false in E.
    destruct (StartProcess Demo.lib os _ _ _ _ _ _ _) as [[err|processInfo] w1] eqn:ES;
      [discriminate E|].
    assert (Hport : HealthCheckPort processInfo = 8081).
    { unfold StartProcess in ES. inversion ES. reflexivity. }
    unfold health_check in E. rewrite Hport in E.
    change (0 <? 8081) with true in E.
    change (waitForPortReadyWithExitCheck _ _ 10)
      with (Some (@None string, 1500 * Millisecond + 20 * Millisecond)) in E.
    discriminate E.
Defined.

(** X15: the handler of request_with_logs never panics on rings that
    the log tasks keep well formed, never changes the registry and
    sends at most one request.  An error result means that nothing was
    sent and nothing written, and it carries no payload; every other
    result comes after exactly one request, with the headers and the
    body built from the arguments and a method that is not empty,
    followed by one write of the response log, and its payload holds
    status_code and duration_ms; the logs are never empty, and without
    an associated child the URL is sent as given and the payload has no
    field logs.  A process_name that is not registered is an error. *)
Theorem request_with_logs_sends_at_most_once (lib : GoLib) (os : OS)
    (args : requestWithLogsArgs.t) (w : World) :
  (forall evs info, RingOK info -> RingOK (observe os evs info)) ->
  Forall (fun kv : string * ProcessInfo => RingOK kv.2) (processes w) ->
  exists r w',
    request_with_logs lib os args w = Some (r, w') /\
    processes w' = processes w /\
    (if IsError r then w' = w /\ StructuredContent r = None
     else
       exists method fullURL statusCode responseBody requestLogs payload,
         added w w' =
         [EvHTTP method fullURL
            (request_headers (requestWithLogsArgs.Headers args)
               (requestWithLogsArgs.Body args))
            (requestWithLogsArgs.Body args);
          EvWriteFile method fullURL statusCode responseBody requestLogs] /\
         method <> "" /\ requestLogs <> "" /\
         StructuredContent r = Some payload /\
         payload !! "status_code" = Some (VInt statusCode) /\
         (exists ms, payload !! "duration_ms" = Some (VInt ms)) /\
         (associate lib w args = inr None ->
          fullURL = requestWithLogsArgs.URL args /\ payload !! "logs" = None)) /\
    (requestWithLogsArgs.ProcessName args <> "" ->
     GetProcess w (requestWithLogsArgs.ProcessName args) = None ->
     IsError r = true).
Proof.
  intros Hobs Hrings. unfold request_with_logs.
  destruct (prepare lib os args w) as [early|req] eqn:Hprep.
  - destruct (prepare_early lib os w args early Hprep) as [Herr Hsc].
    exists early, w. split; [reflexivity|]. split; [reflexivity|].
    rewrite Herr. auto.
  - pose proof (prepare_associate lib os args w req Hprep) as Hassoc.
    destruct (prepare_request lib os w args req Hprep) as (Hh & Hb & Hm & Hu).
    destruct (http_Do os (events w) _ _ _ _) as [outcome duration].
    destruct (respond_total lib os req outcome duration
                (emit w (EvHTTP (req_method req) (req_fullURL req)
                           (req_headers req) (req_body req))))
      as (r & responseBody & requestLogs & payload & Hr & Hok & Hsc & Hst & Hd & Hl & Hne).
    { intros info Hinfo. apply Hobs. rewrite Hinfo in Hassoc.
      destruct (associate_registered lib w args info Hassoc) as [k Hk].
      rewrite List.Forall_forall in Hrings. exact (Hrings _ Hk). }
    eexists r, _. split; [exact Hr|]. cbn [emit processes events].
    split; [reflexivity|]. rewrite Hok. split.
    + eexists (req_method req), (req_fullURL req), _, responseBody, requestLogs, payload.
      split.
      { apply added_app. cbn [emit events]. rewrite <- app_assoc, Hh, Hb. reflexivity. }
      split; [exact Hm|]. split; [exact Hne|]. split; [exact Hsc|].
      split; [exact Hst|]. split; [eauto|].
      intros Hnone. rewrite Hnone in Hassoc. inversion Hassoc as [Hnone'].
      symmetry in Hnone'. auto.
    + intros Hname Hunreg. exfalso.
      unfold associate in Hassoc.
      destruct (eqb_string (requestWithLogsArgs.ProcessName args) "") eqn:E.
      { apply eqb_string_true in E. contradiction. }
      cbn [negb] in Hassoc. rewrite Hunreg in Hassoc. discriminate.
Qed.

Lemma request_with_logs_sends_at_most_once_witness :
  exists r w',
    request_with_logs Demo.lib (Demo.os "" (HTTPResponse 200 "pong") true)
      (requestWithLogsArgs.mk "svc" "/ping" "get" [] "") demo_world = Some (r, w') /\
    processes w' = processes demo_world /\ IsError r = false.
Proof.
  destruct (request_with_logs_sends_at_most_once Demo.lib
              (Demo.os "" (HTTPResponse 200 "pong") true)
              (requestWithLogsArgs.mk "svc" "/ping" "get" [] "") demo_world)
    as (r & w' & Hr & Hp & Hcases & _).
  - intros evs info H. exact H.
  - repeat constructor; apply newProcessInfo_blank.
  - exists r, w'. split; [exact Hr|]. split; [exact Hp|].
    destruct (IsError r) eqn:E; [|reflexivity].
    destruct Hcases as [Hw _]. subst w'.
    unfold request_with_logs in Hr.
    change (prepare Demo.lib (Demo.os "" (HTTPResponse 200 "pong") true)
              (requestWithLogsArgs.mk "svc" "/ping" "get" [] "") demo_world)
      with (@inr CallToolResult Request
              {| req_processInfo := Some demo_child;
                 req_fullURL := "http://localhost:8081/ping";
                 req_method := "GET";
                 req_headers := [];
                 req_body := "";
                 requestStartTime := 100 * Second |}) in Hr.
    cbv beta iota zeta in Hr.
    destruct (respond_total Demo.lib (Demo.os "" (HTTPResponse 200 "pong") true)
                {| req_processInfo := Some demo_child;
                   req_fullURL := "http://localhost:8081/ping";
                   req_method := "GET";
                   req_headers := [];
                   req_body := "";
                   requestStartTime := 100 * Second |}
                (HTTPResponse 200 "pong") (3 * Millisecond)
                (emit demo_world (EvHTTP "GET" "http://localhost:8081/ping" [] "")))
      as (r0 & rb & rl & pl & Hr0 & Hok & _).
    { intros info Hinfo. inversion Hinfo. apply newProcessInfo_blank. }
    cbn [http_Do Demo.os req_method req_fullURL req_headers req_body] in Hr.
    rewrite Hr0 in Hr. inversion Hr.
Defined.

(** ** Small helpers of the handlers *)

Section Helpers.

Lemma length_slice_to (s : string) (n : nat) :
  String.length (slice_to s n) = Nat.min n (String.length s).
Proof.
  unfold slice_to. revert n.
  induction s as [|c s IH]; intros [|n]; cbn [String.substring String.length Nat.min];
    try reflexivity.
  rewrite IH. reflexivity.
Qed.

Lemma prefix_slice_to (s : string) (n : nat) :
  String.prefix (slice_to s n) s = true.
Proof.
  unfold slice_to. revert n.
  induction s as [|c s IH]; intros [|n]; cbn [String.substring String.prefix];
    try reflexivity.
  destruct (ascii_dec c c) as [_|Hne]; [apply IH|contradiction].
Qed.

Lemma prefix_append (a b : string) : String.prefix a (a +:+ b) = true.
Proof.
  induction a as [|c a IH]; [destruct b; reflexivity|].
  rewrite append_cons. cbn [String.prefix].
  destruct (ascii_dec c c) as [_|Hne]; [exact IH|contradiction].
Qed.







End Helpers.

(** X16: truncateString returns a string of at most maxLen + 3 bytes
    that starts with the first maxLen bytes of its argument (with all of
    it when it is no longer than maxLen); a string of at most maxLen
    bytes is returned as it is, a longer one is cut to exactly maxLen
    bytes followed by three dots, and truncating twice is truncating
    once. *)
Theorem truncateString_bounded (s : string) (maxLen : nat) :
  (String.length (truncateString s maxLen) <= maxLen + 3)%nat /\
  HasPrefix (truncateString s maxLen) (slice_to s maxLen) = true /\
  ((String.length s <= maxLen)%nat -> truncateString s maxLen = s) /\
  ((maxLen < String.length s)%nat ->
   truncateString s maxLen = slice_to s maxLen +:+ "..." /\
   String.length (truncateString s maxLen) = (maxLen + 3)%nat) /\
  truncateString (truncateString s maxLen) maxLen = truncateString s maxLen.
Proof.
  unfold truncateString, HasPrefix.
  destruct (String.length s <=? maxLen)%nat eqn:E.
  - apply Nat.leb_le in E.
    split; [lia|]. split; [apply prefix_slice_to|].
    split; [reflexivity|]. split; [lia|].
    apply Nat.leb_le in E. rewrite E. reflexivity.
  - apply Nat.leb_gt in E.
    assert (Hlen : String.length (slice_to s maxLen +:+ "...") = (maxLen + 3)%nat).
    { rewrite length_append, length_slice_to. cbn [String.length]. lia. }
    split; [lia|]. split; [apply prefix_append|].
    split; [lia|]. split; [auto|].
    destruct (String.length (slice_to s maxLen +:+ "...") <=? maxLen)%nat eqn:E2;
      [apply Nat.leb_le in E2; lia|].
    f_equal. unfold slice_to at 1.
    pose proof (substring_0_length (slice_to s maxLen) "...") as H.
    rewrite length_slice_to in H.
    replace (Nat.min maxLen (String.length s)) with maxLen in H by lia.
    exact H.
Qed.


(** ** The memory tools *)

Section MemoryTools.

Variables (lib : GoLib) (disk : Disk).

Lemma save_memory_cases (args : saveMemoryArgs.t) (files : gmap string string) :
  let r := save_memory lib disk args files in
  if IsError r.1 then
    r.2 = files \/
    exists path content err,
      WriteFile_error disk path = Some err /\ r.2 = failed_write disk files path content
  else
    saveMemoryArgs.SystemPrompt args <> "" /\
    saveMemoryArgs.Content args <> "" /\
    exists execPath,
      os_Executable disk = inr execPath /\
      WriteFile_error disk (memory_path lib disk execPath (memory_id disk args)) = None /\
      r.2 = <[memory_path lib disk execPath (memory_id disk args) :=
                memory_text disk (memory_id disk args)
                  (memory_path lib disk execPath (memory_id disk args))
                  (negb (eqb_string (saveMemoryArgs.MemoryID args) "")) args]> files /\
      exists a b, Content r.1 = [a +:+ memory_id disk args +:+ b].
Proof.
  unfold save_memory, memory_path, memory_id, WriteFile.
  destruct (eqb_string (saveMemoryArgs.SystemPrompt args) "") eqn:E1;
    [cbn; auto|].
  destruct (eqb_string (saveMemoryArgs.Content args) "") eqn:E2; [cbn; auto|].
  apply eqb_string_false in E1, E2.
  destruct (os_Executable disk) as [err|execPath]; [cbn; auto|].
  destruct (MkdirAll_error disk _) as [err|]; [cbn; auto|].
  cbv zeta.
  destruct (WriteFile_error disk _) as [err|] eqn:Ew.
  { cbn [fst snd text_result IsError]. right. eauto. }
  cbn [fst snd text_result IsError Content].
  split; [exact E1|]. split; [exact E2|].
  exists execPath. split; [reflexivity|]. split; [exact Ew|]. split; [reflexivity|].
  eexists ((if negb (eqb_string (saveMemoryArgs.MemoryID args) "")
            then "✅ 记忆已更新" else "✅ 记忆已保存") +:+ nl +:+ nl +:+ "**记忆ID**: `"), _.
  rewrite !append_assoc. reflexivity.
Qed.

Lemma read_memory_cases (args : readMemoryArgs.t) (files : gmap string string) :
  if IsError (read_memory lib disk args files) then
    readMemoryArgs.MemoryID args = "" \/
    (exists err, os_Executable disk = inl err) \/
    exists execPath,
      os_Executable disk = inr execPath /\
      (files !! memory_path lib disk execPath (readMemoryArgs.MemoryID args) = None \/
       ReadFile_error disk (memory_path lib disk execPath (readMemoryArgs.MemoryID args))
       <> None)
  else
    readMemoryArgs.MemoryID args <> "" /\
    exists execPath content head,
      os_Executable disk = inr execPath /\
      files !! memory_path lib disk execPath (readMemoryArgs.MemoryID args) = Some content /\
      ReadFile_error disk (memory_path lib disk execPath (readMemoryArgs.MemoryID args))
      = None /\
      Content (read_memory lib disk args files) = [head +:+ content].
Proof.
  unfold read_memory, memory_path.
  destruct (eqb_string (readMemoryArgs.MemoryID args) "") eqn:E1.
  { apply eqb_string_true in E1. cbn. auto. }
  apply eqb_string_false in E1.
  destruct (os_Executable disk) as [err|execPath]; [cbn; eauto|].
  cbv zeta.
  destruct (files !! _) as [content|] eqn:Ef.
  2:{ cbn [text_result IsError]. right. right. exists execPath. auto. }
  destruct (ReadFile_error disk _) as [err|] eqn:Er.
  { cbn [text_result IsError]. right. right. exists execPath.
    split; [reflexivity|]. right. rewrite Er. discriminate. }
  cbn [text_result IsError Content]. split; [exact E1|].
  exists execPath, content.
  eexists ("✅ 记忆读取成功" +:+ nl +:+ nl +:+
           "**记忆ID**: `" +:+ readMemoryArgs.MemoryID args +:+ "`" +:+ nl +:+
           "**文件路径**: `" +:+
           filepath_Join lib (filepath_Join lib (filepath_Dir disk execPath) "mems")
             (readMemoryArgs.MemoryID args +:+ ".md") +:+ "`" +:+ nl +:+
           "**文件大小**: " +:+ Itoa (Z.of_nat (String.length content)) +:+
           " 字符" +:+ nl +:+ nl +:+ "---" +:+ nl +:+ nl).
  split; [reflexivity|]. split; [exact Ef|]. split; [exact Er|].
  rewrite !append_assoc. reflexivity.
Qed.

End MemoryTools.

(** X18: save_memory and read_memory round trip.  A call of save_memory
    that does not report an error has written exactly one file and has
    left every other file as it was.  The path of that file is
    filepath.Join(memsDir, memoryID + ".md"), where memsDir is the
    directory mems next to the executable and memoryID is the ID given,
    used as it is, without any check, or else the fresh UUID.  The file
    holds the system prompt and the content verbatim, and the result
    names the ID.  A read_memory of that ID on the files so left
    returns, when the file can be read, a success whose text ends with
    the whole file.  A failed save_memory has changed nothing unless it
    is the write itself that failed. *)
Theorem save_memory_round_trip (lib : GoLib) (disk : Disk) (args : saveMemoryArgs.t)
    (files : gmap string string) :
  let r := save_memory lib disk args files in
  let memoryID := memory_id disk args in
  (IsError r.1 = true ->
   r.2 = files \/
   exists path content err,
     WriteFile_error disk path = Some err /\ r.2 = failed_write disk files path content) /\
  (saveMemoryArgs.SystemPrompt args = "" \/ saveMemoryArgs.Content args = "" ->
   IsError r.1 = true /\ r.2 = files) /\
  (IsError r.1 = false ->
   exists execPath text,
     os_Executable disk = inr execPath /\
     text = memory_head disk memoryID (negb (eqb_string (saveMemoryArgs.MemoryID args) ""))
            +:+ saveMemoryArgs.SystemPrompt args +:+ memory_middle
            +:+ saveMemoryArgs.Content args
            +:+ memory_foot (memory_path lib disk execPath memoryID) /\
     memory_path lib disk execPath memoryID =
     filepath_Join lib (filepath_Join lib (filepath_Dir disk execPath) "mems")
       ((if eqb_string (saveMemoryArgs.MemoryID args) "" then uuid_New disk
         else saveMemoryArgs.MemoryID args) +:+ ".md") /\
     r.2 = <[memory_path lib disk execPath memoryID := text]> files /\
     (forall path, path <> memory_path lib disk execPath memoryID ->
                   r.2 !! path = files !! path) /\
     (exists a b, Content r.1 = [a +:+ memoryID +:+ b]) /\
     (memoryID <> "" ->
      ReadFile_error disk (memory_path lib disk execPath memoryID) = None ->
      exists head,
        read_memory lib disk (readMemoryArgs.mk memoryID) r.2
        = text_result (head +:+ text) false)).
Proof.
  intros r memoryID. subst r memoryID.
  pose proof (save_memory_cases lib disk args files) as H. cbv zeta in H.
  split; [|split].
  - intros Herr. rewrite Herr in H. exact H.
  - intros Hempty. unfold save_memory.
    destruct Hempty as [-> | ->]; cbn [eqb_string String.eqb].
    + cbn. auto.
    + destruct (eqb_string (saveMemoryArgs.SystemPrompt args) ""); cbn; auto.
  - intros Hok. rewrite Hok in H.
    destruct H as (Hsp & Hc & execPath & Hexec & Hw & Hfiles & Hname).
    exists execPath, (memory_text disk (memory_id disk args)
                        (memory_path lib disk execPath (memory_id disk args))
                        (negb (eqb_string (saveMemoryArgs.MemoryID args) "")) args).
    split; [exact Hexec|]. split; [reflexivity|].
    split.
    { unfold memory_path, memory_id.
      destruct (eqb_string (saveMemoryArgs.MemoryID args) ""); reflexivity. }
    split; [exact Hfiles|].
    split; [intros path Hne; rewrite Hfiles; apply lookup_insert_ne; congruence|].
    split; [exact Hname|].
    intros Hid Hread.
    pose proof (read_memory_cases lib disk (readMemoryArgs.mk (memory_id disk args))
                  (save_memory lib disk args files).2) as HR.
    cbn [readMemoryArgs.MemoryID] in HR.
    assert (Hlook : (save_memory lib disk args files).2
                    !! memory_path lib disk execPath (memory_id disk args)
                    = Some (memory_text disk (memory_id disk args)
                              (memory_path lib disk execPath (memory_id disk args))
                              (negb (eqb_string (saveMemoryArgs.MemoryID args) "")) args)).
    { rewrite Hfiles. apply lookup_insert_eq. }
    destruct (read_memory lib disk _ _) as [content isError sc] eqn:ER.
    assert (Hsc : sc = None).
    { unfold read_memory in ER. cbv zeta in ER.
      repeat match type of ER with
             | context [match ?x with _ => _ end] => destruct x
             end; inversion ER; reflexivity. }
    cbn [IsError Content] in HR. destruct isError.
    + exfalso. destruct HR as [HR|[[err HR]|(execPath' & HE & [HR|HR])]].
      * contradiction.
      * congruence.
      * rewrite Hexec in HE. inversion HE; subst execPath'. congruence.
      * rewrite Hexec in HE. inversion HE; subst execPath'. contradiction.
    + destruct HR as (_ & execPath' & content' & head & HE & Hl & _ & Hcontent).
      rewrite Hexec in HE. inversion HE; subst execPath'.
      rewrite Hlook in Hl. inversion Hl; subst content'.
      exists head. subst sc content. reflexivity.
Qed.

Lemma save_memory_round_trip_witness :
  let args := saveMemoryArgs.mk "You are a debugger." "Port 8081 was busy." "" in
  let r := save_memory Demo.lib Demo.disk args ∅ in
  IsError r.1 = false /\
  exists head text,
    r.2 !! "/opt/mcp/mems/3f2b6c1e-8a1d-4e57-9c0a-5d1f2e7b9a10.md" = Some text /\
    read_memory Demo.lib Demo.disk
      (readMemoryArgs.mk "3f2b6c1e-8a1d-4e57-9c0a-5d1f2e7b9a10") r.2
    = text_result (head +:+ text) false.
Proof.
  intros args r.
  assert (Hok : IsError r.1 = false) by reflexivity.
  split; [exact Hok|].
  destruct (save_memory_round_trip Demo.lib Demo.disk args ∅) as (_ & _ & H).
  destruct (H Hok) as (execPath & text & Hexec & _ & _ & Hfiles & _ & _ & Hread).
  inversion Hexec; subst execPath.
  destruct Hread as [head Hhead]; [discriminate|reflexivity|].
  exists head, text. split; [|exact Hhead].
  fold r in Hfiles. rewrite Hfiles. apply lookup_insert_eq.
Defined.

(** ** The knowledge tools *)

Section KnowledgeSearch.

Variables (lib : GoLib) (disk : Disk) (files : gmap string string).
Variables (args : searchKnowledgeArgs.t) (knowledgeDir : string).

Lemma candidates_cons (entry : string * bool) (entries : list (string * bool)) :
  candidates lib disk files args knowledgeDir (entry :: entries) =
  candidates lib disk files args knowledgeDir [entry] ++
  candidates lib disk files args knowledgeDir entries.
Proof.
  unfold candidates. cbn [omap list_omap].
  destruct (if entry.2 || negb (HasSuffix entry.1 ".md") then None else _);
    reflexivity.
Qed.

Lemma search_loop_take (limit : Z) (entries : list (string * bool)) :
  forall results,
    Z.of_nat (length results) < limit ->
    search_loop lib disk files args knowledgeDir limit entries results =
    results ++ take (Z.to_nat limit - length results)
                 (candidates lib disk files args knowledgeDir entries).
Proof.
  induction entries as [|[name isDir] entries IH]; intros results Hlt.
  { cbn [search_loop]. unfold candidates. cbn [omap list_omap].
    rewrite take_nil, app_nil_r. reflexivity. }
  rewrite candidates_cons. cbn [search_loop]. unfold candidates at 1.
  cbn [omap list_omap fst snd].
  destruct (isDir || negb (HasSuffix name ".md")).
  { cbn [app]. apply IH. exact Hlt. }
  destruct (files !! filepath_Join lib knowledgeDir name) as [contentStr|].
  2:{ cbn [app]. apply IH. exact Hlt. }
  destruct (ReadFile_error disk (filepath_Join lib knowledgeDir name)).
  { cbn [app]. apply IH. exact Hlt. }
  destruct (item_matches lib args contentStr _).
  2:{ cbn [app].
      destruct (limit <=? Z.of_nat (length results)) eqn:E;
        [apply Z.leb_le in E; lia|].
      apply IH. exact Hlt. }
  cbn [app].
  destruct (Z.to_nat limit - length results)%nat as [|n] eqn:En; [lia|].
  cbn [take]. rewrite length_app. cbn [length].
  destruct (limit <=? Z.of_nat (length results + 1)) eqn:E.
  - apply Z.leb_le in E. replace n with O by lia. rewrite take_0. reflexivity.
  - apply Z.leb_gt in E. rewrite IH by (rewrite length_app; cbn [length]; lia).
    rewrite <- app_assoc. cbn [app]. do 3 f_equal.
    rewrite length_app. cbn [length]. lia.
Qed.

End KnowledgeSearch.

(** X19: search_knowledge returns the first limit matches in the order
    of the directory: the results are the first limit of the readable
    files named *.md that pass the filters, limit being 10 when the
    argument is not positive; no more than limit results are returned,
    and as soon as limit are found the files after them are not read.
    A search reports an error only for an empty work_dir or a directory
    that cannot be listed. *)
Theorem search_knowledge_first_matches (lib : GoLib) (disk : Disk)
    (files : gmap string string) (args : searchKnowledgeArgs.t)
    (entries : list (string * bool)) :
  let knowledgeDir := filepath_Join lib (searchKnowledgeArgs.WorkDir args) ".knowledge" in
  let limit := if searchKnowledgeArgs.Limit args <=? 0 then 10
               else searchKnowledgeArgs.Limit args in
  search_results lib disk files args entries =
  take (Z.to_nat limit) (candidates lib disk files args knowledgeDir entries) /\
  Z.of_nat (length (search_results lib disk files args entries)) <= limit /\
  (forall more,
      limit <= Z.of_nat (length (candidates lib disk files args knowledgeDir entries)) ->
      search_results lib disk files args (entries ++ more) =
      search_results lib disk files args entries) /\
  (IsError (search_knowledge lib disk args files) = true ->
   searchKnowledgeArgs.WorkDir args = "" \/
   exists err, ReadDir disk knowledgeDir = inl err).
Proof.
  intros knowledgeDir limit.
  assert (Hpos : 0 < limit).
  { subst limit. destruct (searchKnowledgeArgs.Limit args <=? 0) eqn:E;
      [lia|apply Z.leb_gt in E; exact E]. }
  assert (Hres : forall es,
    search_results lib disk files args es =
    take (Z.to_nat limit) (candidates lib disk files args knowledgeDir es)).
  { intros es. unfold search_results. fold knowledgeDir.
    change (search_limit args) with limit.
    rewrite search_loop_take by (cbn [length]; lia).
    cbn [app length]. f_equal. lia. }
  split; [apply Hres|]. split.
  - rewrite Hres, length_take. lia.
  - split.
    + intros more Hfull. rewrite !Hres.
      assert (Happ : candidates lib disk files args knowledgeDir (entries ++ more) =
                     candidates lib disk files args knowledgeDir entries ++
                     candidates lib disk files args knowledgeDir more).
      { unfold candidates. apply omap_app. }
      rewrite Happ, take_app_le by lia. reflexivity.
    + unfold search_knowledge. fold knowledgeDir.
      destruct (eqb_string (searchKnowledgeArgs.WorkDir args) "") eqn:E.
      { apply eqb_string_true in E. auto. }
      cbv zeta. destruct (negb (Stat_exists disk knowledgeDir)); [discriminate|].
      destruct (ReadDir disk knowledgeDir) as [err|[|entry es]]; [eauto|discriminate|].
      destruct (search_results lib disk files args (entry :: es)); discriminate.
Qed.

Section IndexFacts.

Lemma has_byte_cons (c x : ascii) (s : string) :
  has_byte c (String x s) = Ascii.eqb c x || has_byte c s.
Proof. reflexivity. Qed.

(** a run of bytes without the first byte of the pattern is skipped *)
Lemma index_skip (m' : string) (c : ascii) (a b : string) :
  has_byte c a = false ->
  String.index 0 (String c m') (a +:+ b) =
  option_map (Nat.add (String.length a)) (String.index 0 (String c m') b).
Proof.
  induction a as [|x a IH]; intros H.
  - change ("" +:+ b) with b. destruct (String.index 0 _ b); reflexivity.
  - rewrite has_byte_cons in H. apply orb_false_iff in H. destruct H as [Hx Ha].
    rewrite append_cons. cbn [String.index String.prefix].
    destruct (ascii_dec c x) as [->|Hne]; [rewrite Ascii.eqb_refl in Hx; discriminate|].
    rewrite (IH Ha). cbn [String.length].
    destruct (String.index 0 _ b); reflexivity.
Qed.

Lemma index_step (m s : string) (x : ascii) :
  String.prefix m (String x s) = false ->
  String.index 0 m (String x s) = option_map S (String.index 0 m s).
Proof.
  intros H. cbn [String.index]. rewrite H.
  destruct (String.index 0 m s); reflexivity.
Qed.

Lemma index_here (m' tail : string) (c : ascii) :
  String.index 0 (String c m') (String c m' +:+ tail) = Some O.
Proof.
  rewrite append_cons. cbn [String.index].
  change (String c (m' +:+ tail)) with (String c m' +:+ tail).
  rewrite prefix_append. reflexivity.
Qed.

Lemma slice_from_append (a b : string) :
  slice_from (a +:+ b) (String.length a) = b.
Proof.
  unfold slice_from. rewrite substring_skip, length_append.
  replace (String.length a + String.length b - String.length a)%nat
    with (String.length b) by lia.
  apply substring_0_all.
Qed.

(** the field between a marker and a stop, when the first marker and
    the first stop after it are where the writer put them *)
Lemma between_at (pre marker mid stop tail : string) :
  String.index 0 marker (pre +:+ marker +:+ mid +:+ stop +:+ tail)
  = Some (String.length pre) ->
  String.index 0 stop (mid +:+ stop +:+ tail) = Some (String.length mid) ->
  between (pre +:+ marker +:+ mid +:+ stop +:+ tail) marker stop = Some mid.
Proof.
  intros H1 H2. unfold between, Index. rewrite H1.
  rewrite <- (append_assoc pre marker), <- length_append.
  rewrite slice_from_append, H2, substring_skip, substring_0_length. reflexivity.
Qed.

Lemma index_stop (mid tail : string) (c : ascii) :
  has_byte c mid = false ->
  String.index 0 (String c "") (mid +:+ String c "" +:+ tail) = Some (String.length mid).
Proof.
  intros H. rewrite (index_skip "" c mid _ H), index_here.
  cbn [option_map]. f_equal. lia.
Qed.

(** the creation time is found in a file laid out by save_knowledge *)
Lemma between_createdTime (title id created rest : string) :
  has_byte "*" title = false ->
  has_byte "*" id = false ->
  has_byte (ascii_of_nat 10) created = false ->
  between ("# " +:+ title +:+ nl +:+ nl +:+
           "**知识ID**: `" +:+ id +:+ "`" +:+ nl +:+ nl +:+
           "**创建时间**: " +:+ created +:+ nl +:+ rest)
    "**创建时间**: " nl = Some created.
Proof.
  intros Ht Hi Hc.
  assert (Hlit : forall X,
    String.index 0 "**创建时间**: " ("**知识ID**: `" +:+ X) =
    option_map (Nat.add 15) (String.index 0 "**创建时间**: " X)).
  { intros X. repeat rewrite append_cons. change ("" +:+ X) with X.
    repeat (rewrite index_step by reflexivity).
    destruct (String.index 0 _ X); reflexivity. }
  pose proof (between_at
                ("# " +:+ title +:+ nl +:+ nl +:+ "**知识ID**: `" +:+ id +:+ "`" +:+ nl +:+ nl)
                "**创建时间**: " created nl rest) as HB.
  rewrite !append_assoc in HB. apply HB; clear HB.
  - rewrite (index_skip _ "*" "# ") by reflexivity.
    rewrite (index_skip _ "*" title) by exact Ht.
    rewrite (index_skip _ "*" nl) by reflexivity.
    rewrite (index_skip _ "*" nl) by reflexivity.
    rewrite Hlit.
    rewrite (index_skip _ "*" id) by exact Hi.
    rewrite (index_skip _ "*" "`") by reflexivity.
    rewrite (index_skip _ "*" nl) by reflexivity.
    rewrite (index_skip _ "*" nl) by reflexivity.
    rewrite index_here. cbn [option_map]. f_equal.
    rewrite !length_append. cbn [String.length nl]. lia.
  - apply index_stop. exact Hc.
Qed.

End IndexFacts.

Section KnowledgeSave.

Variables (lib : GoLib) (disk : Disk).

Lemma save_knowledge_cases (args : saveKnowledgeArgs.t) (files : gmap string string) :
  let r := save_knowledge lib disk args files in
  let knowledgeDir := filepath_Join lib (saveKnowledgeArgs.WorkDir args) ".knowledge" in
  let isUpdate := negb (eqb_string (saveKnowledgeArgs.KnowledgeID args) "") in
  let knowledgeID :=
    if isUpdate then saveKnowledgeArgs.KnowledgeID args else uuid_New disk in
  let filePath := filepath_Join lib knowledgeDir (knowledgeID +:+ ".md") in
  let category :=
    if eqb_string (saveKnowledgeArgs.Category args) "" then "通用"
    else saveKnowledgeArgs.Category args in
  let tagsStr :=
    match saveKnowledgeArgs.Tags args with
    | [] => ""
    | _ => Join (saveKnowledgeArgs.Tags args) ", "
    end in
  if IsError r.1 then
    r.2 = files \/
    exists content err,
      WriteFile_error disk filePath = Some err /\
      r.2 = failed_write disk files filePath content
  else
    saveKnowledgeArgs.Title args <> "" /\
    saveKnowledgeArgs.Content args <> "" /\
    saveKnowledgeArgs.WorkDir args <> "" /\
    (exists a b, Content r.1 = [a +:+ knowledgeID +:+ b]) /\
    if isUpdate then
      exists oldContent,
        files !! filePath = Some oldContent /\
        r.2 = <[filePath :=
                  knowledge_text (saveKnowledgeArgs.Title args) knowledgeID
                    (if eqb_string (old_createdTime disk filePath oldContent) ""
                     then now_RFC3339 disk
                     else old_createdTime disk filePath oldContent)
                    (Some (later_RFC3339 disk)) category tagsStr
                    (saveKnowledgeArgs.Content args)]> files
    else
      r.2 = <[filePath :=
                knowledge_text (saveKnowledgeArgs.Title args) knowledgeID
                  (now_RFC3339 disk) None category tagsStr
                  (saveKnowledgeArgs.Content args)]> files.
Proof.
  cbv zeta. unfold save_knowledge, WriteFile.
  destruct (eqb_string (saveKnowledgeArgs.Title args) "") eqn:E1; [cbn; auto|].
  destruct (eqb_string (saveKnowledgeArgs.Content args) "") eqn:E2; [cbn; auto|].
  destruct (eqb_string (saveKnowledgeArgs.WorkDir args) "") eqn:E3; [cbn; auto|].
  apply eqb_string_false in E1, E2, E3.
  destruct (MkdirAll_error disk _) as [err|]; [cbn; auto|].
  cbv zeta.
  destruct (eqb_string (saveKnowledgeArgs.KnowledgeID args) "") eqn:E4; cbn [negb].
  - destruct (WriteFile_error disk _) as [err|] eqn:Ew.
    { cbn [fst snd text_result IsError]. right. eauto. }
    cbn [fst snd text_result IsError Content].
    split; [exact E1|]. split; [exact E2|]. split; [exact E3|].
    split; [|reflexivity].
    eexists ("✅ 知识已保存" +:+ nl +:+ nl +:+ "**知识ID**: `"), _.
    rewrite !append_assoc. reflexivity.
  - destruct (files !! _) as [oldContent|] eqn:Ef; [|cbn; auto].
    destruct (WriteFile_error disk _) as [err|] eqn:Ew.
    { cbn [fst snd text_result IsError]. right. eauto. }
    cbn [fst snd text_result IsError Content].
    split; [exact E1|]. split; [exact E2|]. split; [exact E3|].
    split.
    + eexists ("✅ 知识已更新" +:+ nl +:+ nl +:+ "**知识ID**: `"), _.
      rewrite !append_assoc. reflexivity.
    + exists oldContent. split; reflexivity.
Qed.

End KnowledgeSave.

(** X20: an update by save_knowledge keeps the creation time.  When
    the file of the given knowledge_id is laid out as save_knowledge
    writes it, with a title and an ID that hold no asterisk and a
    creation time that is not empty, is on one line and is left as it
    is by strings.TrimSpace, a successful update rewrites that file and
    no other.  The new file holds the title and the content of the
    call, the category of the call, or the default category when the
    call gives none, the tags of the call joined by a comma and a
    space, the time of the update, and the creation time of the old
    file. *)
Theorem save_knowledge_keeps_createdTime (lib : GoLib) (disk : Disk)
    (args : saveKnowledgeArgs.t) (files : gmap string string)
    (title0 id0 created category0 tags0 content0 : string) (updated0 : option string) :
  let filePath :=
    filepath_Join lib (filepath_Join lib (saveKnowledgeArgs.WorkDir args) ".knowledge")
      (saveKnowledgeArgs.KnowledgeID args +:+ ".md") in
  let category :=
    if eqb_string (saveKnowledgeArgs.Category args) "" then "通用"
    else saveKnowledgeArgs.Category args in
  let tagsStr :=
    match saveKnowledgeArgs.Tags args with
    | [] => ""
    | _ => Join (saveKnowledgeArgs.Tags args) ", "
    end in
  saveKnowledgeArgs.KnowledgeID args <> "" ->
  files !! filePath =
    Some (knowledge_text title0 id0 created updated0 category0 tags0 content0) ->
  has_byte "*" title0 = false ->
  has_byte "*" id0 = false ->
  has_byte (ascii_of_nat 10) created = false ->
  TrimSpace created = created ->
  created <> "" ->
  ReadFile_error disk filePath = None ->
  IsError (save_knowledge lib disk args files).1 = false ->
  (save_knowledge lib disk args files).2 =
  <[filePath :=
      knowledge_text (saveKnowledgeArgs.Title args) (saveKnowledgeArgs.KnowledgeID args)
        created (Some (later_RFC3339 disk)) category tagsStr
        (saveKnowledgeArgs.Content args)]> files /\
  (forall path, path <> filePath ->
                (save_knowledge lib disk args files).2 !! path = files !! path).
Proof.
  intros filePath category tagsStr Hid Hold Htitle Hid0 Hline Htrim Hne Hread Hok.
  pose proof (save_knowledge_cases lib disk args files) as H. cbv zeta in H.
  rewrite Hok in H.
  assert (Eid : eqb_string (saveKnowledgeArgs.KnowledgeID args) "" = false).
  { apply eqb_string_false. exact Hid. }
  rewrite Eid in H. cbn [negb] in H. fold filePath category tagsStr in H.
  destruct H as (_ & _ & _ & _ & oldContent & Hf & Hfiles).
  rewrite Hold in Hf. inversion Hf; subst oldContent. clear Hf.
  assert (Hcreated : old_createdTime disk filePath
                       (knowledge_text title0 id0 created updated0 category0 tags0 content0)
                     = created).
  { unfold old_createdTime. rewrite Hread. unfold knowledge_text.
    rewrite between_createdTime by assumption. exact Htrim. }
  rewrite Hcreated in Hfiles.
  assert (Ene : eqb_string created "" = false) by (apply eqb_string_false; exact Hne).
  rewrite Ene in Hfiles.
  split; [exact Hfiles|].
  intros path Hp. rewrite Hfiles. apply lookup_insert_ne. congruence.
Qed.

Lemma save_knowledge_keeps_createdTime_witness :
  let args := saveKnowledgeArgs.mk "Ports, revised" "Use 8082." ["net"] "" "k1" "/work" in
  let old := knowledge_text "Ports" "k1" "2026-10-30T09:00:00+08:00" None
               "通用" "" "Use 8081." in
  let files : gmap string string := {[ "/work/.knowledge/k1.md" := old ]} in
  (save_knowledge Demo.lib Demo.disk args files).2 !! "/work/.knowledge/k1.md" =
  Some (knowledge_text "Ports, revised" "k1" "2026-10-30T09:00:00+08:00"
          (Some "2026-10-31T10:15:01+08:00") "通用" "net" "Use 8082.").
Proof.
  intros args old files.
  destruct (save_knowledge_keeps_createdTime Demo.lib Demo.disk args files
              "Ports" "k1" "2026-10-30T09:00:00+08:00" "通用" "" "Use 8081." None)
    as (Hfiles & _).
  - discriminate.
  - apply lookup_singleton_eq.
  - reflexivity.
  - reflexivity.
  - reflexivity.
  - reflexivity.
  - discriminate.
  - reflexivity.
  - vm_compute. reflexivity.
  - rewrite Hfiles.
    change (filepath_Join Demo.lib
              (filepath_Join Demo.lib (saveKnowledgeArgs.WorkDir args) ".knowledge")
              (saveKnowledgeArgs.KnowledgeID args +:+ ".md"))
      with "/work/.knowledge/k1.md".
    rewrite lookup_insert_eq.
    pose proof (f_equal (fun m : gmap string string => m !! "/work/.knowledge/k1.md") Hfiles)
      as Hl.
    cbv beta in Hl.
    change (filepath_Join Demo.lib
              (filepath_Join Demo.lib (saveKnowledgeArgs.WorkDir args) ".knowledge")
              (saveKnowledgeArgs.KnowledgeID args +:+ ".md"))
      with "/work/.knowledge/k1.md" in Hl.
    rewrite lookup_insert_eq in Hl. rewrite <- Hl.
    vm_compute. reflexivity.
Defined.

Section KnowledgeRoundTrip.


End KnowledgeRoundTrip.



(** ** The tool semaphore does not block for ever *)

Section Progress.

Import ToolSemaphore.

Lemma reachable_demo_state : reachable demo_state.
Proof.
  unfold reachable.
  eapply rtc_l; [apply (step_call initial Tool_start_process)|].
  eapply rtc_l; [apply (step_call _ Tool_request_with_logs)|].
  eapply rtc_l;
    [eapply (step_acquire _ 0 Tool_start_process); [reflexivity|simpl; lia]|].
  apply rtc_refl.
Qed.

Lemma left_insert (cs : list (Tool * list Instr)) :
  forall i t op rest tok,
    cs !! i = Some (t, op :: rest) ->
    (instructions_left {| toolSemaphore := tok; calls := <[i := (t, rest)]> cs |} + 1 =
     instructions_left {| toolSemaphore := tok; calls := cs |})%nat.
Proof.
  unfold instructions_left. cbn [calls].
  induction cs as [|c cs IH]; intros i t op rest tok Hi; [discriminate|].
  destruct i as [|i]; cbn in Hi.
  - inversion Hi; subst. cbn. lia.
  - specialize (IH i t op rest tok Hi). cbn [foldr] in *.
    change (<[S i := (t, rest)]> (c :: cs)) with (c :: <[i := (t, rest)]> cs).
    cbn [foldr]. lia.
Qed.

Lemma left_positive (cs : list (Tool * list Instr)) (tok : nat) :
  (0 < instructions_left {| toolSemaphore := tok; calls := cs |})%nat ->
  exists i t op rest, cs !! i = Some (t, op :: rest).
Proof.
  unfold instructions_left. cbn [calls].
  induction cs as [|[t p] cs IH]; cbn [foldr]; [lia|].
  destruct p as [|op rest].
  - cbn [snd length]. intros H. destruct (IH H) as (i & t' & op & rest & Hi).
    exists (S i), t', op, rest. exact Hi.
  - intros _. exists O, t, op, rest. reflexivity.
Qed.

Lemma holder_exists (cs : list (Tool * list Instr)) :
  (0 < tokens_held cs)%nat ->
  exists i c, cs !! i = Some c /\ holds_token c = 1%nat.
Proof.
  induction cs as [|c cs IH]; [cbn; lia|].
  change (tokens_held (c :: cs)) with (holds_token c + tokens_held cs)%nat.
  destruct (holds_token c) as [|[|n]] eqn:E.
  - intros H. destruct (IH H) as (i & c' & Hi & Hc). exists (S i), c'. auto.
  - intros _. exists O, c. auto.
  - unfold holds_token in E. destruct (c.2) as [|[] ?]; discriminate.
Qed.

Lemma no_holder (cs : list (Tool * list Instr)) :
  tokens_held cs = O ->
  forall i c, cs !! i = Some c -> holds_token c = O.
Proof.
  induction cs as [|c0 cs IH]; intros H i c Hi; [discriminate|].
  change (tokens_held (c0 :: cs)) with (holds_token c0 + tokens_held cs)%nat in H.
  destruct i as [|i]; cbn in Hi.
  - inversion Hi; subst. lia.
  - apply (IH ltac:(lia) i c Hi).
Qed.

Lemma finished_no_holder (cs : list (Tool * list Instr)) (tok : nat) :
  instructions_left {| toolSemaphore := tok; calls := cs |} = O -> tokens_held cs = O.
Proof.
  unfold instructions_left. cbn [calls].
  induction cs as [|[t p] cs IH]; [reflexivity|].
  cbn [foldr snd]. intros H.
  change (tokens_held ((t, p) :: cs)) with (holds_token (t, p) + tokens_held cs)%nat.
  destruct p; [|cbn in H; lia].
  rewrite IH by (cbn in H; lia). reflexivity.
Qed.

Lemma semaphore_progress (s : State) :
  reachable s ->
  (instructions_left s = O -> toolSemaphore s = 1%nat) /\
  ((0 < instructions_left s)%nat ->
   exists s', step s s' /\ (instructions_left s' < instructions_left s)%nat) /\
  (toolSemaphore s = O <->
   exists i c, calls s !! i = Some c /\ holds_token c = 1%nat).
Proof.
  intros Hr. destruct (token_conservation s Hr) as [Hinv Hwf].
  destruct s as [tok cs]. cbn [toolSemaphore calls] in *.
  split; [|split].
  - intros H. apply finished_no_holder in H. lia.
  - intros Hleft.
    destruct (tokens_held cs) as [|n] eqn:Eh.
    + destruct (left_positive cs tok Hleft) as (i & t & op & rest & Hi).
      pose proof (no_holder cs Eh i _ Hi) as Hno.
      unfold holds_token in Hno. cbn [snd] in Hno.
      destruct op; try discriminate.
      eexists. split.
      * eapply (step_acquire {| toolSemaphore := tok; calls := cs |} i t rest);
          [exact Hi|cbn; lia].
      * cbn [toolSemaphore calls].
        pose proof (left_insert cs i t Acquire rest (tok - 1) Hi) as Hl.
        unfold instructions_left in *. cbn [calls] in *. lia.
    + destruct (holder_exists cs ltac:(lia)) as (i & [t p] & Hi & Hc).
      unfold holds_token in Hc. cbn [snd] in Hc.
      destruct p as [|[] rest]; try discriminate.
      * eexists. split.
        -- eapply (step_return {| toolSemaphore := tok; calls := cs |} i t rest).
           exact Hi.
        -- cbn [toolSemaphore calls].
           pose proof (left_insert cs i t Body rest tok Hi) as Hl.
           unfold instructions_left in *. cbn [calls] in *. lia.
      * eexists. split.
        -- eapply (step_release {| toolSemaphore := tok; calls := cs |} i t rest);
             [exact Hi|unfold capacity; cbn; lia].
        -- cbn [toolSemaphore calls].
           pose proof (left_insert cs i t Release rest (tok + 1) Hi) as Hl.
           unfold instructions_left in *. cbn [calls] in *. lia.
  - split.
    + intros H0. apply holder_exists. lia.
    + intros (i & c & Hi & Hc).
      destruct (tokens_held cs) as [|n] eqn:Eh; [|lia].
      pose proof (no_holder cs Eh i c Hi). lia.
Qed.

End Progress.

(** X22: the semaphore of the tools never blocks for ever.  In every
    state reachable by any interleaving of any tool calls, the token is
    missing from the channel exactly when one call holds it (it has
    acquired and not yet released); as long as some call has
    instructions left, some call can run its next instruction: the
    holder can return from its body and release, or else the token is
    free and a waiting call can acquire it; and when every call has run
    to its end the token is back in the channel. *)
Theorem toolSemaphore_no_deadlock (s : ToolSemaphore.State) :
  ToolSemaphore.reachable s ->
  (instructions_left s = O -> ToolSemaphore.toolSemaphore s = 1%nat) /\
  ((0 < instructions_left s)%nat ->
   exists s', ToolSemaphore.step s s' /\
              (instructions_left s' < instructions_left s)%nat) /\
  (ToolSemaphore.toolSemaphore s = O <->
   exists i c, ToolSemaphore.calls s !! i = Some c /\
               ToolSemaphore.holds_token c = 1%nat).
Proof.
  exact (semaphore_progress s).
Qed.

Lemma toolSemaphore_no_deadlock_witness :
  ToolSemaphore.reachable ToolSemaphore.demo_state /\
  exists s', ToolSemaphore.step ToolSemaphore.demo_state s' /\
             (instructions_left s' < instructions_left ToolSemaphore.demo_state)%nat.
Proof.
  split; [exact reachable_demo_state|].
  apply (toolSemaphore_no_deadlock ToolSemaphore.demo_state reachable_demo_state).
  cbn. lia.
Defined.

(** X23: start_process returns.  When the health-check URL gives a
    positive port, so that readiness is probed by dialling, and every
    readiness wait reaches its first select before the first tick with
    dials of 0 to 100 ms, the handler returns a result after at most
    timeout / 500 ms + 1 rounds of the readiness loop, whatever the
    command, the registry, the child and the picks of select are; more
    rounds allowed give the same result. *)
Theorem start_process_returns (lib : GoLib) (os : OS) (fuel : nat)
    (args : startProcessArgs.t) (w : World) :
  (forall evs,
      first_select (readiness os evs) < 500 * Millisecond /\
      forall k, 0 <= probe_time (readiness os evs) k <= 100 * Millisecond) ->
  (exists port,
      extractPortFromURL lib (startProcessArgs.HealthCheckURL args) = Some port /\
      0 < port) ->
  (0 < fuel)%nat ->
  effective_timeout (startProcessArgs.TimeoutSeconds args)
  < 500 * Millisecond * Z.of_nat fuel ->
  exists r w',
    forall fuel', (fuel <= fuel')%nat ->
                  start_process lib os fuel' args w = Some (r, w').
Proof.
  intros Henv (port & Hport & Hpos) Hfuel Htimeout.
  unfold start_process.
  destruct (Contains (startProcessArgs.Command args) " ").
  { eexists _, _. intros fuel' _. reflexivity. }
  set (w0 := cleanup lib os args w).
  pose proof (StartProcess_effect lib os (startProcessArgs.Name args)
                (startProcessArgs.Command args) (startProcessArgs.Args args)
                (startProcessArgs.Env args) (startProcessArgs.WorkDir args)
                (startProcessArgs.HealthCheckURL args) w0) as HS.
  cbv zeta in HS. destruct HS as (_ & _ & _ & _ & Hres).
  destruct (StartProcess lib os _ _ _ _ _ _ w0) as [[err|processInfo] w1];
    cbn [fst snd] in *.
  { eexists _, _. intros fuel' _. reflexivity. }
  destruct Hres as (_ & _ & _ & _ & Hp & _).
  rewrite Hport in Hp. change (HealthCheckPort processInfo = port) in Hp.
  unfold health_check. rewrite Hp.
  destruct (0 <? port) eqn:E; [|apply Z.ltb_ge in E; lia].
  destruct (Henv (events w1)) as [Hfirst Hprobe].
  destruct (wait_loop_returns "等待端口就绪超时"
              (effective_timeout (startProcessArgs.TimeoutSeconds args))
              (readiness os (events w1)) Hprobe fuel O O
              (first_select (readiness os (events w1))))
    as (err & t & Hw & _).
  { unfold Millisecond in *. cbn [Z.of_nat]. lia. }
  { exact Hfuel. }
  { cbn [Z.of_nat]. lia. }
  assert (Hall : forall fuel', (fuel <= fuel')%nat ->
            waitForPortReadyWithExitCheck
              (effective_timeout (startProcessArgs.TimeoutSeconds args))
              (readiness os (events w1)) fuel' = Some (err, t)).
  { intros fuel' Hle. unfold waitForPortReadyWithExitCheck.
    eapply wait_loop_fuel_mono; [exact Hw|exact Hle]. }
  destruct err as [healthCheckErr|].
  - eexists _, _. intros fuel' Hle. rewrite (Hall fuel' Hle). reflexivity.
  - eexists _, _. intros fuel' Hle. rewrite (Hall fuel' Hle). reflexivity.
Qed.

Lemma start_process_returns_witness :
  exists r w',
    start_process Demo.lib (Demo.os "" (HTTPError "") false) 3
      (startProcessArgs.mk "api" "go" ["run"; "."] "" []
         "http://localhost:8081/health" 1 "") demo_world = Some (r, w').
Proof.
  destruct (start_process_returns Demo.lib (Demo.os "" (HTTPError "") false) 3
              (startProcessArgs.mk "api" "go" ["run"; "."] "" []
                 "http://localhost:8081/health" 1 "") demo_world)
    as (r & w' & H).
  - intros evs. split; [reflexivity|].
    intros k. cbn. unfold Millisecond. lia.
  - exists 8081. split; reflexivity.
  - lia.
  - reflexivity.
  - exists r, w'. apply H. lia.
Defined.

(** X24: KillProcessByHealthCheckURL never changes the registry and
    starts nothing.  A URL from which no port can be taken is an error
    and nothing is done; a port that does not accept a connection is
    nil after that one dial, no command being run; a port that does is
    dialled a second time by killProcessByPort, and the result is then
    nil exactly when a kill command has been run, so that a listener
    that goes away between the two dials makes the call fail. *)
Theorem KillProcessByHealthCheckURL_outcome (lib : GoLib) (os : OS)
    (healthCheckURL : string) (w : World) :
  let r := KillProcessByHealthCheckURL lib os healthCheckURL w in
  processes r.2 = processes w /\
  existsb is_start_or_request (added w r.2) = false /\
  match extractPortFromURL lib healthCheckURL with
  | None => r.1 <> None /\ r.2 = w
  | Some port =>
      let address := "127.0.0.1:" +:+ Itoa port in
      if dial_ok os (events w) address
      then
        (r.1 = None <-> existsb is_kill (added w r.2) = true) /\
        (exists more, added w r.2 = EvDial address :: EvDial address :: more) /\
        (dial_ok os (events w ++ [EvDial address]) address = false ->
         r.1 <> None /\ added w r.2 = [EvDial address; EvDial address])
      else r = (None, emit w (EvDial address))
  end.
Proof.
  intros r. subst r. unfold KillProcessByHealthCheckURL.
  destruct (extractPortFromURL lib healthCheckURL) as [port|].
  2:{ cbn [fst snd]. split; [reflexivity|].
      rewrite (added_app w w []) by (rewrite app_nil_r; reflexivity).
      split; [reflexivity|]. split; [discriminate|reflexivity]. }
  unfold isPortInUse. cbv beta iota zeta.
  destruct (dial_ok os (events w) ("127.0.0.1:" +:+ Itoa port)); cbn [negb].
  2:{ cbn [fst snd emit processes events]. split; [reflexivity|].
      rewrite (added_app w _ [EvDial ("127.0.0.1:" +:+ Itoa port)]) by reflexivity.
      split; reflexivity. }
  destruct (killProcessByPort_trace lib os port (emit w (EvDial ("127.0.0.1:" +:+ Itoa port))))
    as [Hp (more & Hev & Hq & Hiff & _ & Hfree)].
  cbn [emit processes events] in Hp, Hev, Hfree.
  assert (Hadd : added w (killProcessByPort lib os port
                            (emit w (EvDial ("127.0.0.1:" +:+ Itoa port)))).2
                 = EvDial ("127.0.0.1:" +:+ Itoa port)
                   :: EvDial ("127.0.0.1:" +:+ Itoa port) :: more).
  { apply added_app. rewrite Hev, <- app_assoc. reflexivity. }
  split; [exact Hp|]. rewrite Hadd. cbn [existsb is_start_or_request is_kill orb].
  split; [exact Hq|]. split; [exact Hiff|]. split; [eauto|].
  intros Hgone. destruct (Hfree Hgone) as [Herr ->]. auto.
Qed.
